(** * shanzhai_tf::Notifier: the two-phase park/notify primitive

    Shallow embedding of [taskflow/core/notifier.hpp].

    - The 64-bit state word is a [Z] in [[0, 2^64)]; every [uint64_t]
      operation of the source is written with its wrap-around.
    - A [Waiter*] is the index of the slot inside [waiters_]
      ([w - &waiters_[0]] in the source); [nullptr] is [None].
    - Every operation returns a [result]: a failed [assert], an access
      outside [waiters_] (undefined in C++), a loop that has not finished
      within the given number of iterations and a C++ exception are
      distinct outcomes.
    - The only exception is the one of [std::vector<Waiter>(N)] in the
      constructor; whether the vector can hold [N] slots is the answer
      [can_hold N] of the environment, a parameter of the constructor.
    - [std::atomic] accesses are executed one after the other.  The model
      is the schedule in which a call runs until it returns or blocks
      before the next call starts; a spurious failure of
      [compare_exchange_weak] is not modelled, and the fences are no-ops. *)

From Stdlib Require Import ZArith Lia Bool.
From stdpp Require Import base option list strings.

Local Open Scope Z_scope.

(** ** Unsigned 64-bit arithmetic *)

Definition wrap64 (x : Z) : Z := x mod 2 ^ 64.
Definition add64 (a b : Z) : Z := wrap64 (a + b).
Definition sub64 (a b : Z) : Z := wrap64 (a - b).
Definition mul64 (a b : Z) : Z := wrap64 (a * b).
Definition shl64 (a n : Z) : Z := wrap64 (Z.shiftl a n).
Definition not64 (a : Z) : Z := wrap64 (Z.lnot a).

(** [static_cast<int64_t>(x)] for [x] in [[0, 2^64)]. *)
Definition to_int64 (x : Z) : Z := if x <? 2 ^ 63 then x else x - 2 ^ 64.

Definition word64 (x : Z) : Prop := 0 <= x < 2 ^ 64.

(** ** State word layout *)

Definition kStackBits : Z := 16.
Definition kStackMask : Z := shl64 1 kStackBits - 1.
Definition kWaiterBits : Z := 16.
Definition kWaiterShift : Z := 16.
Definition kWaiterMask : Z := shl64 (shl64 1 kWaiterBits - 1) kWaiterShift.
Definition kEpochBits : Z := 32.
Definition kEpochShift : Z := 32.
Definition kEpochMask : Z := shl64 (shl64 1 kEpochBits - 1) kEpochShift.

Definition kWaiterInc : Z := shl64 1 kWaiterBits.
Definition kEpochInc : Z := shl64 1 kEpochShift.

(** Named accessors for the three fields, used to state the theorems. *)
Definition stack_of (s : Z) : Z := Z.land s kStackMask.
Definition count_of (s : Z) : Z := Z.shiftr (Z.land s kWaiterMask) kWaiterShift.
Definition epoch_of (s : Z) : Z := Z.shiftr (Z.land s kEpochMask) kEpochShift.

(** The wrap-safe order on epoch bits: [a] is after [b]. *)
Definition epoch_after (a b : Z) : Prop :=
  0 < to_int64 (sub64 (Z.land a kEpochMask) (Z.land b kEpochMask)).

(** ** Waiter slots *)

Module Waiter.
Inductive signal : Type := kNotSignaled | kWaiting | kSignaled.

Record t : Type := mk {
  next_ : option nat;
  epoch_ : Z;
  state_ : signal
}.

Definition set_next (n : option nat) (w : t) : t := mk n (epoch_ w) (state_ w).
Definition set_epoch (e : Z) (w : t) : t := mk (next_ w) e (state_ w).
Definition set_state (s : signal) (w : t) : t := mk (next_ w) (epoch_ w) s.

(** A value-initialised slot, as [std::vector<Waiter>(N)] creates it. *)
Definition init : t := mk None 0 kNotSignaled.

Definition signal_eqb (a b : signal) : bool :=
  match a, b with
  | kNotSignaled, kNotSignaled | kWaiting, kWaiting | kSignaled, kSignaled => true
  | _, _ => false
  end.
End Waiter.

Record Notifier : Type := mkNotifier {
  waiters_ : list Waiter.t;
  state_ : Z
}.

Definition set_waiters (l : list Waiter.t) (nf : Notifier) : Notifier :=
  mkNotifier l (state_ nf).
Definition set_state_word (s : Z) (nf : Notifier) : Notifier :=
  mkNotifier (waiters_ nf) s.

(** ** Outcomes *)

Inductive result (A : Type) : Type :=
| Ok (a : A)
| AssertFailed
| Undefined
| OutOfFuel
| Thrown.
Arguments Ok {A} a.
Arguments AssertFailed {A}.
Arguments Undefined {A}.
Arguments OutOfFuel {A}.
Arguments Thrown {A}.

Definition result_bind {A B : Type} (f : A -> result B) (r : result A) : result B :=
  match r with
  | Ok a => f a
  | AssertFailed => AssertFailed
  | Undefined => Undefined
  | OutOfFuel => OutOfFuel
  | Thrown => Thrown
  end.

#[global] Instance result_mbind : MBind result := @result_bind.
#[global] Instance result_mret : MRet result := @Ok.

(** [waiters_[i]] and [*w]: outside the vector the access is undefined. *)
Definition slot (l : list Waiter.t) (i : nat) : result Waiter.t :=
  match l !! i with
  | Some w => Ok w
  | None => Undefined
  end.

(** What a caller can observe of a call. *)
Inductive event : Type :=
| EvParked (w : nat)
| EvUnblocked (w : nat)
| EvSignaled (w : nat) (prev : Waiter.signal).

(** ** Construction, destruction, slot lookup *)

(** [std::vector<Waiter>(N)], the member initialiser [waiters_(N)]: [N]
    value-initialised slots, or an exception ([std::length_error] above the
    vector's [max_size()], [std::bad_alloc] when the memory is not there).
    Whether the library and the machine can hold [N] slots is not decided
    by this repository: it is the answer [can_hold N] of the environment. *)
Definition vector_ctor (can_hold : nat -> bool) (N : nat) : result (list Waiter.t) :=
  if can_hold N then Ok (replicate N Waiter.init) else Thrown.

(** An environment whose vector holds up to [limit] slots. *)
Definition holds_up_to (limit : Z) : nat -> bool :=
  fun N => Z.of_nat N <=? limit.

(** [Notifier::Notifier(size_t N)]: the member initialiser runs first, the
    body with the assertion after it.  The literal [1] of the assertion is
    an [int], so the bound is [65536 - 1]. *)
Definition Notifier_ctor (can_hold : nat -> bool) (N : nat) : result Notifier :=
  waiters ← vector_ctor can_hold N;
  let size := Z.of_nat (length waiters) in
  if size <? Z.shiftl 1 kWaiterBits - 1 then
    Ok (mkNotifier waiters
          (Z.lor kStackMask (sub64 kEpochMask (mul64 (mul64 kEpochInc size) 2))))
  else AssertFailed.

(** [Notifier::~Notifier()]. *)
Definition Notifier_dtor (nf : Notifier) : result unit :=
  if Z.land (state_ nf) (Z.lor kStackMask kWaiterMask) =? kStackMask
  then Ok tt else AssertFailed.

(** [Notifier::GetWaiter(size_t idx)]: the pointer to slot [idx], or
    [nullptr]. *)
Definition GetWaiter (nf : Notifier) (idx : nat) : option nat :=
  if (idx <? length (waiters_ nf))%nat then Some idx else None.

(** ** The notification protocol *)

(** [state_.compare_exchange_weak(expected, desired)]: the flag, the
    notifier afterwards, and the value left in [expected]. *)
Definition compare_exchange (nf : Notifier) (expected desired : Z)
  : bool * Notifier * Z :=
  if state_ nf =? expected
  then (true, set_state_word desired nf, expected)
  else (false, nf, state_ nf).

(** [Notifier::PrepareWait(Waiter *w)]; [fetch_add] returns the value
    before the increment. *)
Definition PrepareWait (nf : Notifier) (w : nat) : result Notifier :=
  let old := state_ nf in
  let nf1 := set_state_word (add64 old kWaiterInc) nf in
  sl ← slot (waiters_ nf1) w;
  Ok (set_waiters (<[w := Waiter.set_epoch old sl]> (waiters_ nf1)) nf1).

(** The local [epoch] of [CommitWait] and [CancelWait]. *)
Definition expected_epoch (snap : Z) : Z :=
  add64 (Z.land snap kEpochMask)
        (shl64 (Z.shiftr (Z.land snap kWaiterMask) kWaiterShift) kEpochShift).

(** The [for (;;)] of [CommitWait].  The flag of the result tells whether
    the loop was left by [break] (the waiter is on the stack and goes on
    to park) or by [return]. *)
Fixpoint CommitWait_loop (fuel : nat) (nf : Notifier) (w : nat)
    (epoch state : Z) : result (Notifier * bool) :=
  match fuel with
  | O => OutOfFuel
  | S fuel' =>
    if to_int64 (sub64 (Z.land state kEpochMask) epoch) <? 0 then
      (* yield, reload *)
      CommitWait_loop fuel' nf w epoch (state_ nf)
    else if 0 <? to_int64 (sub64 (Z.land state kEpochMask) epoch) then
      Ok (nf, false)
    else if Z.land state kWaiterMask =? 0 then AssertFailed
    else
      let new_state := add64 (sub64 state kWaiterInc) kEpochInc in
      let new_state :=
        Z.lor (Z.land new_state (not64 kStackMask)) (wrap64 (Z.of_nat w)) in
      sl ← slot (waiters_ nf) w;
      nxt ← (if Z.land state kStackMask =? kStackMask then Ok None
             else
               let top := Z.to_nat (Z.land state kStackMask) in
               _ ← slot (waiters_ nf) top; Ok (Some top));
      let nf1 := set_waiters (<[w := Waiter.set_next nxt sl]> (waiters_ nf)) nf in
      let '(ok, nf2, state') := compare_exchange nf1 state new_state in
      if ok then Ok (nf2, true)
      else CommitWait_loop fuel' nf2 w epoch state'
  end.

(** One pass over the condition of the park loop, under [w->mutex_]: the
    call returns when the slot is signaled, and otherwise marks the slot
    as waiting and blocks in [cv_.wait]. *)
Definition park (nf : Notifier) (w : nat) : result (Notifier * list event) :=
  sl ← slot (waiters_ nf) w;
  if Waiter.signal_eqb (Waiter.state_ sl) Waiter.kSignaled
  then Ok (nf, [EvUnblocked w])
  else Ok (set_waiters (<[w := Waiter.set_state Waiter.kWaiting sl]> (waiters_ nf)) nf,
           [EvParked w]).

(** [Notifier::CommitWait(Waiter *w)], up to its return or to the point
    where it blocks. *)
Definition CommitWait (fuel : nat) (nf : Notifier) (w : nat)
  : result (Notifier * list event) :=
  sl ← slot (waiters_ nf) w;
  let nf0 :=
    set_waiters (<[w := Waiter.set_state Waiter.kNotSignaled sl]> (waiters_ nf)) nf in
  let epoch := expected_epoch (Waiter.epoch_ sl) in
  let state := state_ nf0 in
  '(nf1, pushed) ← CommitWait_loop fuel nf0 w epoch state;
  if (pushed : bool) then park nf1 w else Ok (nf1, [EvUnblocked w]).

(** A thread blocked in [cv_.wait] wakes up (notified or spuriously) and
    evaluates the loop condition again. *)
Definition CommitWait_resume (nf : Notifier) (w : nat)
  : result (Notifier * list event) := park nf w.

(** The [for (;;)] of [CancelWait]. *)
Fixpoint CancelWait_loop (fuel : nat) (nf : Notifier) (epoch state : Z)
  : result Notifier :=
  match fuel with
  | O => OutOfFuel
  | S fuel' =>
    if to_int64 (sub64 (Z.land state kEpochMask) epoch) <? 0 then
      CancelWait_loop fuel' nf epoch (state_ nf)
    else if 0 <? to_int64 (sub64 (Z.land state kEpochMask) epoch) then Ok nf
    else if Z.land state kWaiterMask =? 0 then AssertFailed
    else
      let new_state := add64 (sub64 state kWaiterInc) kEpochInc in
      let '(ok, nf1, state') := compare_exchange nf state new_state in
      if ok then Ok nf1 else CancelWait_loop fuel' nf1 epoch state'
  end.

(** [Notifier::CancelWait(Waiter *w)]. *)
Definition CancelWait (fuel : nat) (nf : Notifier) (w : nat) : result Notifier :=
  sl ← slot (waiters_ nf) w;
  CancelWait_loop fuel nf (expected_epoch (Waiter.epoch_ sl)) (state_ nf).

(** *** Notify *)

(** The variables of the signaling loop of [Notify]: [iter], the slots,
    and the signals given so far (oldest first). *)
Record walk_state : Type := mkWalk {
  iter : option nat;
  mem : list Waiter.t;
  log : list event
}.

(** One execution of the body of
    [for (auto iter = w; iter != nullptr; iter = loop_next)], entered with
    [iter = Some i].  The body reads [w->next_], the link of the node the
    loop started from. *)
Definition walk_body (w i : nat) (st : walk_state) : result walk_state :=
  hd ← slot (mem st) w;
  let loop_next := Waiter.next_ hd in
  it ← slot (mem st) i;
  let loop_state := Waiter.state_ it in
  Ok (mkWalk loop_next
             (<[i := Waiter.set_state Waiter.kSignaled it]> (mem st))
             (log st ++ [EvSignaled i loop_state])).

(** The state after [n] executions of the body (or at the exit of the
    loop, when that comes first). *)
Fixpoint walk_iter (n : nat) (w : nat) (st : walk_state) : result walk_state :=
  match n with
  | O => Ok st
  | S n' =>
    match iter st with
    | None => Ok st
    | Some i => st' ← walk_body w i st; walk_iter n' w st'
    end
  end.

(** The whole loop. *)
Fixpoint walk (fuel : nat) (w : nat) (st : walk_state) : result walk_state :=
  match iter st with
  | None => Ok st
  | Some i =>
    match fuel with
    | O => OutOfFuel
    | S fuel' => st' ← walk_body w i st; walk fuel' w st'
    end
  end.

(** The candidate new state of one round of [Notify]. *)
Definition Notify_new_state (nf : Notifier) (all : bool) (state : Z) : result Z :=
  let waiters := Z.shiftr (Z.land state kWaiterMask) kWaiterShift in
  if all then
    Ok (add64 (add64 (Z.land state kEpochMask) (mul64 kEpochInc waiters)) kStackMask)
  else if 0 <? waiters then
    Ok (sub64 (add64 state kEpochInc) kWaiterInc)
  else
    w ← slot (waiters_ nf) (Z.to_nat (Z.land state kStackMask));
    let next :=
      match Waiter.next_ w with
      | Some j => wrap64 (Z.of_nat j)
      | None => kStackMask
      end in
    Ok (add64 (Z.land state kEpochMask) next).

(** The [for (;;)] of [Notify], up to the signaling loop.  A successful
    exchange either returns at once ([None]) or enters the signaling loop
    at the popped head [w] with the slots as they are then; every path
    through that loop ends in [return], so it is run after this one. *)
Fixpoint Notify_loop (fuel : nat) (nf : Notifier) (all : bool) (state : Z)
  : result (Notifier * option (nat * walk_state)) :=
  match fuel with
  | O => OutOfFuel
  | S fuel' =>
    if (Z.land state kStackMask =? kStackMask) && (Z.land state kWaiterMask =? 0)
    then Ok (nf, None)
    else
      let waiters := Z.shiftr (Z.land state kWaiterMask) kWaiterShift in
      new_state ← Notify_new_state nf all state;
      let '(ok, nf1, state') := compare_exchange nf state new_state in
      if ok then
        if negb all && (0 <? waiters) then Ok (nf1, None)
        else if Z.land state kStackMask =? kStackMask then Ok (nf1, None)
        else
          let w := Z.to_nat (Z.land state kStackMask) in
          hd ← slot (waiters_ nf1) w;
          let slots :=
            if all then waiters_ nf1
            else <[w := Waiter.set_next None hd]> (waiters_ nf1) in
          Ok (nf1, Some (w, mkWalk (Some w) slots []))
      else Notify_loop fuel' nf1 all state'
  end.

(** [Notifier::Notify(bool all)]. *)
Definition Notify (fuel : nat) (nf : Notifier) (all : bool)
  : result (Notifier * list event) :=
  '(nf1, pending) ← Notify_loop fuel nf all (state_ nf);
  match pending with
  | None => Ok (nf1, [])
  | Some (w, st0) =>
    st ← walk fuel w st0;
    Ok (set_waiters (mem st) nf1, log st)
  end.

(** The signaling loop of [Notify(all)] after [n] executions of its body:
    [None] when the call returns without entering the loop. *)
Definition Notify_progress (n fuel : nat) (nf : Notifier) (all : bool)
  : result (option walk_state) :=
  '(nf1, pending) ← Notify_loop fuel nf all (state_ nf);
  match pending with
  | None => Ok None
  | Some (w, st0) => st ← walk_iter n w st0; Ok (Some st)
  end.

(** The [for (size_t i = 0; i < n; i++)] of [NotifyN], with [k] rounds
    left. *)
Fixpoint NotifyN_loop (fuel : nat) (nf : Notifier) (k : nat)
  : result (Notifier * list event) :=
  match k with
  | O => Ok (nf, [])
  | S k' =>
    '(nf1, ev1) ← Notify fuel nf false;
    '(nf2, ev2) ← NotifyN_loop fuel nf1 k';
    Ok (nf2, ev1 ++ ev2)
  end.

(** [Notifier::NotifyN(size_t n)]. *)
Definition NotifyN (fuel : nat) (nf : Notifier) (n : nat)
  : result (Notifier * list event) :=
  if (length (waiters_ nf) <=? n)%nat then Notify fuel nf true
  else NotifyN_loop fuel nf n.

(** ** Sequences of calls *)

Inductive op : Type :=
| OpPrepareWait (w : nat)
| OpCommitWait (w : nat)
| OpCancelWait (w : nat)
| OpResume (w : nat)
| OpNotify (all : bool)
| OpNotifyN (n : nat).

Definition exec (fuel : nat) (nf : Notifier) (o : op)
  : result (Notifier * list event) :=
  match o with
  | OpPrepareWait w => nf' ← PrepareWait nf w; Ok (nf', [])
  | OpCommitWait w => CommitWait fuel nf w
  | OpCancelWait w => nf' ← CancelWait fuel nf w; Ok (nf', [])
  | OpResume w => CommitWait_resume nf w
  | OpNotify all => Notify fuel nf all
  | OpNotifyN n => NotifyN fuel nf n
  end.

(** The calls of [ops] one after the other; the events are those of all
    the calls, in order. *)
Fixpoint run (fuel : nat) (nf : Notifier) (ops : list op)
  : result (Notifier * list event) :=
  match ops with
  | [] => Ok (nf, [])
  | o :: ops' =>
    '(nf1, ev1) ← exec fuel nf o;
    '(nf2, ev2) ← run fuel nf1 ops';
    Ok (nf2, ev1 ++ ev2)
  end.

(** [PrepareWait(w); CommitWait(w)] for each waiter of [ws], in order. *)
Definition park_ops (ws : list nat) : list op :=
  flat_map (fun w => [OpPrepareWait w; OpCommitWait w]) ws.

(** ** Vocabulary of the statements *)

(** The word with epoch [e], prepare-count [c] and stack head [h]. *)
Definition pack (e c h : Z) : Z := e * 2 ^ 32 + c * 2 ^ 16 + h.

Definition fields_ok (e c h : Z) : Prop :=
  0 <= e < 2 ^ 32 /\ 0 <= c < 2 ^ 16 /\ 0 <= h < 2 ^ 16.

(** The link [CommitWait] stores in [w->next_] for a stack head [h]. *)
Definition link_of (h : Z) : option nat :=
  if h =? kStackMask then None else Some (Z.to_nat h).

(** The stack-head field that stands for a link. *)
Definition head_field (l : option nat) : Z :=
  match l with
  | Some j => Z.of_nat j
  | None => kStackMask
  end.

(** The slots of [l] are linked in this order, each one blocked in
    [cv_.wait]. *)
Fixpoint chain (slots : list Waiter.t) (l : list nat) : Prop :=
  match l with
  | [] => True
  | i :: l' =>
    (exists sl, slots !! i = Some sl /\ Waiter.state_ sl = Waiter.kWaiting /\
                Waiter.next_ sl = head l') /\
    chain slots l'
  end.

(** Nobody is prepared and the park stack holds exactly [l], top first. *)
Record parked (nf : Notifier) (l : list nat) : Prop := mkParked {
  parked_word : exists e, 0 <= e < 2 ^ 32 /\ state_ nf = pack e 0 (head_field (head l));
  parked_cap : Z.of_nat (length (waiters_ nf)) < 65535;
  parked_chain : chain (waiters_ nf) l;
  parked_nodup : NoDup l
}.

(** Nobody is prepared and nobody is parked. *)
Definition idle (nf : Notifier) : Prop :=
  word64 (state_ nf) /\ count_of (state_ nf) = 0 /\
  stack_of (state_ nf) = kStackMask /\
  Z.of_nat (length (waiters_ nf)) < 65535.

(** The notifier that [Notifier_ctor N] builds. *)
Definition new_notifier (N : nat) : Notifier :=
  mkNotifier (replicate N Waiter.init)
    (Z.lor kStackMask (sub64 kEpochMask (mul64 (mul64 kEpochInc (Z.of_nat N)) 2))).

(** Capacity 2 after [PrepareWait(slot 0)]. *)
Definition demo_prepared : Notifier :=
  mkNotifier [Waiter.mk None (pack (2 ^ 32 - 5) 0 65535) Waiter.kNotSignaled; Waiter.init]
             (pack (2 ^ 32 - 5) 1 65535).

(** Capacity 2 after [PrepareWait(slot 0)] and [Notify(false)]. *)
Definition demo_notified : Notifier :=
  mkNotifier [Waiter.mk None (pack (2 ^ 32 - 5) 0 65535) Waiter.kNotSignaled; Waiter.init]
             (pack (2 ^ 32 - 4) 0 65535).

(** Every link points to a slot. *)
Definition links_ok (nf : Notifier) : Prop :=
  forall (i j : nat) (sl : Waiter.t),
    waiters_ nf !! i = Some sl -> Waiter.next_ sl = Some j ->
    (j < length (waiters_ nf))%nat.

(** The invariant of the data model: a 64-bit word, a capacity that
    leaves the sentinel free, a stack head that is the sentinel or a slot,
    links that point to slots. *)
Definition wf (nf : Notifier) : Prop :=
  word64 (state_ nf) /\
  Z.of_nat (length (waiters_ nf)) < 65535 /\
  (stack_of (state_ nf) = kStackMask \/
   stack_of (state_ nf) < Z.of_nat (length (waiters_ nf))) /\
  links_ok nf.

(** Capacity 2 with slot 0 parked. *)
Definition demo_parked : Notifier :=
  mkNotifier [Waiter.mk None (pack (2 ^ 32 - 5) 0 65535) Waiter.kWaiting; Waiter.init]
             (pack (2 ^ 32 - 4) 0 0).

(** The snapshot in slot [x] makes its waiter expect the epoch [ep]. *)
Definition expects (nf : Notifier) (x : nat) (ep : Z) : Prop :=
  exists sl, waiters_ nf !! x = Some sl /\
             expected_epoch (Waiter.epoch_ sl) = ep * 2 ^ 32.

(** The waiters [xs] are announced by [PrepareWait] and not yet resolved,
    oldest first: the prepare-count is their number, and the [j]-th of
    them expects the epoch that [j] resolutions lead to. *)
Definition announced (nf : Notifier) (xs : list nat) : Prop :=
  wf nf /\
  count_of (state_ nf) = Z.of_nat (length xs) /\
  forall (j x : nat), xs !! j = Some x ->
    expects nf x ((epoch_of (state_ nf) + Z.of_nat j) mod 2 ^ 32).

(** The announced waiters end their waits in the order of their
    announcements, by [CommitWait] where the flag is set and by
    [CancelWait] where it is not. *)
Definition resolve (xs : list nat) (commit : list bool) : list op :=
  zip_with (fun x (k : bool) => if k then OpCommitWait x else OpCancelWait x)
           xs commit.

(** Two notifiers of one capacity agree on every slot's link and signal
    state. *)
Definition same_slots (a b : Notifier) : Prop :=
  length (waiters_ a) = length (waiters_ b) /\
  forall j : nat,
    Waiter.next_ <$> waiters_ a !! j = Waiter.next_ <$> waiters_ b !! j /\
    Waiter.state_ <$> waiters_ a !! j = Waiter.state_ <$> waiters_ b !! j.

(** NotifyN as the specification words it: with [n] at or above the
    capacity it is Notify(true), and below the capacity it is Notify(false)
    called exactly [n] times. *)
Definition NotifyN_spec (fuel : nat) (nf : Notifier) (n : nat)
  : result (Notifier * list event) :=
  if (n <? length (waiters_ nf))%nat
  then run fuel nf (replicate n (OpNotify false))
  else Notify fuel nf true.

(** Capacity 2 with slot 0 and then slot 1 parked. *)
Definition demo_two_parked : Notifier :=
  mkNotifier [Waiter.mk None (pack (2 ^ 32 - 5) 0 65535) Waiter.kWaiting;
              Waiter.mk (Some 0%nat) (pack (2 ^ 32 - 4) 0 0) Waiter.kWaiting]
             (pack (2 ^ 32 - 3) 0 1).

(** Capacity 4 with slots 0, 1, 2 parked in this order and slot 3
    prepared. *)
Definition demo_mixed : Notifier :=
  mkNotifier [Waiter.mk None (pack (2 ^ 32 - 9) 0 65535) Waiter.kWaiting;
              Waiter.mk (Some 0%nat) (pack (2 ^ 32 - 8) 0 0) Waiter.kWaiting;
              Waiter.mk (Some 1%nat) (pack (2 ^ 32 - 7) 0 1) Waiter.kWaiting;
              Waiter.mk None (pack (2 ^ 32 - 6) 0 2) Waiter.kNotSignaled]
             (pack (2 ^ 32 - 6) 1 2).

(** Capacity 3 with slots 0, 1, 2 parked in this order. *)
Definition demo_three_parked : Notifier :=
  mkNotifier [Waiter.mk None (pack (2 ^ 32 - 7) 0 65535) Waiter.kWaiting;
              Waiter.mk (Some 0%nat) (pack (2 ^ 32 - 6) 0 0) Waiter.kWaiting;
              Waiter.mk (Some 1%nat) (pack (2 ^ 32 - 5) 0 1) Waiter.kWaiting]
             (pack (2 ^ 32 - 4) 0 2).

(** One full sleep of slot [w]: announce, park, be notified, wake up. *)
Definition wake_cycle (c : nat * bool) : list op :=
  [OpPrepareWait (fst c); OpCommitWait (fst c); OpNotify (snd c); OpResume (fst c)].

(** What a caller observes of one full sleep. *)
Definition wake_events (c : nat * bool) : list event :=
  [EvParked (fst c); EvSignaled (fst c) Waiter.kWaiting; EvUnblocked (fst c)].

(** ** The example program, [examples/notifier.cpp] *)

(** The global [predicate], the notifier of [main], and the lines written
    to [std::cout] so far. *)
Record world : Type := mkWorld {
  predicate : bool;
  notifier : Notifier;
  cout : list string
}.

Definition print (line : string) (wd : world) : world :=
  mkWorld (predicate wd) (notifier wd) (cout wd ++ [line]).

Definition print_if (b : bool) (line : string) (wd : world) : world :=
  if b then print line wd else wd.

Definition with_notifier (nf : Notifier) (wd : world) : world :=
  mkWorld (predicate wd) nf (cout wd).

(** Whether a [CommitWait], or a wake-up inside it, left the thread
    blocked. *)
Definition blocked (ev : list event) : bool :=
  match ev with
  | [EvParked _] => true
  | _ => false
  end.

(** [ThreadFunc1] from the return of [CommitWait] to its end. *)
Definition ThreadFunc1_rest (wd : world) : world :=
  print "ThreadFunc1-9" (print_if (predicate wd) "ThreadFunc1-8" wd).

(** [ThreadFunc1] up to its end or to the point where it blocks in
    [CommitWait]; the flag tells which.  [predicate] is read where the
    source reads it; a null [w] is dereferenced by [PrepareWait]. *)
Definition ThreadFunc1 (fuel : nat) (wd : world) : result (world * bool) :=
  let wd := print_if (predicate wd) "ThreadFunc1-1" wd in
  let wd := print "ThreadFunc1-2" wd in
  let w := GetWaiter (notifier wd) 0 in
  let wd := print "ThreadFunc1-3" wd in
  w ← match w with Some w => Ok w | None => Undefined end;
  nf ← PrepareWait (notifier wd) w;
  let wd := print "ThreadFunc1-4" (with_notifier nf wd) in
  wd ← (if predicate wd then
          let wd := print "ThreadFunc1-5" wd in
          nf ← CancelWait fuel (notifier wd) w;
          Ok (print "ThreadFunc1-6" (with_notifier nf wd))
        else Ok wd);
  let wd := print "ThreadFunc1-7" wd in
  '(nf, ev) ← CommitWait fuel (notifier wd) w;
  let wd := with_notifier nf wd in
  if blocked ev then Ok (wd, true) else Ok (ThreadFunc1_rest wd, false).

(** [ThreadFunc1], blocked in [CommitWait] on slot 0, wakes up. *)
Definition ThreadFunc1_wake (wd : world) : result (world * bool) :=
  '(nf, ev) ← CommitWait_resume (notifier wd) 0;
  let wd := with_notifier nf wd in
  if blocked ev then Ok (wd, true) else Ok (ThreadFunc1_rest wd, false).

(** [ThreadFunc2] between its two sleeps. *)
Definition ThreadFunc2 (fuel : nat) (wd : world) : result world :=
  let wd := mkWorld true (notifier wd) (cout wd) in
  let wd := print "ThreadFunc2-1" wd in
  '(nf, _) ← Notify fuel (notifier wd) true;
  Ok (with_notifier nf wd).

(** [ThreadFunc2] after its second sleep. *)
Definition ThreadFunc2_rest (wd : world) : world := print "ThreadFunc2-2" wd.

(** [main] in the schedule its sleeps of five seconds produce: [t1] runs
    until it blocks, [t2] notifies, [t1] wakes up and ends, [t2] ends, and
    the notifier is destroyed.  A [t1] still blocked means that
    [t1.join()] does not return. *)
Definition main_schedule (can_hold : nat -> bool) (fuel : nat)
  : result (list string) :=
  nf ← Notifier_ctor can_hold 2;
  '(wd, waiting) ← ThreadFunc1 fuel (mkWorld false nf []);
  wd ← ThreadFunc2 fuel wd;
  '(wd, waiting) ← (if (waiting : bool) then ThreadFunc1_wake wd else Ok (wd, false));
  let wd := ThreadFunc2_rest wd in
  if (waiting : bool) then OutOfFuel
  else _ ← Notifier_dtor (notifier wd); Ok (cout wd).

(** ** Proof automation *)

Ltac literals :=
  change (2 ^ 16) with 65536 in *;
  change (2 ^ 32) with 4294967296 in *;
  change (2 ^ 48) with 281474976710656 in *;
  change (2 ^ 63) with 9223372036854775808 in *;
  change (2 ^ 64) with 18446744073709551616 in *.

Ltac divmod := literals; Z.div_mod_to_equations; lia.

Ltac nodup_nat :=
  repeat (apply NoDup_cons; split;
          [rewrite ?elem_of_cons, elem_of_nil; lia |]);
  apply NoDup_nil_2.

Ltac below_length :=
  let w := fresh "w" in
  let Hw := fresh "Hw" in
  intros w Hw; cbn [new_notifier waiters_ replicate length];
  repeat (apply elem_of_cons in Hw as [-> | Hw]; [lia |]);
  now apply elem_of_nil in Hw.

Ltac closed_word := unfold word64; split; [now vm_compute | now vm_compute].

Ltac closed_wf :=
  unfold wf; split; [closed_word |]; split; [now vm_compute |];
  split; [first [left; reflexivity | right; now vm_compute] |];
  let i := fresh "i" in
  let j := fresh "j" in
  let sl := fresh "sl" in
  let Hi := fresh "Hi" in
  let Hn := fresh "Hn" in
  intros i j sl Hi Hn;
  repeat (destruct i as [| i];
          [cbn in Hi; injection Hi as <-; cbn in Hn;
           first [discriminate Hn | injection Hn as <-; cbn; lia] |]);
  cbn in Hi; discriminate Hi.

Ltac world_simpl :=
  unfold ThreadFunc1_rest, ThreadFunc2_rest, print_if, print, with_notifier;
  cbn [predicate notifier cout].

(** * Properties *)

(** ** The state word codec *)

Section Codec.

Lemma masks_values :
  kStackMask = 65535 /\ kWaiterMask = 4294901760 /\
  kEpochMask = 18446744069414584320 /\
  kWaiterInc = 65536 /\ kEpochInc = 4294967296 /\
  not64 kStackMask = 18446744073709486080.
Proof. repeat split; reflexivity. Qed.

(** Masking with [b] ones placed at bit [a] selects a bit field. *)
Lemma land_field (s a b : Z) :
  0 <= a -> 0 <= b ->
  Z.land s (Z.shiftl (Z.ones b) a) = (s / 2 ^ a) mod 2 ^ b * 2 ^ a.
Proof.
  intros Ha Hb.
  rewrite <- Z.shiftl_mul_pow2, <- Z.land_ones, <- Z.shiftr_div_pow2 by lia.
  apply Z.bits_inj'; intros n Hn.
  rewrite Z.land_spec, !Z.shiftl_spec by lia.
  destruct (Z.ltb_spec n a) as [Hlt | Hge].
  - rewrite !(Z.testbit_neg_r _ (n - a)) by lia. apply andb_false_r.
  - rewrite Z.land_spec, Z.shiftr_spec by lia.
    now replace (n - a + a) with n by lia.
Qed.

Lemma land_stack (s : Z) : Z.land s kStackMask = s mod 2 ^ 16.
Proof. change kStackMask with (Z.ones 16). apply Z.land_ones. lia. Qed.

Lemma land_waiter (s : Z) :
  Z.land s kWaiterMask = (s / 2 ^ 16) mod 2 ^ 16 * 2 ^ 16.
Proof.
  change kWaiterMask with (Z.shiftl (Z.ones 16) 16). apply land_field; lia.
Qed.

Lemma land_epoch (s : Z) :
  Z.land s kEpochMask = (s / 2 ^ 32) mod 2 ^ 32 * 2 ^ 32.
Proof.
  change kEpochMask with (Z.shiftl (Z.ones 32) 32). apply land_field; lia.
Qed.

Lemma land_not_stack (s : Z) :
  Z.land s (not64 kStackMask) = (s / 2 ^ 16) mod 2 ^ 48 * 2 ^ 16.
Proof.
  change (not64 kStackMask) with (Z.shiftl (Z.ones 48) 16).
  apply land_field; lia.
Qed.

Lemma land_stack_waiter (s : Z) :
  Z.land s (Z.lor kStackMask kWaiterMask) = s mod 2 ^ 32.
Proof.
  change (Z.lor kStackMask kWaiterMask) with (Z.ones 32).
  apply Z.land_ones. lia.
Qed.

Lemma stack_of_mod (s : Z) : stack_of s = s mod 2 ^ 16.
Proof. apply land_stack. Qed.

Lemma count_of_mod (s : Z) : count_of s = (s / 2 ^ 16) mod 2 ^ 16.
Proof.
  unfold count_of. rewrite land_waiter.
  change kWaiterShift with 16.
  rewrite Z.shiftr_div_pow2 by lia. apply Z.div_mul. lia.
Qed.

Lemma epoch_of_mod (s : Z) : epoch_of s = (s / 2 ^ 32) mod 2 ^ 32.
Proof.
  unfold epoch_of. rewrite land_epoch.
  change kEpochShift with 32.
  rewrite Z.shiftr_div_pow2 by lia. apply Z.div_mul. lia.
Qed.

(** A field shifted clear of the low 16 bits and an index below [2^16]
    do not overlap: their [lor] is their sum. *)
Lemma lor_high_low (x i : Z) :
  0 <= i < 2 ^ 16 -> Z.lor (x * 2 ^ 16) i = x * 2 ^ 16 + i.
Proof.
  intros Hi.
  assert (Hdisj : Z.land (x * 2 ^ 16) i = 0).
  { apply Z.bits_inj'; intros n Hn.
    rewrite Z.land_spec, Z.bits_0, <- Z.shiftl_mul_pow2 by lia.
    destruct (Z.ltb_spec n 16).
    - rewrite Z.shiftl_spec_low by lia. reflexivity.
    - rewrite (Z.bits_above_log2 i n), andb_false_r; [reflexivity | lia |].
      destruct (Z.eq_dec i 0) as [-> | Hne]; [simpl; lia |].
      assert (Z.log2 i < 16) by (apply Z.log2_lt_pow2; lia). lia. }
  rewrite <- Z.lxor_lor by exact Hdisj.
  symmetry. apply Z.add_nocarry_lxor. exact Hdisj.
Qed.

End Codec.

Section Fields.

Lemma fields_range (s : Z) :
  word64 s -> fields_ok (epoch_of s) (count_of s) (stack_of s).
Proof.
  unfold word64, fields_ok. intros Hs.
  rewrite epoch_of_mod, count_of_mod, stack_of_mod. divmod.
Qed.

Lemma unpack (s : Z) :
  word64 s -> s = pack (epoch_of s) (count_of s) (stack_of s).
Proof.
  unfold word64, pack. intros Hs.
  rewrite epoch_of_mod, count_of_mod, stack_of_mod. divmod.
Qed.

Lemma pack_word (e c h : Z) : fields_ok e c h -> word64 (pack e c h).
Proof. unfold fields_ok, word64, pack. literals. lia. Qed.

Lemma stack_of_pack (e c h : Z) : fields_ok e c h -> stack_of (pack e c h) = h.
Proof. unfold fields_ok, pack. rewrite stack_of_mod. intros. divmod. Qed.

Lemma count_of_pack (e c h : Z) : fields_ok e c h -> count_of (pack e c h) = c.
Proof. unfold fields_ok, pack. rewrite count_of_mod. intros. divmod. Qed.

Lemma epoch_of_pack (e c h : Z) : fields_ok e c h -> epoch_of (pack e c h) = e.
Proof. unfold fields_ok, pack. rewrite epoch_of_mod. intros. divmod. Qed.

End Fields.

(** ** Arithmetic of the transitions on a packed word *)

Section Transitions.
Variables e c h : Z.
Hypothesis Hf : fields_ok e c h.

Lemma land_epoch_pack : Z.land (pack e c h) kEpochMask = e * 2 ^ 32.
Proof using Hf.
  rewrite land_epoch. unfold fields_ok, pack in *. divmod.
Qed.

Lemma land_waiter_pack : Z.land (pack e c h) kWaiterMask = c * 2 ^ 16.
Proof using Hf.
  rewrite land_waiter. unfold fields_ok, pack in *. divmod.
Qed.

Lemma land_stack_pack : Z.land (pack e c h) kStackMask = h.
Proof using Hf. apply (stack_of_pack e c h Hf). Qed.

Lemma waiters_pack :
  Z.shiftr (Z.land (pack e c h) kWaiterMask) kWaiterShift = c.
Proof using Hf. apply (count_of_pack e c h Hf). Qed.

(** [fetch_add(kWaiterInc)] *)
Lemma prepare_pack :
  c + 1 < 2 ^ 16 -> add64 (pack e c h) kWaiterInc = pack e (c + 1) h.
Proof using Hf.
  intros Hc. unfold add64, wrap64. change kWaiterInc with (2 ^ 16).
  unfold fields_ok, pack in *. rewrite Z.mod_small; literals; lia.
Qed.

(** [state - kWaiterInc + kEpochInc] *)
Lemma resolve_pack :
  1 <= c ->
  add64 (sub64 (pack e c h) kWaiterInc) kEpochInc
  = pack ((e + 1) mod 2 ^ 32) (c - 1) h.
Proof using Hf.
  intros Hc. unfold add64, sub64, wrap64.
  change kWaiterInc with (2 ^ 16). change kEpochInc with (2 ^ 32).
  unfold fields_ok, pack in *.
  rewrite (Z.mod_small (_ - _)) by (literals; lia). divmod.
Qed.

(** [state + kEpochInc - kWaiterInc] *)
Lemma notify_one_pack :
  1 <= c ->
  sub64 (add64 (pack e c h) kEpochInc) kWaiterInc
  = pack ((e + 1) mod 2 ^ 32) (c - 1) h.
Proof using Hf.
  intros Hc. unfold add64, sub64, wrap64.
  change kWaiterInc with (2 ^ 16). change kEpochInc with (2 ^ 32).
  unfold fields_ok, pack in *. divmod.
Qed.

(** [(state & kEpochMask) + kEpochInc * waiters + kStackMask] *)
Lemma notify_all_pack :
  add64 (add64 (Z.land (pack e c h) kEpochMask) (mul64 kEpochInc c)) kStackMask
  = pack ((e + c) mod 2 ^ 32) 0 (2 ^ 16 - 1).
Proof using Hf.
  rewrite land_epoch_pack. unfold add64, mul64, wrap64.
  change kStackMask with (2 ^ 16 - 1). change kEpochInc with (2 ^ 32).
  unfold fields_ok, pack in *.
  rewrite (Z.mod_small (2 ^ 32 * c)) by (literals; lia). divmod.
Qed.

(** [(state & kEpochMask) + next] *)
Lemma notify_pop_pack (next : Z) :
  0 <= next < 2 ^ 16 ->
  add64 (Z.land (pack e c h) kEpochMask) next = pack e 0 next.
Proof using Hf.
  intros Hn. rewrite land_epoch_pack. unfold add64, wrap64.
  unfold fields_ok, pack in *. rewrite Z.mod_small; literals; lia.
Qed.

(** [(new_state & ~kStackMask) | (w - &waiters_[0])] *)
Lemma push_pack (i : Z) :
  0 <= i < 2 ^ 16 ->
  Z.lor (Z.land (pack e c h) (not64 kStackMask)) (wrap64 i) = pack e c i.
Proof using Hf.
  intros Hi. unfold wrap64. rewrite (Z.mod_small i) by (literals; lia).
  rewrite land_not_stack, lor_high_low by exact Hi.
  unfold fields_ok, pack in *. divmod.
Qed.

Lemma expected_epoch_pack :
  expected_epoch (pack e c h) = (e + c) mod 2 ^ 32 * 2 ^ 32.
Proof using Hf.
  unfold expected_epoch. rewrite waiters_pack, land_epoch_pack.
  unfold add64, shl64, wrap64. change kEpochShift with 32.
  rewrite Z.shiftl_mul_pow2 by lia.
  unfold fields_ok in *.
  rewrite (Z.mod_small (c * 2 ^ 32)) by (literals; lia). divmod.
Qed.

End Transitions.

(** The signed difference of two epoch fields. *)
Lemma epoch_diff_next (e : Z) :
  0 <= e < 2 ^ 32 ->
  to_int64 (sub64 ((e + 1) mod 2 ^ 32 * 2 ^ 32) (e * 2 ^ 32)) = 2 ^ 32.
Proof.
  intros He. unfold to_int64, sub64, wrap64.
  destruct (Z.eq_dec e (2 ^ 32 - 1)) as [-> | Hne].
  - reflexivity.
  - rewrite (Z.mod_small (e + 1)) by (literals; lia).
    replace ((e + 1) * 2 ^ 32 - e * 2 ^ 32) with (2 ^ 32) by lia.
    reflexivity.
Qed.

Lemma epoch_diff_same (x : Z) : to_int64 (sub64 x x) = 0.
Proof. unfold sub64. rewrite Z.sub_diag. reflexivity. Qed.

(** Resolving [d] prepared waiters, [0 < d < 2^31], moves the epoch
    forward in the wrap-safe order. *)
Lemma epoch_diff_add (e d : Z) :
  0 <= e < 2 ^ 32 -> 0 <= d < 2 ^ 31 ->
  to_int64 (sub64 ((e + d) mod 2 ^ 32 * 2 ^ 32) (e * 2 ^ 32)) = d * 2 ^ 32.
Proof.
  intros He Hd. unfold to_int64, sub64, wrap64.
  assert (Hm : ((e + d) mod 2 ^ 32 * 2 ^ 32 - e * 2 ^ 32) mod 2 ^ 64 = d * 2 ^ 32).
  { change (2 ^ 31) with 2147483648 in *. divmod. }
  rewrite Hm. destruct (Z.ltb_spec (d * 2 ^ 32) (2 ^ 63)); [reflexivity |].
  change (2 ^ 31) with 2147483648 in *. literals. lia.
Qed.

(** ** Construction and slot lookup *)

Lemma holds_up_to_to_nat (limit n : Z) :
  0 <= n -> holds_up_to limit (Z.to_nat n) = (n <=? limit).
Proof. intros Hn. unfold holds_up_to. rewrite Z2Nat.id by exact Hn. reflexivity. Qed.

Lemma Notifier_ctor_throws (can_hold : nat -> bool) (N : nat) :
  can_hold N = false -> Notifier_ctor can_hold N = Thrown.
Proof. intros Hc. unfold Notifier_ctor, vector_ctor. rewrite Hc. reflexivity. Qed.

Lemma Notifier_ctor_ok (can_hold : nat -> bool) (N : nat) :
  can_hold N = true ->
  Z.of_nat N <= 65534 ->
  Notifier_ctor can_hold N =
  Ok (mkNotifier (replicate N Waiter.init)
        (Z.lor kStackMask
           (sub64 kEpochMask (mul64 (mul64 kEpochInc (Z.of_nat N)) 2)))).
Proof.
  intros Hc HN. unfold Notifier_ctor, vector_ctor. rewrite Hc.
  unfold mbind, result_mbind, result_bind. cbv beta iota zeta. rewrite length_replicate.
  change (Z.shiftl 1 kWaiterBits - 1) with 65535.
  destruct (Z.ltb_spec (Z.of_nat N) 65535); [reflexivity | lia].
Qed.

Lemma Notifier_ctor_fail (can_hold : nat -> bool) (N : nat) :
  can_hold N = true ->
  65534 < Z.of_nat N -> Notifier_ctor can_hold N = AssertFailed.
Proof.
  intros Hc HN. unfold Notifier_ctor, vector_ctor. rewrite Hc.
  unfold mbind, result_mbind, result_bind. cbv beta iota zeta. rewrite length_replicate.
  change (Z.shiftl 1 kWaiterBits - 1) with 65535.
  destruct (Z.ltb_spec (Z.of_nat N) 65535); [lia | reflexivity].
Qed.

(** A constructor that returned was given a capacity the vector holds and
    the assertion accepts. *)
Lemma Notifier_ctor_inv (can_hold : nat -> bool) (N : nat) (nf : Notifier) :
  Notifier_ctor can_hold N = Ok nf ->
  can_hold N = true /\ Z.of_nat N <= 65534 /\
  nf = mkNotifier (replicate N Waiter.init)
         (Z.lor kStackMask
            (sub64 kEpochMask (mul64 (mul64 kEpochInc (Z.of_nat N)) 2))).
Proof.
  intros Hctor. destruct (can_hold N) eqn:Hc.
  - destruct (Z_le_gt_dec (Z.of_nat N) 65534) as [HN | HN].
    + rewrite (Notifier_ctor_ok _ _ Hc HN) in Hctor. injection Hctor as <-.
      repeat split; [exact HN].
    + rewrite (Notifier_ctor_fail _ _ Hc) in Hctor by lia. discriminate.
  - rewrite (Notifier_ctor_throws _ _ Hc) in Hctor. discriminate.
Qed.

(** The word a new notifier starts with: epoch [2^32 - 1 - 2N], nobody
    prepared, nobody parked. *)
Lemma Notifier_ctor_state (N : nat) :
  Z.of_nat N <= 65534 ->
  Z.lor kStackMask (sub64 kEpochMask (mul64 (mul64 kEpochInc (Z.of_nat N)) 2))
  = pack (2 ^ 32 - 1 - 2 * Z.of_nat N) 0 (2 ^ 16 - 1).
Proof.
  intros HN.
  assert (Hsub : sub64 kEpochMask (mul64 (mul64 kEpochInc (Z.of_nat N)) 2)
                 = (2 ^ 32 - 1 - 2 * Z.of_nat N) * 2 ^ 16 * 2 ^ 16).
  { unfold sub64, mul64, wrap64.
    change kEpochMask with ((2 ^ 32 - 1) * 2 ^ 32). change kEpochInc with (2 ^ 32).
    rewrite (Z.mod_small (2 ^ 32 * Z.of_nat N)) by (literals; lia).
    rewrite (Z.mod_small (2 ^ 32 * Z.of_nat N * 2)) by (literals; lia).
    rewrite Z.mod_small; literals; lia. }
  rewrite Hsub, Z.lor_comm. change kStackMask with (2 ^ 16 - 1).
  rewrite lor_high_low by (literals; lia). unfold pack. literals. lia.
Qed.

(** C10, as the claim states it: every capacity above 65534 fails the
    assertion.  Refuted: the member initialiser [waiters_(N)] runs before
    the assertion, and for N = 2^63 even a vector that holds every size up
    to PTRDIFF_MAX = 2^63 - 1, the most any implementation's [max_size()]
    allows on a 64-bit machine, throws; the assertion is never evaluated. *)
Lemma Notifier_ctor_throws_first :
  65534 < Z.of_nat (Z.to_nat (2 ^ 63)) /\
  Notifier_ctor (holds_up_to (2 ^ 63 - 1)) (Z.to_nat (2 ^ 63)) = Thrown /\
  Notifier_ctor (holds_up_to (2 ^ 63 - 1)) (Z.to_nat (2 ^ 63)) <> AssertFailed.
Proof.
  assert (Hthrown : Notifier_ctor (holds_up_to (2 ^ 63 - 1)) (Z.to_nat (2 ^ 63))
                    = Thrown).
  { apply Notifier_ctor_throws. rewrite holds_up_to_to_nat by (literals; lia).
    reflexivity. }
  split; [rewrite Z2Nat.id; literals; lia |].
  split; [exact Hthrown | rewrite Hthrown; discriminate].
Qed.

(** C10, amended: construction first builds the vector of N slots and ends
    with its exception when the vector cannot hold them; when the vector is
    built, the capacity assertion passes exactly for N <= 65534 (65535, the
    all-ones index, is the empty-stack sentinel) and fails for every larger
    N; on a constructed notifier GetWaiter(idx) returns the slot idx for
    idx < N and nullptr for idx >= N. *)
Theorem Notifier_ctor_capacity (can_hold : nat -> bool) (N : nat) :
  (can_hold N = false -> Notifier_ctor can_hold N = Thrown) /\
  (can_hold N = true ->
   (Z.of_nat N <= 65534 ->
    exists nf, Notifier_ctor can_hold N = Ok nf /\ length (waiters_ nf) = N /\
      forall idx : nat,
        ((idx < N)%nat ->
         GetWaiter nf idx = Some idx /\ waiters_ nf !! idx = Some Waiter.init) /\
        ((N <= idx)%nat ->
         GetWaiter nf idx = None /\ waiters_ nf !! idx = None)) /\
   (65534 < Z.of_nat N -> Notifier_ctor can_hold N = AssertFailed)).
Proof.
  split; [apply Notifier_ctor_throws |]. intros Hc.
  split; [intros HN | apply Notifier_ctor_fail, Hc].
  eexists. split; [apply Notifier_ctor_ok; [exact Hc | exact HN] |]. cbn [waiters_].
  split; [apply length_replicate |].
  intros idx. unfold GetWaiter. cbn [waiters_]. rewrite length_replicate.
  split; intros Hidx.
  - destruct (Nat.ltb_spec idx N); [| lia].
    split; [reflexivity |]. apply lookup_replicate_2. exact Hidx.
  - destruct (Nat.ltb_spec idx N); [lia |].
    split; [reflexivity |]. apply lookup_replicate_None. exact Hidx.
Qed.

Lemma Notifier_ctor_capacity_witness :
  Notifier_ctor (holds_up_to (2 ^ 63 - 1)) (Z.to_nat (2 ^ 63)) = Thrown /\
  (exists nf, Notifier_ctor (holds_up_to (2 ^ 63 - 1)) 2 = Ok nf /\
     length (waiters_ nf) = 2%nat /\
     forall idx : nat,
       ((idx < 2)%nat ->
        GetWaiter nf idx = Some idx /\ waiters_ nf !! idx = Some Waiter.init) /\
       ((2 <= idx)%nat ->
        GetWaiter nf idx = None /\ waiters_ nf !! idx = None)) /\
  Notifier_ctor (holds_up_to (2 ^ 63 - 1)) (Z.to_nat 65535) = AssertFailed.
Proof.
  split; [| split].
  - apply (proj1 (Notifier_ctor_capacity (holds_up_to (2 ^ 63 - 1))
                    (Z.to_nat (2 ^ 63)))).
    rewrite holds_up_to_to_nat by (literals; lia). reflexivity.
  - apply (proj1 (proj2 (Notifier_ctor_capacity (holds_up_to (2 ^ 63 - 1)) 2)
                    eq_refl)).
    lia.
  - apply (proj2 (proj2 (Notifier_ctor_capacity (holds_up_to (2 ^ 63 - 1))
                           (Z.to_nat 65535))
                    ltac:(rewrite holds_up_to_to_nat by lia; reflexivity))).
    lia.
Defined.

(** ** Single calls on a packed state word *)

Lemma slot_lookup (l : list Waiter.t) (i : nat) (sl : Waiter.t) :
  l !! i = Some sl -> slot l i = Ok sl.
Proof. unfold slot. now intros ->. Qed.

Lemma bind_Ok {A B : Type} (a : A) (f : A -> result B) : (Ok a ≫= f) = f a.
Proof. reflexivity. Qed.

Lemma compare_exchange_hit (nf : Notifier) (expected desired : Z) :
  state_ nf = expected ->
  compare_exchange nf expected desired
  = (true, set_state_word desired nf, expected).
Proof. intros <-. unfold compare_exchange. now rewrite Z.eqb_refl. Qed.

Section Rounds.
Variable nf : Notifier.
Variables e c h : Z.
Hypothesis Hf : fields_ok e c h.
Hypothesis Hst : state_ nf = pack e c h.

Lemma PrepareWait_pack (w : nat) (sl : Waiter.t) :
  waiters_ nf !! w = Some sl -> c + 1 < 2 ^ 16 ->
  PrepareWait nf w
  = Ok (mkNotifier (<[w := Waiter.set_epoch (pack e c h) sl]> (waiters_ nf))
                   (pack e (c + 1) h)).
Proof using Hf Hst.
  intros Hw Hc. unfold PrepareWait. cbn [set_state_word waiters_ state_ set_waiters].
  rewrite (slot_lookup _ _ _ Hw), bind_Ok, Hst, prepare_pack by assumption.
  reflexivity.
Qed.

Lemma CommitWait_loop_return (fuel : nat) (w : nat) (epoch : Z) :
  0 < to_int64 (sub64 (e * 2 ^ 32) epoch) ->
  CommitWait_loop (S fuel) nf w epoch (state_ nf) = Ok (nf, false).
Proof using Hf Hst.
  intros Hgt. cbn [CommitWait_loop]. rewrite Hst, land_epoch_pack by assumption.
  destruct (Z.ltb_spec (to_int64 (sub64 (e * 2 ^ 32) epoch)) 0); [lia |].
  destruct (Z.ltb_spec 0 (to_int64 (sub64 (e * 2 ^ 32) epoch))); [reflexivity | lia].
Qed.

Lemma CommitWait_loop_push (fuel : nat) (w : nat) (sl : Waiter.t) :
  waiters_ nf !! w = Some sl -> Z.of_nat w < 2 ^ 16 -> 1 <= c ->
  (h = kStackMask \/ (Z.to_nat h < length (waiters_ nf))%nat) ->
  CommitWait_loop (S fuel) nf w (e * 2 ^ 32) (state_ nf)
  = Ok (mkNotifier (<[w := Waiter.set_next (link_of h) sl]> (waiters_ nf))
                   (pack ((e + 1) mod 2 ^ 32) (c - 1) (Z.of_nat w)), true).
Proof using Hf Hst.
  intros Hw Hidx Hc Hh. cbn [CommitWait_loop].
  rewrite Hst, land_epoch_pack, land_waiter_pack, land_stack_pack by assumption.
  rewrite epoch_diff_same. cbn [Z.ltb Z.compare].
  destruct (Z.eqb_spec (c * 2 ^ 16) 0) as [Hz | _]; [lia |].
  rewrite (slot_lookup _ _ _ Hw), bind_Ok.
  rewrite resolve_pack by assumption.
  assert (Hf' : fields_ok ((e + 1) mod 2 ^ 32) (c - 1) h).
  { unfold fields_ok in *. divmod. }
  rewrite push_pack by (try assumption; lia).
  unfold link_of.
  destruct (Z.eqb_spec h kStackMask) as [Hm | Hm].
  - rewrite bind_Ok, compare_exchange_hit by exact Hst. reflexivity.
  - destruct Hh as [Hh | Hh]; [contradiction |].
    destruct (lookup_lt_is_Some_2 _ _ Hh) as [top Htop].
    rewrite (slot_lookup _ _ _ Htop), !bind_Ok.
    rewrite compare_exchange_hit by exact Hst. reflexivity.
Qed.

End Rounds.

Section Calls.
Variable nf : Notifier.
Variables e c h : Z.
Hypothesis Hf : fields_ok e c h.
Hypothesis Hst : state_ nf = pack e c h.

Lemma CommitWait_returns (fuel : nat) (w : nat) (sl : Waiter.t) :
  waiters_ nf !! w = Some sl ->
  0 < to_int64 (sub64 (e * 2 ^ 32) (expected_epoch (Waiter.epoch_ sl))) ->
  CommitWait (S fuel) nf w
  = Ok (set_waiters (<[w := Waiter.set_state Waiter.kNotSignaled sl]> (waiters_ nf)) nf,
        [EvUnblocked w]).
Proof using Hf Hst.
  intros Hw Hgt. unfold CommitWait.
  rewrite (slot_lookup _ _ _ Hw), bind_Ok. cbv zeta.
  set (nf0 := set_waiters _ nf).
  change (state_ nf0) with (state_ nf).
  cbn [CommitWait_loop]. rewrite Hst, land_epoch_pack by assumption.
  destruct (Z.ltb_spec (to_int64 (sub64 (e * 2 ^ 32) (expected_epoch (Waiter.epoch_ sl)))) 0);
    [lia |].
  destruct (Z.ltb_spec 0 (to_int64 (sub64 (e * 2 ^ 32) (expected_epoch (Waiter.epoch_ sl)))));
    [reflexivity | lia].
Qed.

Lemma CommitWait_parks (fuel : nat) (w : nat) (sl : Waiter.t) :
  waiters_ nf !! w = Some sl -> Z.of_nat w < 2 ^ 16 -> 1 <= c ->
  (h = kStackMask \/ (Z.to_nat h < length (waiters_ nf))%nat) ->
  expected_epoch (Waiter.epoch_ sl) = e * 2 ^ 32 ->
  CommitWait (S fuel) nf w
  = Ok (mkNotifier
          (<[w := Waiter.mk (link_of h) (Waiter.epoch_ sl) Waiter.kWaiting]> (waiters_ nf))
          (pack ((e + 1) mod 2 ^ 32) (c - 1) (Z.of_nat w)),
        [EvParked w]).
Proof using Hf Hst.
  intros Hw Hidx Hc Hh Hexp. unfold CommitWait.
  rewrite (slot_lookup _ _ _ Hw), bind_Ok. cbv zeta.
  set (nf0 := set_waiters _ nf).
  assert (Hlt : (w < length (waiters_ nf))%nat) by (eapply lookup_lt_Some, Hw).
  change (Waiter.epoch_ sl) with (Waiter.epoch_ (Waiter.set_state Waiter.kNotSignaled sl)) at 1.
  cbn [Waiter.epoch_ Waiter.set_state]. rewrite Hexp.
  rewrite (CommitWait_loop_push nf0 e c h Hf Hst fuel w
             (Waiter.set_state Waiter.kNotSignaled sl)).
  - rewrite bind_Ok. unfold park. cbn [waiters_ nf0 set_waiters].
    rewrite list_insert_insert_eq.
    rewrite (slot_lookup _ w (Waiter.set_next (link_of h) (Waiter.set_state Waiter.kNotSignaled sl)))
      by (apply list_lookup_insert_eq; exact Hlt).
    rewrite bind_Ok. cbn [Waiter.state_ Waiter.set_next Waiter.set_state Waiter.signal_eqb].
    rewrite list_insert_insert_eq. reflexivity.
  - cbn [waiters_ nf0 set_waiters]. apply list_lookup_insert_eq. exact Hlt.
  - exact Hidx.
  - exact Hc.
  - cbn [waiters_ nf0 set_waiters]. rewrite length_insert. exact Hh.
Qed.

Lemma CancelWait_loop_resolve (fuel : nat) :
  1 <= c ->
  CancelWait_loop (S fuel) nf (e * 2 ^ 32) (state_ nf)
  = Ok (set_state_word (pack ((e + 1) mod 2 ^ 32) (c - 1) h) nf).
Proof using Hf Hst.
  intros Hc. cbn [CancelWait_loop].
  rewrite compare_exchange_hit by reflexivity.
  rewrite Hst, land_epoch_pack, land_waiter_pack by assumption.
  rewrite epoch_diff_same. cbn [Z.ltb Z.compare].
  destruct (Z.eqb_spec (c * 2 ^ 16) 0) as [Hz | _]; [lia |].
  rewrite resolve_pack by assumption. reflexivity.
Qed.

Lemma CancelWait_loop_return (fuel : nat) (epoch : Z) :
  0 < to_int64 (sub64 (e * 2 ^ 32) epoch) ->
  CancelWait_loop (S fuel) nf epoch (state_ nf) = Ok nf.
Proof using Hf Hst.
  intros Hgt. cbn [CancelWait_loop]. rewrite Hst, land_epoch_pack by assumption.
  destruct (Z.ltb_spec (to_int64 (sub64 (e * 2 ^ 32) epoch)) 0); [lia |].
  destruct (Z.ltb_spec 0 (to_int64 (sub64 (e * 2 ^ 32) epoch))); [reflexivity | lia].
Qed.

(** While the epoch is behind the expected one and nobody else touches
    the word, the loop keeps yielding. *)
Lemma CancelWait_loop_spins (fuel : nat) (epoch : Z) :
  to_int64 (sub64 (e * 2 ^ 32) epoch) < 0 ->
  CancelWait_loop fuel nf epoch (state_ nf) = OutOfFuel.
Proof using Hf Hst.
  intros Hlt. induction fuel as [| fuel IH]; [reflexivity |].
  cbn [CancelWait_loop]. rewrite Hst at 1. rewrite land_epoch_pack by assumption.
  destruct (Z.ltb_spec (to_int64 (sub64 (e * 2 ^ 32) epoch)) 0); [exact IH | lia].
Qed.

Lemma CommitWait_loop_spins (fuel : nat) (w : nat) (epoch : Z) :
  to_int64 (sub64 (e * 2 ^ 32) epoch) < 0 ->
  CommitWait_loop fuel nf w epoch (state_ nf) = OutOfFuel.
Proof using Hf Hst.
  intros Hlt. induction fuel as [| fuel IH]; [reflexivity |].
  cbn [CommitWait_loop]. rewrite Hst at 1. rewrite land_epoch_pack by assumption.
  destruct (Z.ltb_spec (to_int64 (sub64 (e * 2 ^ 32) epoch)) 0); [exact IH | lia].
Qed.

End Calls.

Section NotifyCalls.
Variable nf : Notifier.
Variables e c h : Z.
Hypothesis Hf : fields_ok e c h.
Hypothesis Hst : state_ nf = pack e c h.

Lemma Notify_loop_idle (fuel : nat) (all : bool) :
  c = 0 -> h = kStackMask ->
  Notify_loop (S fuel) nf all (state_ nf) = Ok (nf, None).
Proof using Hf Hst.
  intros Hc Hh. cbn [Notify_loop].
  rewrite Hst, land_stack_pack, land_waiter_pack by assumption.
  subst c h. reflexivity.
Qed.

Lemma Notify_idle (fuel : nat) (all : bool) :
  c = 0 -> h = kStackMask -> Notify (S fuel) nf all = Ok (nf, []).
Proof using Hf Hst.
  intros Hc Hh. unfold Notify. rewrite Notify_loop_idle by assumption. reflexivity.
Qed.

(** [Notify(false)] with somebody prepared: the cheap path. *)
Lemma Notify_false_prepared (fuel : nat) :
  1 <= c ->
  Notify (S fuel) nf false
  = Ok (set_state_word (pack ((e + 1) mod 2 ^ 32) (c - 1) h) nf, []).
Proof using Hf Hst.
  intros Hc. unfold Notify. cbn [Notify_loop]. unfold Notify_new_state.
  rewrite Hst, waiters_pack, land_stack_pack, land_waiter_pack by assumption.
  destruct (Z.eqb_spec (c * 2 ^ 16) 0) as [Hz | _]; [lia |].
  rewrite andb_false_r.
  destruct (Z.ltb_spec 0 c) as [_ | Hz]; [| lia].
  rewrite notify_one_pack, bind_Ok by assumption.
  rewrite compare_exchange_hit by exact Hst. reflexivity.
Qed.

(** The exchange of [Notify(true)]. *)
Lemma Notify_loop_all (fuel : nat) :
  ~ (c = 0 /\ h = kStackMask) ->
  (h = kStackMask \/ (Z.to_nat h < length (waiters_ nf))%nat) ->
  Notify_loop (S fuel) nf true (state_ nf)
  = Ok (set_state_word (pack ((e + c) mod 2 ^ 32) 0 (2 ^ 16 - 1)) nf,
        match link_of h with
        | None => None
        | Some w => Some (w, mkWalk (Some w) (waiters_ nf) [])
        end).
Proof using Hf Hst.
  intros Hbusy Hh. cbn [Notify_loop]. unfold Notify_new_state.
  rewrite Hst, waiters_pack, notify_all_pack, land_stack_pack, land_waiter_pack
    by assumption.
  assert (Hcond : (h =? kStackMask) && (c * 2 ^ 16 =? 0) = false).
  { destruct (Z.eqb_spec h kStackMask); [| reflexivity].
    destruct (Z.eqb_spec (c * 2 ^ 16) 0); [| reflexivity]. exfalso. apply Hbusy. lia. }
  rewrite Hcond, bind_Ok.
  rewrite compare_exchange_hit by exact Hst.
  cbn [negb andb].
  unfold link_of. destruct (Z.eqb_spec h kStackMask) as [Hm | Hm]; [reflexivity |].
  destruct Hh as [Hh | Hh]; [contradiction |].
  cbn [waiters_ set_state_word].
  destruct (lookup_lt_is_Some_2 _ _ Hh) as [hd Hhd].
  rewrite (slot_lookup _ _ _ Hhd), bind_Ok. reflexivity.
Qed.

(** The exchange of [Notify(false)] with nobody prepared: the top of the
    stack is popped and its link cleared. *)
Lemma Notify_loop_pop (fuel : nat) (hd : Waiter.t) :
  c = 0 -> h <> kStackMask ->
  waiters_ nf !! Z.to_nat h = Some hd ->
  0 <= head_field (Waiter.next_ hd) < 2 ^ 16 ->
  Notify_loop (S fuel) nf false (state_ nf)
  = Ok (set_state_word (pack e 0 (head_field (Waiter.next_ hd))) nf,
        Some (Z.to_nat h,
              mkWalk (Some (Z.to_nat h))
                     (<[Z.to_nat h := Waiter.set_next None hd]> (waiters_ nf)) [])).
Proof using Hf Hst.
  intros Hc Hm Hhd Hnext. cbn [Notify_loop]. unfold Notify_new_state.
  rewrite Hst, waiters_pack, land_stack_pack, land_epoch_pack by assumption.
  destruct (Z.eqb_spec h kStackMask) as [| _]; [contradiction |].
  cbn [andb].
  destruct (Z.ltb_spec 0 c) as [Hz | _]; [lia |].
  rewrite (slot_lookup _ _ _ Hhd), bind_Ok.
  assert (Hn : (match Waiter.next_ hd with
                | Some j => wrap64 (Z.of_nat j)
                | None => kStackMask
                end) = head_field (Waiter.next_ hd)).
  { unfold head_field in *. destruct (Waiter.next_ hd); [| reflexivity].
    unfold wrap64. apply Z.mod_small. literals. lia. }
  rewrite Hn, bind_Ok. rewrite <- (land_epoch_pack e c h Hf).
  rewrite notify_pop_pack by assumption.
  rewrite compare_exchange_hit by exact Hst.
  cbn [negb andb waiters_ set_state_word].
  rewrite (slot_lookup _ _ _ Hhd), bind_Ok. reflexivity.
Qed.

End NotifyCalls.

(** ** The signaling loop *)

(** A head whose link is null: one round, then the loop ends. *)
Lemma walk_single (fuel : nat) (w : nat) (slots : list Waiter.t)
    (evs : list event) (hd : Waiter.t) :
  slots !! w = Some hd -> Waiter.next_ hd = None ->
  walk (S fuel) w (mkWalk (Some w) slots evs)
  = Ok (mkWalk None (<[w := Waiter.set_state Waiter.kSignaled hd]> slots)
               (evs ++ [EvSignaled w (Waiter.state_ hd)])).
Proof.
  intros Hw Hnext. cbn [walk iter]. unfold walk_body. cbn [mem log].
  rewrite (slot_lookup _ _ _ Hw), !bind_Ok, Hnext.
  destruct fuel; reflexivity.
Qed.

(** The body never writes a link, so [w->next_] is the same in every
    round. *)
Lemma walk_body_link (w i : nat) (st st' : walk_state) (hd : Waiter.t) :
  mem st !! w = Some hd ->
  walk_body w i st = Ok st' ->
  iter st' = Waiter.next_ hd /\
  length (mem st') = length (mem st) /\
  exists hd', mem st' !! w = Some hd' /\ Waiter.next_ hd' = Waiter.next_ hd.
Proof.
  intros Hw. unfold walk_body. rewrite (slot_lookup _ _ _ Hw), bind_Ok.
  unfold slot. destruct (mem st !! i) as [it |] eqn:Hi; [| discriminate].
  rewrite bind_Ok. intros [= <-]. cbn [iter mem].
  split; [reflexivity |]. split; [apply length_insert |].
  destruct (decide (i = w)) as [-> | Hne].
  - exists (Waiter.set_state Waiter.kSignaled it).
    split; [apply list_lookup_insert_eq; eapply lookup_lt_Some, Hi |].
    rewrite Hw in Hi. now injection Hi as ->.
  - exists hd. split; [| reflexivity]. now rewrite list_lookup_insert_ne.
Qed.

Lemma walk_body_defined (w i : nat) (st : walk_state) :
  (w < length (mem st))%nat -> (i < length (mem st))%nat ->
  exists st', walk_body w i st = Ok st'.
Proof.
  intros Hw Hi.
  destruct (lookup_lt_is_Some_2 _ _ Hw) as [hd Hhd].
  destruct (lookup_lt_is_Some_2 _ _ Hi) as [it Hit].
  unfold walk_body. rewrite (slot_lookup _ _ _ Hhd), bind_Ok.
  rewrite (slot_lookup _ _ _ Hit), bind_Ok. eauto.
Qed.

(** A head whose link is not null: [iter] is that link after every round,
    and the loop has no exit. *)
Lemma walk_diverges (fuel : nat) (w j : nat) :
  forall (st : walk_state) (i : nat) (hd : Waiter.t),
    iter st = Some i -> (i < length (mem st))%nat ->
    mem st !! w = Some hd -> Waiter.next_ hd = Some j ->
    (j < length (mem st))%nat ->
    walk fuel w st = OutOfFuel.
Proof.
  induction fuel as [| fuel IH]; intros st i hd Hit Hi Hw Hnext Hj.
  - destruct st as [it ? ?]. cbn in Hit. subst it. reflexivity.
  - destruct st as [it slots evs]. cbn in Hit. subst it. cbn [walk iter].
    destruct (walk_body_defined w i (mkWalk (Some i) slots evs)) as [st' Hst'];
      [eapply lookup_lt_Some, Hw | exact Hi |].
    rewrite Hst', bind_Ok.
    destruct (walk_body_link w i _ st' hd Hw Hst') as (Hit' & Hlen & hd' & Hw' & Hn').
    apply (IH st' j hd').
    + now rewrite Hit'.
    + now rewrite Hlen.
    + exact Hw'.
    + now rewrite Hn'.
    + now rewrite Hlen.
Qed.

Section NotifyPop.
Variable nf : Notifier.
Variables e c h : Z.
Hypothesis Hf : fields_ok e c h.
Hypothesis Hst : state_ nf = pack e c h.

(** [Notify(false)] with nobody prepared pops the top of the stack,
    signals it and nobody else. *)
Lemma Notify_pop (fuel : nat) (hd : Waiter.t) :
  c = 0 -> h <> kStackMask ->
  waiters_ nf !! Z.to_nat h = Some hd ->
  0 <= head_field (Waiter.next_ hd) < 2 ^ 16 ->
  Notify (S fuel) nf false
  = Ok (mkNotifier
          (<[Z.to_nat h := Waiter.mk None (Waiter.epoch_ hd) Waiter.kSignaled]>
             (waiters_ nf))
          (pack e 0 (head_field (Waiter.next_ hd))),
        [EvSignaled (Z.to_nat h) (Waiter.state_ hd)]).
Proof using Hf Hst.
  intros Hc Hm Hhd Hnext. unfold Notify.
  rewrite (Notify_loop_pop nf e c h Hf Hst fuel hd) by assumption.
  rewrite bind_Ok.
  rewrite (walk_single fuel _ _ _ (Waiter.set_next None hd)).
  - rewrite bind_Ok. cbn [mem log set_waiters set_state_word app waiters_ state_].
    rewrite list_insert_insert_eq. reflexivity.
  - apply list_lookup_insert_eq. eapply lookup_lt_Some, Hhd.
  - reflexivity.
Qed.

(** [Notify(true)] on a stack of two or more never returns. *)
Lemma Notify_all_diverges (fuel : nat) (hd : Waiter.t) (j : nat) :
  h <> kStackMask ->
  waiters_ nf !! Z.to_nat h = Some hd ->
  Waiter.next_ hd = Some j -> (j < length (waiters_ nf))%nat ->
  Notify fuel nf true = OutOfFuel.
Proof using Hf Hst.
  intros Hm Hhd Hnext Hj. destruct fuel as [| fuel]; [reflexivity |].
  unfold Notify. rewrite (Notify_loop_all nf e c h Hf Hst fuel).
  - rewrite bind_Ok. unfold link_of.
    destruct (Z.eqb_spec h kStackMask) as [| _]; [contradiction |].
    rewrite (walk_diverges (S fuel) (Z.to_nat h) j _ (Z.to_nat h) hd);
      [reflexivity | reflexivity | | exact Hhd | exact Hnext | exact Hj].
    eapply lookup_lt_Some, Hhd.
  - intros [_ Hh]. contradiction.
  - right. eapply lookup_lt_Some, Hhd.
Qed.

End NotifyPop.

(** ** The park stack *)

Lemma idle_parked (nf : Notifier) : idle nf -> parked nf [].
Proof.
  intros (Hw & Hc & Hs & Hcap). split; [| exact Hcap | exact I | constructor].
  exists (epoch_of (state_ nf)). pose proof (fields_range _ Hw) as (He & _ & _).
  split; [exact He |]. rewrite (unpack _ Hw) at 1. now rewrite Hc, Hs.
Qed.

Lemma parked_idle (nf : Notifier) : parked nf [] -> idle nf.
Proof.
  intros [(e & He & Hst) Hcap _ _]. cbn [head head_field] in Hst.
  assert (Hf : fields_ok e 0 kStackMask).
  { unfold fields_ok. change kStackMask with 65535. literals. lia. }
  unfold idle. rewrite Hst, count_of_pack, stack_of_pack by exact Hf.
  repeat split; try (apply pack_word, Hf); try exact Hcap.
Qed.

Lemma chain_frame (slots : list Waiter.t) (l : list nat) (i : nat) (x : Waiter.t) :
  i ∉ l -> chain slots l -> chain (<[i := x]> slots) l.
Proof.
  induction l as [| k l IH]; [easy |].
  intros Hni [(sl & Hk & Hs & Hn) Hl]. cbn [chain].
  apply not_elem_of_cons in Hni as [Hne Hni]. split; [| now apply IH].
  exists sl. now rewrite list_lookup_insert_ne.
Qed.

Lemma chain_bound (slots : list Waiter.t) (l : list nat) (i : nat) :
  chain slots l -> i ∈ l -> (i < length slots)%nat.
Proof.
  induction l as [| k l IH]; intros Hc Hi; [now apply elem_of_nil in Hi |].
  destruct Hc as [(sl & Hk & _) Hl].
  apply elem_of_cons in Hi as [-> | Hi]; [eapply lookup_lt_Some, Hk | now apply IH].
Qed.

Lemma chain_waiting (slots : list Waiter.t) (l : list nat) (i : nat) :
  chain slots l -> i ∈ l ->
  exists sl, slots !! i = Some sl /\ Waiter.state_ sl = Waiter.kWaiting.
Proof.
  induction l as [| k l IH]; intros Hc Hi; [now apply elem_of_nil in Hi |].
  destruct Hc as [(sl & Hk & Hs & _) Hl].
  apply elem_of_cons in Hi as [-> | Hi]; [eauto | now apply IH].
Qed.

(** The head field of a stack whose slots exist is a field value, and
    reads back as the same link. *)
Lemma head_field_range (slots : list Waiter.t) (l : list nat) :
  Z.of_nat (length slots) < 65535 -> chain slots l ->
  0 <= head_field (head l) < 2 ^ 16 /\
  link_of (head_field (head l)) = head l /\
  (head_field (head l) = kStackMask \/
   (Z.to_nat (head_field (head l)) < length slots)%nat).
Proof.
  intros Hcap Hc. destruct l as [| k l]; cbn [head head_field].
  - change kStackMask with 65535. literals. repeat split; lia.
  - assert (Hk : (k < length slots)%nat) by (eapply chain_bound; [exact Hc | left]).
    unfold link_of. change kStackMask with 65535.
    destruct (Z.eqb_spec (Z.of_nat k) 65535); [lia |].
    rewrite Nat2Z.id. literals. repeat split; lia.
Qed.

Lemma run_app (fuel : nat) (ops1 ops2 : list op) :
  forall nf : Notifier,
    run fuel nf (ops1 ++ ops2)
    = '(nf1, ev1) ← run fuel nf ops1;
      '(nf2, ev2) ← run fuel nf1 ops2;
      Ok (nf2, ev1 ++ ev2).
Proof.
  induction ops1 as [| o ops1 IH]; intros nf; cbn [run app].
  - rewrite bind_Ok. destruct (run fuel nf ops2) as [[nf2 ev2] | | | |]; reflexivity.
  - destruct (exec fuel nf o) as [[nf1 ev1] | | | |]; try reflexivity.
    rewrite !bind_Ok, IH.
    destruct (run fuel nf1 ops1) as [[nf2 ev2] | | | |]; try reflexivity.
    rewrite !bind_Ok.
    destruct (run fuel nf2 ops2) as [[nf3 ev3] | | | |]; try reflexivity.
    rewrite !bind_Ok. now rewrite app_assoc.
Qed.

(** ** Parking and popping one waiter *)

Lemma run_cons (fuel : nat) (nf : Notifier) (o : op) (ops : list op) :
  run fuel nf (o :: ops)
  = '(nf1, ev1) ← exec fuel nf o;
    '(nf2, ev2) ← run fuel nf1 ops;
    Ok (nf2, ev1 ++ ev2).
Proof. reflexivity. Qed.

(** [PrepareWait(w); CommitWait(w)] on a notifier where nobody is
    prepared pushes [w] and blocks it. *)
Lemma park_one (fuel : nat) (nf : Notifier) (l : list nat) (w : nat) :
  parked nf l -> w ∉ l -> (w < length (waiters_ nf))%nat ->
  exists nf',
    run (S fuel) nf [OpPrepareWait w; OpCommitWait w] = Ok (nf', [EvParked w]) /\
    parked nf' (w :: l) /\
    length (waiters_ nf') = length (waiters_ nf) /\
    forall j, j <> w -> waiters_ nf' !! j = waiters_ nf !! j.
Proof.
  intros [(e & He & Hst) Hcap Hch Hnd] Hni Hw.
  destruct (head_field_range _ _ Hcap Hch) as (Hh & Hlink & Hvalid).
  set (h := head_field (head l)) in *.
  assert (Hf : fields_ok e 0 h) by (unfold fields_ok; literals; lia).
  assert (Hf1 : fields_ok e (0 + 1) h) by (unfold fields_ok; literals; lia).
  destruct (lookup_lt_is_Some_2 _ _ Hw) as [sl Hsl].
  rewrite !run_cons. cbn [exec run].
  rewrite (PrepareWait_pack nf e 0 h Hf Hst w sl Hsl) by (literals; lia).
  rewrite !bind_Ok.
  set (nf1 := mkNotifier _ _).
  assert (Hsl1 : waiters_ nf1 !! w = Some (Waiter.set_epoch (pack e 0 h) sl)).
  { cbn [nf1 waiters_]. now apply list_lookup_insert_eq. }
  rewrite (CommitWait_parks nf1 e (0 + 1) h Hf1 eq_refl fuel w _ Hsl1).
  - rewrite !bind_Ok. cbn [app Waiter.epoch_ Waiter.set_epoch nf1 waiters_].
    rewrite list_insert_insert_eq, Hlink.
    replace ((e + 1) mod 2 ^ 32) with (if e + 1 <? 2 ^ 32 then e + 1 else 0)
      by (destruct (Z.ltb_spec (e + 1) (2 ^ 32)); divmod).
    eexists. split; [reflexivity |]. cbn [waiters_].
    split; [| split; [apply length_insert | intros j Hj; now apply list_lookup_insert_ne]].
    split.
    + eexists. cbn [state_ head head_field]. split; [| reflexivity].
      destruct (Z.ltb_spec (e + 1) (2 ^ 32)); lia.
    + cbn [waiters_]. now rewrite length_insert.
    + cbn [chain waiters_]. split; [| now apply chain_frame].
      eexists. split; [now apply list_lookup_insert_eq |]. now split.
    + now constructor.
  - lia.
  - lia.
  - cbn [nf1 waiters_]. rewrite length_insert. exact Hvalid.
  - cbn [Waiter.epoch_ Waiter.set_epoch]. rewrite expected_epoch_pack by exact Hf.
    rewrite Z.add_0_r, Z.mod_small by lia. reflexivity.
Qed.

(** [Notify(false)] on a notifier where nobody is prepared pops the top
    of the stack and signals it; every other slot is left as it is. *)
Lemma notify_one (fuel : nat) (nf : Notifier) (l : list nat) (w : nat) :
  parked nf (w :: l) ->
  exists nf' sl,
    Notify (S fuel) nf false = Ok (nf', [EvSignaled w Waiter.kWaiting]) /\
    parked nf' l /\
    waiters_ nf' !! w = Some sl /\ Waiter.state_ sl = Waiter.kSignaled /\
    forall j, j <> w -> waiters_ nf' !! j = waiters_ nf !! j.
Proof.
  intros [(e & He & Hst) Hcap Hch Hnd]. cbn [head head_field] in Hst.
  destruct Hch as [(hd & Hhd & Hwait & Hnext) Hch].
  assert (Hw : (w < length (waiters_ nf))%nat) by (eapply lookup_lt_Some, Hhd).
  assert (Hf : fields_ok e 0 (Z.of_nat w)) by (unfold fields_ok; literals; lia).
  destruct (head_field_range _ _ Hcap Hch) as (Hh & _ & _).
  apply NoDup_cons in Hnd as [Hni Hnd].
  pose proof (Notify_pop nf e 0 (Z.of_nat w) Hf Hst fuel hd eq_refl) as Hpop.
  rewrite Nat2Z.id, Hnext, Hwait in Hpop.
  eexists _, _. split; [apply Hpop |].
  - change kStackMask with 65535. lia.
  - exact Hhd.
  - exact Hh.
  - cbn [waiters_ state_]. split; [| split; [now apply list_lookup_insert_eq |]].
    + split; cbn [waiters_ state_].
      * eauto.
      * now rewrite length_insert.
      * now apply chain_frame.
      * exact Hnd.
    + split; [reflexivity |]. intros j Hj. now apply list_lookup_insert_ne.
Qed.

(** ** Sequences of parks and of single notifications *)

Lemma park_all (fuel : nat) (ws : list nat) :
  forall (nf : Notifier) (l : list nat),
    parked nf l -> NoDup ws ->
    (forall w, w ∈ ws -> (w ∉ l) /\ (w < length (waiters_ nf))%nat) ->
    exists nf',
      run (S fuel) nf (park_ops ws) = Ok (nf', (EvParked <$> ws)) /\
      parked nf' (reverse ws ++ l) /\
      length (waiters_ nf') = length (waiters_ nf).
Proof.
  induction ws as [| w ws IH]; intros nf l Hp Hnd Hws.
  - exists nf. now rewrite reverse_nil.
  - apply NoDup_cons in Hnd as [Hni Hnd].
    destruct (Hws w) as [Hwl Hwlt]; [left |].
    destruct (park_one fuel nf l w Hp Hwl Hwlt) as (nf1 & Hrun1 & Hp1 & Hlen1 & _).
    destruct (IH nf1 (w :: l) Hp1 Hnd) as (nf2 & Hrun2 & Hp2 & Hlen2).
    { intros v Hv. destruct (Hws v) as [Hvl Hvlt]; [now right |].
      split; [| now rewrite Hlen1].
      apply not_elem_of_cons. split; [| exact Hvl]. intros ->. contradiction. }
    exists nf2. split; [| split].
    + change (park_ops (w :: ws))
        with ([OpPrepareWait w; OpCommitWait w] ++ park_ops ws).
      rewrite run_app, Hrun1, bind_Ok. cbn beta iota. rewrite Hrun2. reflexivity.
    + rewrite reverse_cons, <- app_assoc. exact Hp2.
    + now rewrite Hlen2.
Qed.

Lemma notify_seq (fuel : nat) (j : nat) :
  forall (nf : Notifier) (l : list nat),
    parked nf l -> (j <= length l)%nat ->
    exists nf',
      run (S fuel) nf (replicate j (OpNotify false))
      = Ok (nf', ((fun w => EvSignaled w Waiter.kWaiting) <$> take j l)) /\
      parked nf' (drop j l) /\
      (forall w, w ∈ take j l ->
         exists sl, waiters_ nf' !! w = Some sl /\
                    Waiter.state_ sl = Waiter.kSignaled) /\
      (forall i, i ∉ take j l -> waiters_ nf' !! i = waiters_ nf !! i).
Proof.
  induction j as [| j IH]; intros nf l Hp Hj.
  - exists nf. cbn [replicate run take drop fmap list_fmap].
    split; [reflexivity |]. split; [exact Hp |]. split; [| reflexivity].
    intros w Hw. now apply elem_of_nil in Hw.
  - destruct l as [| w l]; [cbn in Hj; lia |]. cbn [length] in Hj.
    destruct (notify_one fuel nf l w Hp) as (nf1 & sl & Hrun1 & Hp1 & Hsl & Hsig & Hfr1).
    destruct (IH nf1 l Hp1) as (nf2 & Hrun2 & Hp2 & Hsig2 & Hfr2); [lia |].
    assert (Hni : w ∉ take j l).
    { destruct Hp as [_ _ _ Hnd]. apply NoDup_cons in Hnd as [Hni _].
      intros Hin. apply Hni. exact (subseteq_take j l w Hin). }
    exists nf2. cbn [replicate take drop]. rewrite run_cons. cbn [exec].
    rewrite Hrun1, bind_Ok. cbn beta iota. rewrite Hrun2.
    split; [reflexivity |]. split; [exact Hp2 |]. split.
    + intros v Hv. apply elem_of_cons in Hv as [-> | Hv].
      * exists sl. now rewrite Hfr2.
      * now apply Hsig2.
    + intros i Hi. apply not_elem_of_cons in Hi as [Hne Hi].
      now rewrite Hfr2, Hfr1.
Qed.

(** A blocked waiter that wakes up finds out whether it was signaled. *)
Lemma resume_signaled (nf : Notifier) (w : nat) (sl : Waiter.t) :
  waiters_ nf !! w = Some sl -> Waiter.state_ sl = Waiter.kSignaled ->
  CommitWait_resume nf w = Ok (nf, [EvUnblocked w]).
Proof.
  intros Hw Hs. unfold CommitWait_resume, park.
  rewrite (slot_lookup _ _ _ Hw), bind_Ok, Hs. reflexivity.
Qed.

Lemma resume_waiting (nf : Notifier) (w : nat) (sl : Waiter.t) :
  waiters_ nf !! w = Some sl -> Waiter.state_ sl = Waiter.kWaiting ->
  CommitWait_resume nf w = Ok (nf, [EvParked w]).
Proof.
  intros Hw Hs. unfold CommitWait_resume, park.
  rewrite (slot_lookup _ _ _ Hw), bind_Ok, Hs. cbn [Waiter.signal_eqb].
  assert (Hsame : Waiter.set_state Waiter.kWaiting sl = sl).
  { destruct sl as [n ep s]. cbn in Hs. subst s. reflexivity. }
  rewrite Hsame, list_insert_id by exact Hw. now destruct nf.
Qed.

(** * The claims *)

(** C6: with the waiters [ws] parked one after the other by
    PrepareWait/CommitWait on a notifier where nobody is prepared or
    parked, the first [j] of [length ws] successive Notify(false) calls
    signal exactly the [j] most recently parked waiters, one per call and
    latest first: those waiters were waiting and now leave CommitWait, the
    others stay blocked, and after all calls nobody is parked. *)
Theorem Notify_false_lifo (fuel : nat) (nf : Notifier) (ws : list nat) :
  idle nf -> NoDup ws ->
  (forall w, w ∈ ws -> (w < length (waiters_ nf))%nat) ->
  exists nf1,
    run (S fuel) nf (park_ops ws) = Ok (nf1, (EvParked <$> ws)) /\
    count_of (state_ nf1) = 0 /\
    (forall j, (j <= length ws)%nat ->
       exists nfj,
         run (S fuel) nf1 (replicate j (OpNotify false))
         = Ok (nfj, ((fun w => EvSignaled w Waiter.kWaiting) <$> take j (reverse ws))) /\
         (forall w, w ∈ take j (reverse ws) ->
            CommitWait_resume nfj w = Ok (nfj, [EvUnblocked w])) /\
         (forall w, w ∈ drop j (reverse ws) ->
            CommitWait_resume nfj w = Ok (nfj, [EvParked w])) /\
         (j = length ws -> idle nfj)).
Proof.
  intros Hidle Hnd Hws.
  destruct (park_all fuel ws nf [] (idle_parked nf Hidle) Hnd) as (nf1 & Hrun & Hp & Hlen).
  { intros w Hw. split; [apply not_elem_of_nil | now apply Hws]. }
  rewrite app_nil_r in Hp.
  exists nf1. split; [exact Hrun |]. split.
  { destruct Hp as [(e & He & Hst) Hcap Hch _]. rewrite Hst. apply count_of_pack.
    destruct (head_field_range _ _ Hcap Hch) as (Hh & _ & _).
    unfold fields_ok. literals. lia. }
  intros j Hj.
  destruct (notify_seq fuel j nf1 (reverse ws) Hp) as (nfj & Hrunj & Hpj & Hsig & _).
  { now rewrite length_reverse. }
  exists nfj. split; [exact Hrunj |]. split; [| split].
  - intros w Hw. destruct (Hsig w Hw) as (sl & Hsl & Hs).
    now apply (resume_signaled nfj w sl).
  - intros w Hw. destruct Hpj as [_ _ Hch _].
    destruct (chain_waiting _ _ w Hch Hw) as (sl & Hsl & Hs).
    now apply (resume_waiting nfj w sl).
  - intros ->. apply parked_idle.
    rewrite <- (length_reverse ws), drop_all in Hpj. exact Hpj.
Qed.

Lemma new_notifier_idle (N : nat) : Z.of_nat N <= 65534 -> idle (new_notifier N).
Proof.
  intros HN. unfold idle, new_notifier. cbn [state_ waiters_].
  rewrite Notifier_ctor_state, length_replicate by exact HN.
  assert (Hf : fields_ok (2 ^ 32 - 1 - 2 * Z.of_nat N) 0 (2 ^ 16 - 1)).
  { unfold fields_ok. literals. lia. }
  rewrite count_of_pack, stack_of_pack by exact Hf.
  split; [apply pack_word, Hf |]. repeat split. lia.
Qed.

Lemma Notify_false_lifo_witness :
  exists nf1,
    run 1 (new_notifier 3) (park_ops [0; 1; 2]%nat) = Ok (nf1, (EvParked <$> [0; 1; 2]%nat)) /\
    count_of (state_ nf1) = 0 /\
    (forall j, (j <= 3)%nat ->
       exists nfj,
         run 1 nf1 (replicate j (OpNotify false))
         = Ok (nfj, ((fun w => EvSignaled w Waiter.kWaiting) <$> take j [2; 1; 0]%nat)) /\
         (forall w, w ∈ take j [2; 1; 0]%nat ->
            CommitWait_resume nfj w = Ok (nfj, [EvUnblocked w])) /\
         (forall w, w ∈ drop j [2; 1; 0]%nat ->
            CommitWait_resume nfj w = Ok (nfj, [EvParked w])) /\
         (j = 3%nat -> idle nfj)).
Proof.
  apply (Notify_false_lifo 0 (new_notifier 3) [0; 1; 2]%nat).
  - apply new_notifier_idle. lia.
  - nodup_nat.
  - below_length.
Defined.

(** C9: the destructor's assertion fails exactly when the prepare-count
    field is nonzero or the stack-head field is not the all-ones sentinel;
    and after the waiters [ws] have parked by PrepareWait/CommitWait on an
    idle notifier and as many Notify(false) calls have resolved them, the
    assertion holds. *)
Theorem Notifier_dtor_spec (fuel : nat) (nf : Notifier) (ws : list nat) :
  (Notifier_dtor nf = AssertFailed <->
   count_of (state_ nf) <> 0 \/ stack_of (state_ nf) <> kStackMask) /\
  (Notifier_dtor nf = Ok tt <->
   count_of (state_ nf) = 0 /\ stack_of (state_ nf) = kStackMask) /\
  (idle nf -> NoDup ws ->
   (forall w, w ∈ ws -> (w < length (waiters_ nf))%nat) ->
   exists nf1 nf2 ev,
     run (S fuel) nf (park_ops ws) = Ok (nf1, (EvParked <$> ws)) /\
     run (S fuel) nf1 (replicate (length ws) (OpNotify false)) = Ok (nf2, ev) /\
     Notifier_dtor nf2 = Ok tt).
Proof.
  assert (Hdtor : forall n : Notifier,
             Notifier_dtor n = Ok tt <->
             count_of (state_ n) = 0 /\ stack_of (state_ n) = kStackMask).
  { intros n. unfold Notifier_dtor.
    rewrite land_stack_waiter, count_of_mod, stack_of_mod.
    change kStackMask with 65535.
    destruct (Z.eqb_spec (state_ n mod 2 ^ 32) 65535) as [Heq | Hne].
    - split; [intros _ | reflexivity]. divmod.
    - split; [discriminate |]. intros [H1 H2]. exfalso. apply Hne. divmod. }
  split; [| split; [apply Hdtor |]].
  - split.
    + intros Hfail.
      destruct (Z.eq_dec (count_of (state_ nf)) 0) as [Hc | Hc]; [| now left].
      destruct (Z.eq_dec (stack_of (state_ nf)) kStackMask) as [Hs | Hs]; [| now right].
      rewrite (proj2 (Hdtor nf)) in Hfail by easy. discriminate.
    + intros Hbusy. unfold Notifier_dtor.
      destruct (Z.eqb_spec (Z.land (state_ nf) (Z.lor kStackMask kWaiterMask)) kStackMask)
        as [Heq | Hne]; [| reflexivity].
      assert (Hok : Notifier_dtor nf = Ok tt).
      { unfold Notifier_dtor. now rewrite Heq, Z.eqb_refl. }
      apply Hdtor in Hok. destruct Hbusy; tauto.
  - intros Hidle Hnd Hws.
    destruct (park_all fuel ws nf [] (idle_parked nf Hidle) Hnd) as (nf1 & Hrun & Hp & _).
    { intros w Hw. split; [apply not_elem_of_nil | now apply Hws]. }
    rewrite app_nil_r in Hp.
    destruct (notify_seq fuel (length ws) nf1 (reverse ws) Hp) as (nf2 & Hrun2 & Hp2 & _).
    { now rewrite length_reverse. }
    rewrite <- (length_reverse ws), drop_all in Hp2 at 1.
    exists nf1, nf2. eexists. split; [exact Hrun |]. split; [exact Hrun2 |].
    apply Hdtor. apply parked_idle in Hp2. unfold idle in Hp2. tauto.
Qed.

Lemma Notifier_dtor_spec_witness :
  (Notifier_dtor (new_notifier 4) = Ok tt) /\
  exists nf1 nf2 ev,
    run 1 (new_notifier 4) (park_ops [0; 1; 2; 3]%nat)
    = Ok (nf1, (EvParked <$> [0; 1; 2; 3]%nat)) /\
    run 1 nf1 (replicate 4 (OpNotify false)) = Ok (nf2, ev) /\
    Notifier_dtor nf2 = Ok tt.
Proof.
  pose proof (Notifier_dtor_spec 0 (new_notifier 4) [0; 1; 2; 3]%nat) as (_ & Hok & Hseq).
  split.
  - apply Hok. split; reflexivity.
  - apply Hseq.
    + apply new_notifier_idle. lia.
    + nodup_nat.
    + below_length.
Defined.

(** C4: CommitWait computes the expected epoch from the snapshot as its
    epoch bits plus its prepare-count moved into epoch position, and
    compares it with the current epoch by the signed difference.  When the
    current epoch is after the expected one, the call returns in its first
    round without blocking and leaves the state word as it is.  When both
    are equal (and somebody is prepared, as the assertion demands), one
    exchange takes one off the prepare-count, adds one to the epoch, makes
    [w] the stack head and stores the previous head (or null for the
    empty marker) in [w]'s link; the call then blocks. *)
Theorem CommitWait_transition (fuel : nat) (nf : Notifier) (w : nat) (sl : Waiter.t) :
  word64 (state_ nf) -> word64 (Waiter.epoch_ sl) ->
  waiters_ nf !! w = Some sl ->
  Z.of_nat (length (waiters_ nf)) < 65535 ->
  (stack_of (state_ nf) = kStackMask \/
   stack_of (state_ nf) < Z.of_nat (length (waiters_ nf))) ->
  let snap := Waiter.epoch_ sl in
  let expected := expected_epoch snap in
  let current := Z.land (state_ nf) kEpochMask in
  expected = (epoch_of snap + count_of snap) mod 2 ^ 32 * 2 ^ 32 /\
  (0 < to_int64 (sub64 current expected) ->
   exists nf',
     CommitWait 1 nf w = Ok (nf', [EvUnblocked w]) /\ state_ nf' = state_ nf) /\
  (current = expected -> count_of (state_ nf) <> 0 ->
   exists nf',
     CommitWait (S fuel) nf w = Ok (nf', [EvParked w]) /\
     count_of (state_ nf') = count_of (state_ nf) - 1 /\
     epoch_of (state_ nf') = (epoch_of (state_ nf) + 1) mod 2 ^ 32 /\
     stack_of (state_ nf') = Z.of_nat w /\
     waiters_ nf' !! w
     = Some (Waiter.mk (link_of (stack_of (state_ nf))) snap Waiter.kWaiting) /\
     forall j, j <> w -> waiters_ nf' !! j = waiters_ nf !! j).
Proof.
  intros Hword Hsnap Hw Hcap Hstack snap expected current.
  pose proof (fields_range _ Hword) as Hf.
  pose proof (unpack _ Hword) as Hst.
  pose proof (fields_range _ Hsnap) as Hfs.
  assert (Hcur : current = epoch_of (state_ nf) * 2 ^ 32).
  { unfold current. rewrite Hst at 1. now apply land_epoch_pack. }
  assert (Hlt : (w < length (waiters_ nf))%nat) by (eapply lookup_lt_Some, Hw).
  split; [| split].
  - unfold expected, snap. rewrite (unpack _ Hsnap) at 1.
    now apply expected_epoch_pack.
  - intros Hgt. rewrite Hcur in Hgt. eexists. split.
    + apply (CommitWait_returns nf _ _ _ Hf Hst 0 w sl Hw Hgt).
    + reflexivity.
  - intros Heq Hc. rewrite Hcur in Heq.
    assert (Hc1 : 1 <= count_of (state_ nf)) by (unfold fields_ok in Hf; lia).
    eexists. split.
    + apply (CommitWait_parks nf _ _ _ Hf Hst fuel w sl Hw); [lia | exact Hc1 | | now symmetry].
      destruct Hstack as [Hs | Hs]; [now left | right].
      unfold fields_ok in Hf. lia.
    + cbn [state_ waiters_].
      assert (Hf' : fields_ok ((epoch_of (state_ nf) + 1) mod 2 ^ 32)
                              (count_of (state_ nf) - 1) (Z.of_nat w)).
      { unfold fields_ok in *. divmod. }
      rewrite count_of_pack, epoch_of_pack, stack_of_pack by exact Hf'.
      repeat split.
      * now apply list_lookup_insert_eq.
      * intros j Hj. now apply list_lookup_insert_ne.
Qed.

Lemma demo_prepared_reached :
  PrepareWait (new_notifier 2) 0 = Ok demo_prepared /\
  Notify 1 demo_prepared false = Ok (demo_notified, []).
Proof. split; reflexivity. Qed.

Lemma CommitWait_transition_witness :
  (exists nf',
     CommitWait 1 demo_notified 0 = Ok (nf', [EvUnblocked 0%nat]) /\
     state_ nf' = state_ demo_notified) /\
  (exists nf',
     CommitWait 1 demo_prepared 0 = Ok (nf', [EvParked 0%nat]) /\
     count_of (state_ nf') = count_of (state_ demo_prepared) - 1 /\
     epoch_of (state_ nf') = (epoch_of (state_ demo_prepared) + 1) mod 2 ^ 32 /\
     stack_of (state_ nf') = Z.of_nat 0 /\
     waiters_ nf' !! 0%nat
     = Some (Waiter.mk (link_of (stack_of (state_ demo_prepared)))
                       (pack (2 ^ 32 - 5) 0 65535) Waiter.kWaiting) /\
     forall j, j <> 0%nat -> waiters_ nf' !! j = waiters_ demo_prepared !! j).
Proof.
  split.
  - refine (proj1 (proj2 (CommitWait_transition 0 demo_notified 0
             (Waiter.mk None (pack (2 ^ 32 - 5) 0 65535) Waiter.kNotSignaled)
             _ _ _ _ _)) _).
    + closed_word.
    + closed_word.
    + reflexivity.
    + now vm_compute.
    + left. reflexivity.
    + now vm_compute.
  - refine (proj2 (proj2 (CommitWait_transition 0 demo_prepared 0
             (Waiter.mk None (pack (2 ^ 32 - 5) 0 65535) Waiter.kNotSignaled)
             _ _ _ _ _)) _ _).
    + closed_word.
    + closed_word.
    + reflexivity.
    + now vm_compute.
    + left. reflexivity.
    + reflexivity.
    + now vm_compute.
Defined.

Lemma epoch_after_pack (e c h d c' h' : Z) :
  fields_ok e c h -> fields_ok ((e + d) mod 2 ^ 32) c' h' -> 0 < d < 2 ^ 31 ->
  epoch_after (pack ((e + d) mod 2 ^ 32) c' h') (pack e c h).
Proof.
  intros Hf Hf' Hd. unfold epoch_after.
  rewrite !land_epoch_pack by assumption.
  rewrite epoch_diff_add by (unfold fields_ok in Hf; lia). lia.
Qed.

(** C3 does not hold for the pop: Notify(false) on one parked waiter
    signals it and leaves the epoch where it was. *)
Lemma Notify_pop_keeps_epoch :
  run 1 (new_notifier 2) (park_ops [0%nat]) = Ok (demo_parked, [EvParked 0%nat]) /\
  exists nf',
    Notify 1 demo_parked false = Ok (nf', [EvSignaled 0%nat Waiter.kWaiting]) /\
    epoch_of (state_ nf') = epoch_of (state_ demo_parked) /\
    ~ epoch_after (state_ nf') (state_ demo_parked).
Proof.
  split; [reflexivity |]. eexists. split; [reflexivity |].
  split; [reflexivity |]. now vm_compute.
Qed.

(** C3, as the code has it: the transitions that resolve a prepared waiter advance
    the epoch field, strictly in the wrap-safe order: the commit-to-park
    of CommitWait, the resolving transition of CancelWait and Notify(false)
    with a nonzero prepare-count by one, the exchange of Notify(true) by
    the prepare-count.  With a prepare-count of zero, the Notify(false)
    that pops a parked waiter and the exchange of Notify(true) leave the
    epoch field unchanged. *)
Theorem epoch_advance (fuel : nat) (nf : Notifier) (w : nat) (sl : Waiter.t) :
  wf nf -> waiters_ nf !! w = Some sl ->
  let s := state_ nf in
  (count_of s <> 0 ->
   (Z.land s kEpochMask = expected_epoch (Waiter.epoch_ sl) ->
    (exists nf',
       CommitWait (S fuel) nf w = Ok (nf', [EvParked w]) /\
       epoch_of (state_ nf') = (epoch_of s + 1) mod 2 ^ 32 /\
       epoch_after (state_ nf') s) /\
    (exists nf',
       CancelWait (S fuel) nf w = Ok nf' /\
       epoch_of (state_ nf') = (epoch_of s + 1) mod 2 ^ 32 /\
       epoch_after (state_ nf') s)) /\
   (exists nf',
      Notify (S fuel) nf false = Ok (nf', []) /\
      epoch_of (state_ nf') = (epoch_of s + 1) mod 2 ^ 32 /\
      epoch_after (state_ nf') s) /\
   (exists nf' pending,
      Notify_loop (S fuel) nf true s = Ok (nf', pending) /\
      epoch_of (state_ nf') = (epoch_of s + count_of s) mod 2 ^ 32 /\
      epoch_after (state_ nf') s)) /\
  (count_of s = 0 -> stack_of s <> kStackMask ->
   (exists nf' top prev,
      Notify (S fuel) nf false = Ok (nf', [EvSignaled top prev]) /\
      epoch_of (state_ nf') = epoch_of s) /\
   (exists nf' pending,
      Notify_loop (S fuel) nf true s = Ok (nf', pending) /\
      epoch_of (state_ nf') = epoch_of s)).
Proof.
  intros (Hword & Hcap & Hstack & Hlinks) Hw s. subst s.
  pose proof (fields_range _ Hword) as Hf.
  pose proof (unpack _ Hword) as Hst.
  set (e := epoch_of (state_ nf)) in *. set (c := count_of (state_ nf)) in *.
  set (h := stack_of (state_ nf)) in *.
  assert (Hvalid : h = kStackMask \/ (Z.to_nat h < length (waiters_ nf))%nat).
  { destruct Hstack as [Hs | Hs]; [now left | right]. unfold fields_ok in Hf. lia. }
  assert (Hrange : 0 <= e < 2 ^ 32 /\ 0 <= c < 2 ^ 16 /\ 0 <= h < 2 ^ 16) by exact Hf.
  assert (Hwlt : Z.of_nat w < 2 ^ 16).
  { pose proof (lookup_lt_Some _ _ _ Hw). literals. lia. }
  split.
  - intros Hc. assert (Hc1 : 1 <= c) by lia.
    assert (Hf1 : forall h', 0 <= h' < 2 ^ 16 -> fields_ok ((e + 1) mod 2 ^ 32) (c - 1) h').
    { intros h' Hh'. unfold fields_ok. divmod. }
    assert (Hone : 0 < 1 < 2 ^ 31) by (change (2 ^ 31) with 2147483648; lia).
    split; [| split].
    + intros Hexp. rewrite Hst in Hexp at 1. rewrite land_epoch_pack in Hexp by exact Hf.
      symmetry in Hexp. split.
      * eexists. split.
        { apply (CommitWait_parks nf e c h Hf Hst fuel w sl Hw); assumption. }
        cbn [state_]. rewrite epoch_of_pack by (apply Hf1; lia).
        split; [reflexivity |]. rewrite Hst.
        apply epoch_after_pack; [exact Hf | apply Hf1; lia | exact Hone].
      * eexists. split.
        { unfold CancelWait. rewrite (slot_lookup _ _ _ Hw), bind_Ok, Hexp.
          apply (CancelWait_loop_resolve nf e c h Hf Hst fuel Hc1). }
        cbn [state_ set_state_word]. rewrite epoch_of_pack by (apply Hf1; lia).
        split; [reflexivity |]. rewrite Hst.
        apply epoch_after_pack; [exact Hf | apply Hf1; lia | exact Hone].
    + eexists. split; [apply (Notify_false_prepared nf e c h Hf Hst fuel Hc1) |].
      cbn [state_ set_state_word]. rewrite epoch_of_pack by (apply Hf1; lia).
      split; [reflexivity |]. rewrite Hst.
      apply epoch_after_pack; [exact Hf | apply Hf1; lia | exact Hone].
    + assert (Hfa : fields_ok ((e + c) mod 2 ^ 32) 0 (2 ^ 16 - 1)).
      { unfold fields_ok. divmod. }
      eexists _, _. split.
      { apply (Notify_loop_all nf e c h Hf Hst fuel); [lia | exact Hvalid]. }
      cbn [state_ set_state_word]. rewrite epoch_of_pack by exact Hfa.
      split; [reflexivity |]. rewrite Hst.
      apply epoch_after_pack; [exact Hf | exact Hfa |].
      change (2 ^ 31) with 2147483648. literals. lia.
  - intros Hc Hh. destruct Hvalid as [Hs | Hs]; [contradiction |].
    destruct (lookup_lt_is_Some_2 _ _ Hs) as [hd Hhd].
    assert (Hnext : 0 <= head_field (Waiter.next_ hd) < 2 ^ 16).
    { destruct (Waiter.next_ hd) as [j |] eqn:Hj; cbn [head_field].
      - pose proof (Hlinks _ _ _ Hhd Hj). literals. lia.
      - change kStackMask with 65535. literals. lia. }
    split.
    + eexists _, _, _. split.
      { apply (Notify_pop nf e c h Hf Hst fuel hd Hc Hh Hhd Hnext). }
      cbn [state_]. apply epoch_of_pack. unfold fields_ok. lia.
    + eexists _, _. split.
      { apply (Notify_loop_all nf e c h Hf Hst fuel); [tauto | now right]. }
      cbn [state_ set_state_word]. rewrite Hc, Z.add_0_r, Z.mod_small by lia.
      apply epoch_of_pack. unfold fields_ok. literals. lia.
Qed.

Lemma epoch_advance_witness :
  ((exists nf',
      CommitWait 1 demo_prepared 0 = Ok (nf', [EvParked 0%nat]) /\
      epoch_of (state_ nf') = (epoch_of (state_ demo_prepared) + 1) mod 2 ^ 32 /\
      epoch_after (state_ nf') (state_ demo_prepared)) /\
   (exists nf',
      CancelWait 1 demo_prepared 0 = Ok nf' /\
      epoch_of (state_ nf') = (epoch_of (state_ demo_prepared) + 1) mod 2 ^ 32 /\
      epoch_after (state_ nf') (state_ demo_prepared))) /\
  (exists nf' top prev,
     Notify 1 demo_parked false = Ok (nf', [EvSignaled top prev]) /\
     epoch_of (state_ nf') = epoch_of (state_ demo_parked)).
Proof.
  split.
  - refine (proj1 (proj1 (epoch_advance 0 demo_prepared 0
             (Waiter.mk None (pack (2 ^ 32 - 5) 0 65535) Waiter.kNotSignaled) _ _) _) _).
    + closed_wf.
    + reflexivity.
    + now vm_compute.
    + reflexivity.
  - refine (proj1 (proj2 (epoch_advance 0 demo_parked 0
             (Waiter.mk None (pack (2 ^ 32 - 5) 0 65535) Waiter.kWaiting) _ _) _ _)).
    + closed_wf.
    + reflexivity.
    + reflexivity.
    + now vm_compute.
Defined.

Lemma NotifyN_loop_run (fuel : nat) (k : nat) :
  forall nf : Notifier,
    NotifyN_loop fuel nf k = run fuel nf (replicate k (OpNotify false)).
Proof.
  induction k as [| k IH]; intros nf; [reflexivity |].
  cbn [NotifyN_loop replicate]. rewrite run_cons. cbn [exec].
  destruct (Notify fuel nf false) as [[nf1 ev1] | | | |]; try reflexivity.
  rewrite !bind_Ok. cbn beta iota. now rewrite IH.
Qed.

(** C7: NotifyN(n) is Notify(true) when n is at least the capacity and n
    successive Notify(false) calls otherwise; NotifyN(0) changes nothing
    and signals nobody (a notifier of capacity zero has nobody prepared or
    parked). *)
Theorem NotifyN_refines (fuel : nat) (nf : Notifier) (n : nat) :
  NotifyN fuel nf n = NotifyN_spec fuel nf n /\
  ((length (waiters_ nf) <= n)%nat -> NotifyN fuel nf n = Notify fuel nf true) /\
  ((n < length (waiters_ nf))%nat ->
   NotifyN fuel nf n = run fuel nf (replicate n (OpNotify false))) /\
  ((length (waiters_ nf) = 0%nat ->
    count_of (state_ nf) = 0 /\ stack_of (state_ nf) = kStackMask) ->
   NotifyN (S fuel) nf 0 = Ok (nf, [])).
Proof.
  assert (Hge : (length (waiters_ nf) <= n)%nat -> NotifyN fuel nf n = Notify fuel nf true).
  { intros Hn. unfold NotifyN. destruct (Nat.leb_spec (length (waiters_ nf)) n); [reflexivity | lia]. }
  assert (Hlt : (n < length (waiters_ nf))%nat ->
                NotifyN fuel nf n = run fuel nf (replicate n (OpNotify false))).
  { intros Hn. unfold NotifyN.
    destruct (Nat.leb_spec (length (waiters_ nf)) n); [lia | apply NotifyN_loop_run]. }
  split; [| split; [exact Hge | split; [exact Hlt |]]].
  - unfold NotifyN_spec. destruct (Nat.ltb_spec n (length (waiters_ nf))); auto.
  - intros Hzero. unfold NotifyN.
    destruct (Nat.leb_spec (length (waiters_ nf)) 0) as [Hle | Hgt]; [| reflexivity].
    destruct Hzero as [Hc Hs]; [lia |].
    unfold Notify. cbn [Notify_loop].
    unfold stack_of in Hs. rewrite Hs, Z.eqb_refl.
    rewrite count_of_mod in Hc. rewrite land_waiter, Hc. reflexivity.
Qed.

Lemma NotifyN_refines_witness :
  NotifyN 1 demo_parked 2 = Notify 1 demo_parked true /\
  NotifyN 1 demo_parked 1 = run 1 demo_parked (replicate 1 (OpNotify false)) /\
  NotifyN 1 (new_notifier 0) 0 = Ok (new_notifier 0, []).
Proof.
  split; [| split].
  - apply (proj1 (proj2 (NotifyN_refines 1 demo_parked 2))). cbn. lia.
  - apply (proj1 (proj2 (proj2 (NotifyN_refines 1 demo_parked 1)))). cbn. lia.
  - apply (proj2 (proj2 (proj2 (NotifyN_refines 0 (new_notifier 0) 0)))).
    intros _. split; reflexivity.
Defined.

(** ** Notify(true) on a stack of two or more *)

Lemma walk_body_other (w i k : nat) (st st' : walk_state) :
  k <> i -> walk_body w i st = Ok st' -> mem st' !! k = mem st !! k.
Proof.
  intros Hne. unfold walk_body, slot.
  destruct (mem st !! w); [| discriminate]. rewrite bind_Ok.
  destruct (mem st !! i); [| discriminate]. rewrite bind_Ok.
  intros [= <-]. cbn [mem]. now apply list_lookup_insert_ne.
Qed.

(** The loop started at [w], whose link is [j], only ever visits [w] and
    [j]: any other slot [k] is never written, and [iter] is never null. *)
Lemma walk_iter_stuck (w j k : nat) (n : nat) :
  k <> w -> k <> j ->
  forall (st : walk_state) (i : nat) (hd : Waiter.t),
    iter st = Some i -> i = w \/ i = j ->
    mem st !! w = Some hd -> Waiter.next_ hd = Some j ->
    (j < length (mem st))%nat ->
    exists st',
      walk_iter n w st = Ok st' /\ iter st' <> None /\
      mem st' !! k = mem st !! k.
Proof.
  intros Hkw Hkj. induction n as [| n IH]; intros st i hd Hit Hi Hw Hnext Hj.
  - exists st. cbn [walk_iter]. rewrite Hit. easy.
  - cbn [walk_iter]. rewrite Hit.
    assert (Hilt : (i < length (mem st))%nat).
    { destruct Hi as [-> | ->]; [eapply lookup_lt_Some, Hw | exact Hj]. }
    destruct (walk_body_defined w i st) as [st1 Hst1];
      [eapply lookup_lt_Some, Hw | exact Hilt |].
    rewrite Hst1, bind_Ok.
    destruct (walk_body_link w i st st1 hd Hw Hst1) as (Hit1 & Hlen & hd1 & Hw1 & Hn1).
    destruct (IH st1 j hd1) as (st' & Hrun & Hnn & Hk).
    + now rewrite Hit1.
    + now right.
    + exact Hw1.
    + now rewrite Hn1.
    + now rewrite Hlen.
    + exists st'. split; [exact Hrun |]. split; [exact Hnn |].
      rewrite Hk. apply (walk_body_other w i k st st1); [| exact Hst1].
      destruct Hi as [-> | ->]; assumption.
Qed.

Lemma Notify_progress_all (nf : Notifier) (e c h : Z) (n fuel : nat) (hd : Waiter.t) :
  fields_ok e c h -> state_ nf = pack e c h -> h <> kStackMask ->
  waiters_ nf !! Z.to_nat h = Some hd ->
  Notify_progress n (S fuel) nf true
  = st ← walk_iter n (Z.to_nat h) (mkWalk (Some (Z.to_nat h)) (waiters_ nf) []);
    Ok (Some st).
Proof.
  intros Hf Hst Hh Hhd. unfold Notify_progress.
  rewrite (Notify_loop_all nf e c h Hf Hst fuel).
  - rewrite bind_Ok. unfold link_of.
    destruct (Z.eqb_spec h kStackMask) as [| _]; [contradiction | reflexivity].
  - tauto.
  - right. eapply lookup_lt_Some, Hhd.
Qed.

(** C2: Notify(true) on a park stack of two or more waiters does not
    terminate.  Its signaling loop reads the link of the head it started
    from in every round, so after the first round [iter] is the second
    waiter for ever. *)
Theorem Notify_all_never_returns (fuel n : nat) (nf : Notifier) (a b : nat) (l : list nat) :
  parked nf (a :: b :: l) ->
  Notify fuel nf true = OutOfFuel /\
  exists st,
    Notify_progress (S n) (S fuel) nf true = Ok (Some st) /\ iter st = Some b.
Proof.
  intros [(e & He & Hst) Hcap Hch Hnd]. cbn [head head_field] in Hst.
  destruct Hch as [(hd & Hhd & _ & Hnext) Hch]. cbn [head] in Hnext.
  assert (Hb : (b < length (waiters_ nf))%nat) by (eapply chain_bound; [exact Hch | left]).
  assert (Ha : (a < length (waiters_ nf))%nat) by (eapply lookup_lt_Some, Hhd).
  assert (Hf : fields_ok e 0 (Z.of_nat a)) by (unfold fields_ok; literals; lia).
  assert (Hhd' : waiters_ nf !! Z.to_nat (Z.of_nat a) = Some hd) by now rewrite Nat2Z.id.
  assert (Hne : Z.of_nat a <> kStackMask) by (change kStackMask with 65535; lia).
  split.
  - apply (Notify_all_diverges nf e 0 (Z.of_nat a) Hf Hst fuel hd b Hne Hhd' Hnext Hb).
  - rewrite (Notify_progress_all nf e 0 (Z.of_nat a) (S n) fuel hd Hf Hst Hne Hhd').
    rewrite Nat2Z.id. cbn [walk_iter iter].
    destruct (walk_body_defined a a (mkWalk (Some a) (waiters_ nf) [])) as [st1 Hst1];
      [exact Ha | exact Ha |].
    rewrite Hst1, bind_Ok.
    destruct (walk_body_link a a (mkWalk (Some a) (waiters_ nf) []) st1 hd Hhd Hst1)
      as (Hit1 & Hlen1 & hd1 & Hw1 & Hn1).
    rewrite Hnext in Hit1, Hn1. cbn [mem] in Hlen1.
    clear Hst1. revert st1 hd1 Hit1 Hlen1 Hw1 Hn1.
    induction n as [| n IH]; intros st1 hd1 Hit1 Hlen1 Hw1 Hn1.
    + exists st1. cbn [walk_iter]. now rewrite bind_Ok.
    + cbn [walk_iter]. rewrite Hit1.
      destruct (walk_body_defined a b st1) as [st2 Hst2]; [lia | lia |].
      rewrite Hst2, bind_Ok.
      destruct (walk_body_link a b st1 st2 hd1 Hw1 Hst2) as (Hit2 & Hlen2 & hd2 & Hw2 & Hn2).
      apply (IH st2 hd2); congruence.
Qed.

Lemma demo_two_parked_reached :
  run 1 (new_notifier 2) (park_ops [0; 1]%nat)
  = Ok (demo_two_parked, [EvParked 0%nat; EvParked 1%nat]).
Proof. reflexivity. Qed.

Lemma Notify_all_never_returns_witness :
  Notify 5 demo_two_parked true = OutOfFuel /\
  exists st,
    Notify_progress 4 5 demo_two_parked true = Ok (Some st) /\ iter st = Some 0%nat.
Proof.
  apply (Notify_all_never_returns 4 3 demo_two_parked 1 0 []).
  split.
  - exists (2 ^ 32 - 3). split; [now vm_compute | reflexivity].
  - now vm_compute.
  - cbn [chain demo_two_parked waiters_]. repeat split.
    + eexists. repeat split; reflexivity.
    + eexists. repeat split; reflexivity.
  - nodup_nat.
Defined.

(** On a stack [2 -> 1 -> 0], the signaling loop of Notify(true) goes
    from slot 2 to slot 1 and stays there; slot 0 is never written. *)
Lemma walk_from_two (slots : list Waiter.t) (hd : Waiter.t) (n : nat) :
  slots !! 2%nat = Some hd -> Waiter.next_ hd = Some 1%nat ->
  (1 < length slots)%nat ->
  exists st,
    walk_iter n 2 (mkWalk (Some 2%nat) slots []) = Ok st /\
    iter st <> None /\ mem st !! 0%nat = slots !! 0%nat.
Proof.
  intros Hhd Hnext Hlen.
  apply (walk_iter_stuck 2 1 0 n ltac:(lia) ltac:(lia)
           (mkWalk (Some 2%nat) slots []) 2%nat hd); auto.
Qed.

(** C1: with slots 0, 1, 2 parked and slot 3 prepared, the exchange of
    Notify(true) is the one the claim describes (epoch plus one, nobody
    prepared, stack empty), but the walk of the popped chain signals slot
    2, then slot 1 again and again: the call does not return and slot 0
    is never signaled. *)
Theorem Notify_all_misses_parked :
  run 1 (new_notifier 4) (park_ops [0; 1; 2]%nat ++ [OpPrepareWait 3])
  = Ok (demo_mixed, [EvParked 0%nat; EvParked 1%nat; EvParked 2%nat]) /\
  (exists nf1 pending,
     Notify_loop 1 demo_mixed true (state_ demo_mixed) = Ok (nf1, pending) /\
     epoch_of (state_ nf1) = (epoch_of (state_ demo_mixed) + 1) mod 2 ^ 32 /\
     count_of (state_ nf1) = 0 /\ stack_of (state_ nf1) = kStackMask) /\
  (forall fuel : nat, Notify fuel demo_mixed true = OutOfFuel) /\
  (forall n fuel : nat,
     exists st,
       Notify_progress n (S fuel) demo_mixed true = Ok (Some st) /\
       iter st <> None /\
       Waiter.state_ <$> mem st !! 0%nat = Some Waiter.kWaiting) /\
  (exists st,
     Notify_progress 3 1 demo_mixed true = Ok (Some st) /\
     log st = [EvSignaled 2%nat Waiter.kWaiting; EvSignaled 1%nat Waiter.kWaiting;
               EvSignaled 1%nat Waiter.kSignaled]).
Proof.
  assert (Hf : fields_ok (2 ^ 32 - 6) 1 2) by (unfold fields_ok; literals; lia).
  split; [reflexivity |].
  split; [eexists _, _; split; [reflexivity | repeat split] |].
  split; [| split].
  - intros fuel.
    apply (Notify_all_diverges demo_mixed _ _ _ Hf eq_refl fuel
             (Waiter.mk (Some 1%nat) (pack (2 ^ 32 - 7) 0 1) Waiter.kWaiting) 1).
    + now vm_compute.
    + reflexivity.
    + reflexivity.
    + cbn. lia.
  - intros n fuel.
    rewrite (Notify_progress_all demo_mixed _ _ _ n fuel
               (Waiter.mk (Some 1%nat) (pack (2 ^ 32 - 7) 0 1) Waiter.kWaiting)
               Hf eq_refl); [| now vm_compute | reflexivity].
    change (Z.to_nat 2) with 2%nat.
    destruct (walk_from_two (waiters_ demo_mixed)
                (Waiter.mk (Some 1%nat) (pack (2 ^ 32 - 7) 0 1) Waiter.kWaiting) n)
      as (st & Hrun & Hit & Hmem); [reflexivity | reflexivity | cbn; lia |].
    exists st. rewrite Hrun, bind_Ok, Hmem. easy.
  - eexists. split; reflexivity.
Qed.

(** C8: three threads park on slots 0, 1 and 2, each completing
    PrepareWait and CommitWait before any Notify begins; then one thread
    calls Notify(true).  The call takes all three off the stack and never
    returns, and at every point of its loop the thread on slot 0, woken or
    not, finds itself unsignaled and goes back to sleep; the stack being
    empty, no later Notify can reach it either. *)
Theorem parked_first_never_woken :
  run 1 (new_notifier 3)
      [OpPrepareWait 0; OpCommitWait 0; OpPrepareWait 1; OpCommitWait 1;
       OpPrepareWait 2; OpCommitWait 2]
  = Ok (demo_three_parked, [EvParked 0%nat; EvParked 1%nat; EvParked 2%nat]) /\
  (forall fuel : nat, run fuel demo_three_parked [OpNotify true] = OutOfFuel) /\
  (exists nf1 pending,
     Notify_loop 1 demo_three_parked true (state_ demo_three_parked) = Ok (nf1, pending) /\
     stack_of (state_ nf1) = kStackMask) /\
  (forall n fuel : nat,
     exists st,
       Notify_progress n (S fuel) demo_three_parked true = Ok (Some st) /\
       iter st <> None /\
       forall s : Z,
         CommitWait_resume (mkNotifier (mem st) s) 0
         = Ok (mkNotifier (mem st) s, [EvParked 0%nat])).
Proof.
  assert (Hf : fields_ok (2 ^ 32 - 4) 0 2) by (unfold fields_ok; literals; lia).
  split; [reflexivity |]. split; [| split].
  - intros fuel. rewrite run_cons. cbn [exec].
    rewrite (Notify_all_diverges demo_three_parked _ _ _ Hf eq_refl fuel
               (Waiter.mk (Some 1%nat) (pack (2 ^ 32 - 5) 0 1) Waiter.kWaiting) 1).
    + reflexivity.
    + now vm_compute.
    + reflexivity.
    + reflexivity.
    + cbn. lia.
  - eexists _, _. split; reflexivity.
  - intros n fuel.
    rewrite (Notify_progress_all demo_three_parked _ _ _ n fuel
               (Waiter.mk (Some 1%nat) (pack (2 ^ 32 - 5) 0 1) Waiter.kWaiting)
               Hf eq_refl); [| now vm_compute | reflexivity].
    change (Z.to_nat 2) with 2%nat.
    destruct (walk_from_two (waiters_ demo_three_parked)
                (Waiter.mk (Some 1%nat) (pack (2 ^ 32 - 5) 0 1) Waiter.kWaiting) n)
      as (st & Hrun & Hit & Hmem); [reflexivity | reflexivity | cbn; lia |].
    exists st. rewrite Hrun, bind_Ok. split; [reflexivity |]. split; [exact Hit |].
    intros s.
    apply (resume_waiting _ 0 (Waiter.mk None (pack (2 ^ 32 - 7) 0 65535) Waiter.kWaiting));
      [exact Hmem | reflexivity].
Qed.

(** * Further properties of the code *)

(** ** The codec *)

(** X1: the three fields tile the word.  A 64-bit word is its epoch,
    prepare-count and stack-head fields put back at bits 32, 16 and 0, and
    a word assembled from fields in range reads back as those fields. *)
Theorem fields_round_trip (s e c h : Z) :
  (word64 s ->
   s = epoch_of s * 2 ^ 32 + count_of s * 2 ^ 16 + stack_of s /\
   Z.land s kEpochMask + Z.land s kWaiterMask + Z.land s kStackMask = s /\
   0 <= epoch_of s < 2 ^ 32 /\ 0 <= count_of s < 2 ^ 16 /\
   0 <= stack_of s < 2 ^ 16) /\
  (0 <= e < 2 ^ 32 -> 0 <= c < 2 ^ 16 -> 0 <= h < 2 ^ 16 ->
   let s' := e * 2 ^ 32 + c * 2 ^ 16 + h in
   word64 s' /\ epoch_of s' = e /\ count_of s' = c /\ stack_of s' = h).
Proof.
  split.
  - intros Hs. pose proof (unpack s Hs) as Hu. pose proof (fields_range s Hs) as Hr.
    split; [exact Hu |]. split; [| exact Hr].
    rewrite land_epoch, land_waiter, land_stack.
    rewrite epoch_of_mod, count_of_mod, stack_of_mod in Hu. unfold pack in Hu.
    lia.
  - intros He Hc Hh s'. assert (Hf : fields_ok e c h) by (unfold fields_ok; lia).
    split; [apply (pack_word e c h Hf) |].
    split; [apply (epoch_of_pack e c h Hf) |].
    split; [apply (count_of_pack e c h Hf) | apply (stack_of_pack e c h Hf)].
Qed.

Lemma fields_round_trip_witness :
  (pack 7 3 5 = epoch_of (pack 7 3 5) * 2 ^ 32 + count_of (pack 7 3 5) * 2 ^ 16
                + stack_of (pack 7 3 5)) /\
  epoch_of (7 * 2 ^ 32 + 3 * 2 ^ 16 + 5) = 7.
Proof.
  split.
  - apply (proj1 (fields_round_trip (pack 7 3 5) 0 0 0)). closed_word.
  - apply (proj2 (fields_round_trip 0 7 3 5)); literals; lia.
Defined.

(** X2: the comparison of CommitWait and CancelWait is wrap-safe.  With
    [d] the distance from the epoch of [b] up to the epoch of [a] modulo
    2^32, the signed difference computed by the source is [d] epoch units
    when [d < 2^31] and [d - 2^32] units otherwise: zero exactly for
    equal epochs, positive while [a] is less than 2^31 steps ahead. *)
Theorem signed_epoch_difference (a b : Z) :
  let d := (epoch_of a - epoch_of b) mod 2 ^ 32 in
  to_int64 (sub64 (Z.land a kEpochMask) (Z.land b kEpochMask))
  = (if d <? 2 ^ 31 then d else d - 2 ^ 32) * 2 ^ 32.
Proof.
  intros d. subst d. rewrite !land_epoch, !epoch_of_mod.
  set (ea := (a / 2 ^ 32) mod 2 ^ 32). set (eb := (b / 2 ^ 32) mod 2 ^ 32).
  assert (Ha : 0 <= ea < 2 ^ 32) by (apply Z.mod_pos_bound; lia).
  assert (Hb : 0 <= eb < 2 ^ 32) by (apply Z.mod_pos_bound; lia).
  unfold to_int64, sub64, wrap64.
  assert (Hm : (ea * 2 ^ 32 - eb * 2 ^ 32) mod 2 ^ 64 = (ea - eb) mod 2 ^ 32 * 2 ^ 32).
  { divmod. }
  rewrite Hm. set (d := (ea - eb) mod 2 ^ 32).
  assert (Hd : 0 <= d < 2 ^ 32) by (apply Z.mod_pos_bound; lia).
  change (2 ^ 31) with 2147483648 in *.
  destruct (Z.ltb_spec (d * 2 ^ 32) (2 ^ 63)), (Z.ltb_spec d 2147483648);
    literals; lia.
Qed.

(** ** Construction *)

Lemma new_notifier_links (N : nat) : links_ok (new_notifier N).
Proof.
  intros i j sl Hi Hn. cbn [new_notifier waiters_] in Hi.
  apply lookup_replicate_1 in Hi as [-> _]. discriminate Hn.
Qed.

Lemma idle_wf (nf : Notifier) : idle nf -> links_ok nf -> wf nf.
Proof.
  intros (Hw & _ & Hs & Hcap) Hl. unfold wf. auto.
Qed.

(** With nobody prepared and nobody parked the destructor's assertion
    holds. *)
Lemma idle_dtor (nf : Notifier) : idle nf -> Notifier_dtor nf = Ok tt.
Proof.
  intros (_ & Hc & Hs & _). unfold Notifier_dtor.
  rewrite land_stack_waiter. rewrite count_of_mod in Hc. rewrite stack_of_mod in Hs.
  change kStackMask with 65535 in *.
  replace (state_ nf mod 2 ^ 32) with 65535 by divmod. reflexivity.
Qed.

(** X3: a notifier of capacity N <= 65534, its vector built, starts with
    epoch [2^32 - 1 - 2N], nobody prepared, the stack empty and every slot
    unlinked and not signaled; destroying it at once passes the
    destructor's assertion. *)
Theorem Notifier_ctor_initial (can_hold : nat -> bool) (N : nat) :
  can_hold N = true ->
  Z.of_nat N <= 65534 ->
  exists nf,
    Notifier_ctor can_hold N = Ok nf /\
    epoch_of (state_ nf) = 2 ^ 32 - 1 - 2 * Z.of_nat N /\
    count_of (state_ nf) = 0 /\ stack_of (state_ nf) = kStackMask /\
    waiters_ nf = replicate N Waiter.init /\
    wf nf /\ Notifier_dtor nf = Ok tt.
Proof.
  intros Hhold HN. exists (new_notifier N).
  assert (Hf : fields_ok (2 ^ 32 - 1 - 2 * Z.of_nat N) 0 (2 ^ 16 - 1)).
  { unfold fields_ok. literals. lia. }
  pose proof (new_notifier_idle N HN) as Hidle.
  assert (Hst : state_ (new_notifier N) = pack (2 ^ 32 - 1 - 2 * Z.of_nat N) 0 (2 ^ 16 - 1)).
  { apply Notifier_ctor_state, HN. }
  split; [apply Notifier_ctor_ok; [exact Hhold | exact HN] |].
  rewrite Hst, epoch_of_pack, count_of_pack, stack_of_pack by exact Hf.
  split; [reflexivity |]. split; [reflexivity |]. split; [reflexivity |].
  split; [reflexivity |]. split.
  - apply idle_wf; [exact Hidle | apply new_notifier_links].
  - apply idle_dtor, Hidle.
Qed.

Lemma Notifier_ctor_initial_witness :
  exists nf,
    Notifier_ctor (holds_up_to (2 ^ 63 - 1)) 2 = Ok nf /\
    epoch_of (state_ nf) = 2 ^ 32 - 1 - 2 * Z.of_nat 2 /\
    count_of (state_ nf) = 0 /\ stack_of (state_ nf) = kStackMask /\
    waiters_ nf = replicate 2 Waiter.init /\
    wf nf /\ Notifier_dtor nf = Ok tt.
Proof.
  apply (Notifier_ctor_initial (holds_up_to (2 ^ 63 - 1)) 2); [reflexivity | lia].
Defined.

(** ** PrepareWait *)

(** X4: PrepareWait on a valid slot stores the word it found in the
    slot's snapshot and adds one to the prepare-count; the epoch, the
    stack head, the slot's link and signal state and every other slot stay
    as they are.  There is no guard on the count: from its maximum 65535
    it wraps to zero and carries one into the epoch. *)
Theorem PrepareWait_effect (nf : Notifier) (w : nat) (sl : Waiter.t) :
  word64 (state_ nf) -> waiters_ nf !! w = Some sl ->
  exists nf',
    PrepareWait nf w = Ok nf' /\
    waiters_ nf' = <[w := Waiter.mk (Waiter.next_ sl) (state_ nf) (Waiter.state_ sl)]> (waiters_ nf) /\
    stack_of (state_ nf') = stack_of (state_ nf) /\
    (count_of (state_ nf) < 65535 ->
     count_of (state_ nf') = count_of (state_ nf) + 1 /\
     epoch_of (state_ nf') = epoch_of (state_ nf)) /\
    (count_of (state_ nf) = 65535 ->
     count_of (state_ nf') = 0 /\
     epoch_of (state_ nf') = (epoch_of (state_ nf) + 1) mod 2 ^ 32).
Proof.
  intros Hword Hw. unfold PrepareWait. cbn [set_state_word waiters_ state_ set_waiters].
  rewrite (slot_lookup _ _ _ Hw), bind_Ok.
  eexists. split; [reflexivity |]. cbn [waiters_ state_ set_waiters set_state_word].
  split; [reflexivity |].
  pose proof (fields_range _ Hword) as Hf. pose proof (unpack _ Hword) as Hst.
  set (e := epoch_of (state_ nf)) in *. set (c := count_of (state_ nf)) in *.
  set (h := stack_of (state_ nf)) in *.
  assert (Hr : 0 <= e < 2 ^ 32 /\ 0 <= c < 2 ^ 16 /\ 0 <= h < 2 ^ 16) by exact Hf.
  clearbody e c h.
  destruct (Z.eq_dec c 65535) as [Hmax | Hlt].
  - assert (Hf' : fields_ok ((e + 1) mod 2 ^ 32) 0 h) by (unfold fields_ok; divmod).
    assert (Hnew : add64 (state_ nf) kWaiterInc = pack ((e + 1) mod 2 ^ 32) 0 h).
    { rewrite Hst. subst c. unfold add64, wrap64, pack. change kWaiterInc with (2 ^ 16).
      clear Hst Hword Hw Hf. divmod. }
    rewrite Hnew, stack_of_pack, count_of_pack, epoch_of_pack by exact Hf'.
    split; [reflexivity |]. split; [lia | easy].
  - assert (Hf' : fields_ok e (c + 1) h) by (unfold fields_ok; literals; lia).
    assert (Hnew : add64 (state_ nf) kWaiterInc = pack e (c + 1) h).
    { rewrite Hst. apply prepare_pack; [exact Hf | literals; lia]. }
    rewrite Hnew, stack_of_pack, count_of_pack, epoch_of_pack by exact Hf'.
    split; [reflexivity |]. split; [easy | lia].
Qed.

Lemma PrepareWait_effect_witness :
  exists nf',
    PrepareWait (new_notifier 2) 0 = Ok nf' /\
    waiters_ nf' = <[0%nat := Waiter.mk None (state_ (new_notifier 2)) Waiter.kNotSignaled]>
                     (waiters_ (new_notifier 2)) /\
    stack_of (state_ nf') = stack_of (state_ (new_notifier 2)) /\
    (count_of (state_ (new_notifier 2)) < 65535 ->
     count_of (state_ nf') = count_of (state_ (new_notifier 2)) + 1 /\
     epoch_of (state_ nf') = epoch_of (state_ (new_notifier 2))) /\
    (count_of (state_ (new_notifier 2)) = 65535 ->
     count_of (state_ nf') = 0 /\
     epoch_of (state_ nf') = (epoch_of (state_ (new_notifier 2)) + 1) mod 2 ^ 32).
Proof.
  apply (PrepareWait_effect (new_notifier 2) 0 Waiter.init).
  - closed_word.
  - reflexivity.
Defined.

(** ** Waiting for earlier preparers *)

Lemma epoch_diff_behind (e c : Z) :
  0 <= e < 2 ^ 32 -> 0 < c < 2 ^ 31 ->
  to_int64 (sub64 (e * 2 ^ 32) ((e + c) mod 2 ^ 32 * 2 ^ 32)) = - (c * 2 ^ 32).
Proof.
  intros He Hc. unfold to_int64, sub64, wrap64.
  change (2 ^ 31) with 2147483648 in *.
  assert (Hm : (e * 2 ^ 32 - (e + c) mod 2 ^ 32 * 2 ^ 32) mod 2 ^ 64
               = 2 ^ 64 - c * 2 ^ 32) by divmod.
  rewrite Hm. destruct (Z.ltb_spec (2 ^ 64 - c * 2 ^ 32) (2 ^ 63)); literals; lia.
Qed.

Lemma CommitWait_spins (nf : Notifier) (e c h : Z) (fuel w : nat) (sl : Waiter.t) :
  fields_ok e c h -> state_ nf = pack e c h ->
  waiters_ nf !! w = Some sl ->
  to_int64 (sub64 (e * 2 ^ 32) (expected_epoch (Waiter.epoch_ sl))) < 0 ->
  CommitWait fuel nf w = OutOfFuel.
Proof.
  intros Hf Hst Hw Hlt. unfold CommitWait.
  rewrite (slot_lookup _ _ _ Hw), bind_Ok. cbv zeta.
  set (nf0 := set_waiters _ nf).
  rewrite (CommitWait_loop_spins nf0 e c h Hf Hst fuel w _ Hlt). reflexivity.
Qed.

Lemma CancelWait_spins (nf : Notifier) (e c h : Z) (fuel w : nat) (sl : Waiter.t) :
  fields_ok e c h -> state_ nf = pack e c h ->
  waiters_ nf !! w = Some sl ->
  to_int64 (sub64 (e * 2 ^ 32) (expected_epoch (Waiter.epoch_ sl))) < 0 ->
  CancelWait fuel nf w = OutOfFuel.
Proof.
  intros Hf Hst Hw Hlt. unfold CancelWait.
  rewrite (slot_lookup _ _ _ Hw), bind_Ok.
  apply (CancelWait_loop_spins nf e c h Hf Hst fuel _ Hlt).
Qed.

(** X5: waiters are resolved in the order of their PrepareWait.  While
    [c >= 1] earlier preparers are neither committed, cancelled nor
    notified, a later waiter's CommitWait and CancelWait take the yield
    branch in every round: with nobody else running, neither returns and
    the waiter is not pushed on the stack. *)
Theorem earlier_preparers_first (fuel : nat) (nf : Notifier) (w : nat) :
  word64 (state_ nf) -> 1 <= count_of (state_ nf) <= 65534 ->
  (w < length (waiters_ nf))%nat ->
  run fuel nf [OpPrepareWait w; OpCommitWait w] = OutOfFuel /\
  run fuel nf [OpPrepareWait w; OpCancelWait w] = OutOfFuel.
Proof.
  intros Hword Hc Hw.
  pose proof (fields_range _ Hword) as Hf. pose proof (unpack _ Hword) as Hst.
  set (e := epoch_of (state_ nf)) in *. set (c := count_of (state_ nf)) in *.
  set (h := stack_of (state_ nf)) in *.
  assert (Hr : 0 <= e < 2 ^ 32 /\ 0 <= c < 2 ^ 16 /\ 0 <= h < 2 ^ 16) by exact Hf.
  clearbody e c h.
  assert (Hf1 : fields_ok e (c + 1) h) by (unfold fields_ok; literals; lia).
  destruct (lookup_lt_is_Some_2 _ _ Hw) as [sl Hsl].
  assert (Hprep := PrepareWait_pack nf e c h Hf Hst w sl Hsl ltac:(literals; lia)).
  set (nf1 := mkNotifier _ _) in Hprep.
  assert (Hsl1 : waiters_ nf1 !! w = Some (Waiter.set_epoch (pack e c h) sl)).
  { cbn [nf1 waiters_]. now apply list_lookup_insert_eq. }
  assert (Hbehind : to_int64 (sub64 (e * 2 ^ 32)
            (expected_epoch (Waiter.epoch_ (Waiter.set_epoch (pack e c h) sl)))) < 0).
  { cbn [Waiter.epoch_ Waiter.set_epoch]. rewrite expected_epoch_pack by exact Hf.
    rewrite epoch_diff_behind by (change (2 ^ 31) with 2147483648; literals; lia).
    literals. lia. }
  split; rewrite run_cons; cbn [exec]; rewrite Hprep, !bind_Ok; cbn beta iota;
    rewrite run_cons; cbn [exec].
  - now rewrite (CommitWait_spins nf1 e (c + 1) h fuel w _ Hf1 eq_refl Hsl1 Hbehind).
  - now rewrite (CancelWait_spins nf1 e (c + 1) h fuel w _ Hf1 eq_refl Hsl1 Hbehind).
Qed.

Lemma earlier_preparers_first_witness :
  run 7 demo_prepared [OpPrepareWait 1; OpCommitWait 1] = OutOfFuel /\
  run 7 demo_prepared [OpPrepareWait 1; OpCancelWait 1] = OutOfFuel.
Proof.
  apply (earlier_preparers_first 7 demo_prepared 1).
  - closed_word.
  - split; now vm_compute.
  - cbn. lia.
Defined.

(** X6: a slot that was never prepared carries the snapshot 0, and the
    epoch of a new notifier is in the upper half of its range, so the
    signed difference is negative: CommitWait or CancelWait called on a
    new notifier without a PrepareWait takes the yield branch for ever
    instead of reaching the assertion or parking. *)
Theorem wait_without_prepare_spins (can_hold : nat -> bool) (fuel : nat) (N : nat)
    (nf : Notifier) (w : nat) :
  Notifier_ctor can_hold N = Ok nf -> (w < N)%nat ->
  CommitWait fuel nf w = OutOfFuel /\ CancelWait fuel nf w = OutOfFuel.
Proof.
  intros Hctor Hw.
  destruct (Notifier_ctor_inv _ _ _ Hctor) as (_ & HN & ->). clear Hctor.
  set (e := 2 ^ 32 - 1 - 2 * Z.of_nat N).
  assert (Hf : fields_ok e 0 (2 ^ 16 - 1)) by (unfold fields_ok, e; literals; lia).
  set (nf := mkNotifier _ _).
  assert (Hst : state_ nf = pack e 0 (2 ^ 16 - 1)) by (apply Notifier_ctor_state, HN).
  assert (Hsl : waiters_ nf !! w = Some Waiter.init).
  { cbn [nf waiters_]. now apply lookup_replicate_2. }
  assert (Hbehind : to_int64 (sub64 (e * 2 ^ 32)
                      (expected_epoch (Waiter.epoch_ Waiter.init))) < 0).
  { change (expected_epoch (Waiter.epoch_ Waiter.init)) with 0.
    unfold to_int64, sub64, wrap64. rewrite Z.sub_0_r.
    rewrite Z.mod_small by (unfold e; literals; lia).
    destruct (Z.ltb_spec (e * 2 ^ 32) (2 ^ 63)); unfold e in *; literals; lia. }
  split.
  - apply (CommitWait_spins nf e 0 (2 ^ 16 - 1) fuel w _ Hf Hst Hsl Hbehind).
  - apply (CancelWait_spins nf e 0 (2 ^ 16 - 1) fuel w _ Hf Hst Hsl Hbehind).
Qed.

Lemma wait_without_prepare_spins_witness :
  CommitWait 9 (new_notifier 2) 0 = OutOfFuel /\
  CancelWait 9 (new_notifier 2) 0 = OutOfFuel.
Proof.
  apply (wait_without_prepare_spins (holds_up_to (2 ^ 63 - 1)) 9 2 (new_notifier 2) 0).
  - reflexivity.
  - lia.
Defined.

(** ** Notify on short stacks *)

Section NotifyAll.
Variable nf : Notifier.
Variables e c h : Z.
Hypothesis Hf : fields_ok e c h.
Hypothesis Hst : state_ nf = pack e c h.

(** [Notify(true)] with nobody parked. *)
Lemma Notify_all_empty (fuel : nat) :
  h = kStackMask ->
  Notify (S fuel) nf true
  = Ok (set_state_word (pack ((e + c) mod 2 ^ 32) 0 (2 ^ 16 - 1)) nf, []).
Proof using Hf Hst.
  intros Hh. destruct (Z.eq_dec c 0) as [Hc | Hc].
  - rewrite (Notify_idle nf e c h Hf Hst fuel true Hc Hh).
    subst c h. rewrite Z.add_0_r, Z.mod_small by (unfold fields_ok in Hf; lia).
    change (2 ^ 16 - 1) with kStackMask. rewrite <- Hst. now destruct nf.
  - unfold Notify. rewrite (Notify_loop_all nf e c h Hf Hst fuel); [| tauto | now left].
    rewrite bind_Ok. unfold link_of. rewrite Hh, Z.eqb_refl. reflexivity.
Qed.

(** [Notify(true)] with exactly one waiter parked. *)
Lemma Notify_all_single (fuel : nat) (hd : Waiter.t) :
  h <> kStackMask -> waiters_ nf !! Z.to_nat h = Some hd ->
  Waiter.next_ hd = None ->
  Notify (S fuel) nf true
  = Ok (mkNotifier (<[Z.to_nat h := Waiter.set_state Waiter.kSignaled hd]> (waiters_ nf))
                   (pack ((e + c) mod 2 ^ 32) 0 (2 ^ 16 - 1)),
        [EvSignaled (Z.to_nat h) (Waiter.state_ hd)]).
Proof using Hf Hst.
  intros Hh Hhd Hnext. unfold Notify.
  rewrite (Notify_loop_all nf e c h Hf Hst fuel);
    [| tauto | right; eapply lookup_lt_Some, Hhd].
  rewrite bind_Ok. unfold link_of.
  destruct (Z.eqb_spec h kStackMask) as [| _]; [contradiction |].
  rewrite (walk_single fuel _ _ _ hd Hhd Hnext), bind_Ok. reflexivity.
Qed.

End NotifyAll.

(** X7: Notify(true) returns when at most one waiter is parked.  It
    zeroes the prepare-count, empties the stack and moves the epoch
    forward by the prepare-count it found; a parked waiter is signaled
    once, and with nobody parked no slot is touched. *)
Theorem Notify_all_short_stack (fuel : nat) (nf : Notifier) :
  word64 (state_ nf) ->
  (stack_of (state_ nf) = kStackMask \/
   exists hd, waiters_ nf !! Z.to_nat (stack_of (state_ nf)) = Some hd /\
              Waiter.next_ hd = None) ->
  exists nf' ev,
    Notify (S fuel) nf true = Ok (nf', ev) /\
    count_of (state_ nf') = 0 /\ stack_of (state_ nf') = kStackMask /\
    epoch_of (state_ nf') = (epoch_of (state_ nf) + count_of (state_ nf)) mod 2 ^ 32 /\
    (stack_of (state_ nf) = kStackMask -> ev = [] /\ waiters_ nf' = waiters_ nf) /\
    (forall hd, stack_of (state_ nf) <> kStackMask ->
       waiters_ nf !! Z.to_nat (stack_of (state_ nf)) = Some hd ->
       ev = [EvSignaled (Z.to_nat (stack_of (state_ nf))) (Waiter.state_ hd)] /\
       waiters_ nf'
       = <[Z.to_nat (stack_of (state_ nf)) := Waiter.set_state Waiter.kSignaled hd]>
           (waiters_ nf)).
Proof.
  intros Hword Hshort.
  pose proof (fields_range _ Hword) as Hf. pose proof (unpack _ Hword) as Hst.
  set (e := epoch_of (state_ nf)) in *. set (c := count_of (state_ nf)) in *.
  set (h := stack_of (state_ nf)) in *.
  assert (Hr : 0 <= e < 2 ^ 32 /\ 0 <= c < 2 ^ 16 /\ 0 <= h < 2 ^ 16) by exact Hf.
  clearbody e c h.
  assert (Hf' : fields_ok ((e + c) mod 2 ^ 32) 0 (2 ^ 16 - 1)).
  { unfold fields_ok. divmod. }
  destruct (Z.eq_dec h kStackMask) as [Hh | Hh].
  - eexists _, _. split; [apply (Notify_all_empty nf e c h Hf Hst fuel Hh) |].
    cbn [state_ waiters_ set_state_word].
    rewrite count_of_pack, stack_of_pack, epoch_of_pack by exact Hf'.
    split; [reflexivity |]. split; [reflexivity |]. split; [reflexivity |].
    split; [easy |]. intros hd' Hne. contradiction.
  - destruct Hshort as [Hm | (hd & Hhd & Hnext)]; [contradiction |].
    eexists _, _. split; [apply (Notify_all_single nf e c h Hf Hst fuel hd Hh Hhd Hnext) |].
    cbn [state_ waiters_].
    rewrite count_of_pack, stack_of_pack, epoch_of_pack by exact Hf'.
    split; [reflexivity |]. split; [reflexivity |]. split; [reflexivity |].
    split; [intros Hm; contradiction |].
    intros hd' _ Hhd'. rewrite Hhd in Hhd'. injection Hhd' as <-. split; reflexivity.
Qed.

Lemma Notify_all_short_stack_witness :
  exists nf' ev,
    Notify 1 demo_parked true = Ok (nf', ev) /\
    count_of (state_ nf') = 0 /\ stack_of (state_ nf') = kStackMask /\
    epoch_of (state_ nf')
    = (epoch_of (state_ demo_parked) + count_of (state_ demo_parked)) mod 2 ^ 32 /\
    (stack_of (state_ demo_parked) = kStackMask -> ev = [] /\ waiters_ nf' = waiters_ demo_parked) /\
    (forall hd, stack_of (state_ demo_parked) <> kStackMask ->
       waiters_ demo_parked !! Z.to_nat (stack_of (state_ demo_parked)) = Some hd ->
       ev = [EvSignaled (Z.to_nat (stack_of (state_ demo_parked))) (Waiter.state_ hd)] /\
       waiters_ nf'
       = <[Z.to_nat (stack_of (state_ demo_parked)) := Waiter.set_state Waiter.kSignaled hd]>
           (waiters_ demo_parked)).
Proof.
  apply (Notify_all_short_stack 0 demo_parked).
  - closed_word.
  - right. eexists. split; reflexivity.
Defined.

(** X8: Notify(false) always returns on a well-formed notifier and
    resolves at most one waiter: with somebody prepared it takes one off
    the prepare-count and touches neither the stack nor any slot; with
    nobody prepared or parked it changes nothing; otherwise it pops the
    top of the stack, clears its link and signals it alone. *)
Theorem Notify_false_total (fuel : nat) (nf : Notifier) :
  wf nf ->
  exists nf' ev,
    Notify (S fuel) nf false = Ok (nf', ev) /\
    ((count_of (state_ nf) <> 0 /\ ev = [] /\ waiters_ nf' = waiters_ nf /\
      stack_of (state_ nf') = stack_of (state_ nf) /\
      count_of (state_ nf') = count_of (state_ nf) - 1) \/
     (count_of (state_ nf) = 0 /\ stack_of (state_ nf) = kStackMask /\
      ev = [] /\ nf' = nf) \/
     (count_of (state_ nf) = 0 /\ stack_of (state_ nf) <> kStackMask /\
      exists hd,
        waiters_ nf !! Z.to_nat (stack_of (state_ nf)) = Some hd /\
        ev = [EvSignaled (Z.to_nat (stack_of (state_ nf))) (Waiter.state_ hd)] /\
        stack_of (state_ nf') = head_field (Waiter.next_ hd) /\
        count_of (state_ nf') = 0 /\
        waiters_ nf'
        = <[Z.to_nat (stack_of (state_ nf)) :=
              Waiter.mk None (Waiter.epoch_ hd) Waiter.kSignaled]> (waiters_ nf))).
Proof.
  intros (Hword & Hcap & Hstack & Hlinks).
  pose proof (fields_range _ Hword) as Hf. pose proof (unpack _ Hword) as Hst.
  set (e := epoch_of (state_ nf)) in *. set (c := count_of (state_ nf)) in *.
  set (h := stack_of (state_ nf)) in *.
  assert (Hr : 0 <= e < 2 ^ 32 /\ 0 <= c < 2 ^ 16 /\ 0 <= h < 2 ^ 16) by exact Hf.
  clearbody e c h.
  destruct (Z.eq_dec c 0) as [Hc | Hc].
  - destruct (Z.eq_dec h kStackMask) as [Hh | Hh].
    + exists nf, []. split; [apply (Notify_idle nf e c h Hf Hst fuel false Hc Hh) |].
      right. left. easy.
    + destruct Hstack as [Hs | Hs]; [contradiction |].
      assert (Hlt : (Z.to_nat h < length (waiters_ nf))%nat) by lia.
      destruct (lookup_lt_is_Some_2 _ _ Hlt) as [hd Hhd].
      assert (Hnext : 0 <= head_field (Waiter.next_ hd) < 2 ^ 16).
      { destruct (Waiter.next_ hd) as [j |] eqn:Hj; cbn [head_field].
        - pose proof (Hlinks _ _ _ Hhd Hj). literals. lia.
        - change kStackMask with 65535. literals. lia. }
      eexists _, _. split; [apply (Notify_pop nf e c h Hf Hst fuel hd Hc Hh Hhd Hnext) |].
      right. right. split; [exact Hc |]. split; [exact Hh |].
      exists hd. cbn [state_ waiters_].
      assert (Hf' : fields_ok e 0 (head_field (Waiter.next_ hd))) by (unfold fields_ok; lia).
      rewrite stack_of_pack, count_of_pack by exact Hf'. easy.
  - assert (Hc1 : 1 <= c) by lia.
    eexists _, _. split; [apply (Notify_false_prepared nf e c h Hf Hst fuel Hc1) |].
    left. cbn [state_ waiters_ set_state_word].
    assert (Hf' : fields_ok ((e + 1) mod 2 ^ 32) (c - 1) h) by (unfold fields_ok; divmod).
    rewrite stack_of_pack, count_of_pack by exact Hf'. easy.
Qed.

Lemma Notify_false_total_witness :
  exists nf' ev,
    Notify 1 demo_prepared false = Ok (nf', ev) /\
    ((count_of (state_ demo_prepared) <> 0 /\ ev = [] /\
      waiters_ nf' = waiters_ demo_prepared /\
      stack_of (state_ nf') = stack_of (state_ demo_prepared) /\
      count_of (state_ nf') = count_of (state_ demo_prepared) - 1) \/
     (count_of (state_ demo_prepared) = 0 /\ stack_of (state_ demo_prepared) = kStackMask /\
      ev = [] /\ nf' = demo_prepared) \/
     (count_of (state_ demo_prepared) = 0 /\ stack_of (state_ demo_prepared) <> kStackMask /\
      exists hd,
        waiters_ demo_prepared !! Z.to_nat (stack_of (state_ demo_prepared)) = Some hd /\
        ev = [EvSignaled (Z.to_nat (stack_of (state_ demo_prepared))) (Waiter.state_ hd)] /\
        stack_of (state_ nf') = head_field (Waiter.next_ hd) /\
        count_of (state_ nf') = 0 /\
        waiters_ nf'
        = <[Z.to_nat (stack_of (state_ demo_prepared)) :=
              Waiter.mk None (Waiter.epoch_ hd) Waiter.kSignaled]> (waiters_ demo_prepared))).
Proof.
  apply (Notify_false_total 0 demo_prepared). closed_wf.
Defined.

(** ** Composition of calls *)

Lemma run_step (fuel : nat) (nf nf1 : Notifier) (o : op) (ops : list op)
    (ev1 : list event) :
  exec fuel nf o = Ok (nf1, ev1) ->
  run fuel nf (o :: ops)
  = '(nf2, ev2) ← run fuel nf1 ops; Ok (nf2, ev1 ++ ev2).
Proof. intros H. rewrite run_cons, H. reflexivity. Qed.

Lemma run_last (fuel : nat) (nf nf1 : Notifier) (o : op) (ev1 : list event) :
  exec fuel nf o = Ok (nf1, ev1) -> run fuel nf [o] = Ok (nf1, ev1).
Proof.
  intros H. rewrite (run_step _ _ _ _ _ _ H). cbn [run]. rewrite bind_Ok.
  now rewrite app_nil_r.
Qed.

Lemma exec_prepare (fuel : nat) (nf nf1 : Notifier) (w : nat) :
  PrepareWait nf w = Ok nf1 -> exec fuel nf (OpPrepareWait w) = Ok (nf1, []).
Proof. intros H. cbn [exec]. now rewrite H. Qed.

Lemma exec_cancel (fuel : nat) (nf nf1 : Notifier) (w : nat) :
  CancelWait fuel nf w = Ok nf1 -> exec fuel nf (OpCancelWait w) = Ok (nf1, []).
Proof. intros H. cbn [exec]. now rewrite H. Qed.

(** A waiter whose snapshot expects epoch [es] finds the epoch one step
    further: both CommitWait and CancelWait return in their first round. *)
Lemma after_resolution (nf : Notifier) (e c h es : Z) (fuel w : nat) (sl : Waiter.t) :
  fields_ok e c h -> state_ nf = pack e c h -> waiters_ nf !! w = Some sl ->
  0 <= es < 2 ^ 32 -> expected_epoch (Waiter.epoch_ sl) = es * 2 ^ 32 ->
  e = (es + 1) mod 2 ^ 32 ->
  CommitWait (S fuel) nf w
  = Ok (set_waiters (<[w := Waiter.set_state Waiter.kNotSignaled sl]> (waiters_ nf)) nf,
        [EvUnblocked w]) /\
  CancelWait (S fuel) nf w = Ok nf.
Proof.
  intros Hf Hst Hw Hes Hexp He.
  assert (Hgt : 0 < to_int64 (sub64 (e * 2 ^ 32) (expected_epoch (Waiter.epoch_ sl)))).
  { rewrite Hexp, He, epoch_diff_next by exact Hes. literals. lia. }
  split.
  - apply (CommitWait_returns nf e c h Hf Hst fuel w sl Hw Hgt).
  - unfold CancelWait. rewrite (slot_lookup _ _ _ Hw), bind_Ok.
    apply (CancelWait_loop_return nf e c h Hf Hst fuel _ Hgt).
Qed.

(** X9: a notification between PrepareWait and CommitWait is not lost.
    On a notifier where nobody else is prepared, PrepareWait(w), then
    Notify (Notify(false) on any stack, Notify(true) on an empty one),
    then CommitWait(w): the CommitWait returns without parking, and a
    CancelWait in its place returns as well.  Either way the prepare-count
    is back at zero, the stack head is as before and the epoch is one
    higher. *)
Theorem notified_before_commit (fuel : nat) (nf : Notifier) (w : nat) (all : bool) :
  word64 (state_ nf) -> count_of (state_ nf) = 0 ->
  (w < length (waiters_ nf))%nat ->
  (all = true -> stack_of (state_ nf) = kStackMask) ->
  exists nf1 nf2,
    run (S fuel) nf [OpPrepareWait w; OpNotify all; OpCommitWait w]
    = Ok (nf1, [EvUnblocked w]) /\
    run (S fuel) nf [OpPrepareWait w; OpNotify all; OpCancelWait w] = Ok (nf2, []) /\
    state_ nf1 = state_ nf2 /\
    count_of (state_ nf1) = 0 /\
    stack_of (state_ nf1) = stack_of (state_ nf) /\
    epoch_of (state_ nf1) = (epoch_of (state_ nf) + 1) mod 2 ^ 32.
Proof.
  intros Hword Hc Hw Hall.
  pose proof (fields_range _ Hword) as Hf. pose proof (unpack _ Hword) as Hst.
  set (e := epoch_of (state_ nf)) in *. set (h := stack_of (state_ nf)) in *.
  rewrite Hc in Hf, Hst.
  assert (Hr : 0 <= e < 2 ^ 32 /\ 0 <= 0 < 2 ^ 16 /\ 0 <= h < 2 ^ 16) by exact Hf.
  clearbody e h.
  assert (Hf1 : fields_ok e (0 + 1) h) by (unfold fields_ok; literals; lia).
  assert (Hf2 : fields_ok ((e + 1) mod 2 ^ 32) 0 h) by (unfold fields_ok; divmod).
  destruct (lookup_lt_is_Some_2 _ _ Hw) as [sl Hsl].
  assert (Hprep := PrepareWait_pack nf e 0 h Hf Hst w sl Hsl ltac:(literals; lia)).
  set (nf1 := mkNotifier _ _) in Hprep.
  assert (Hnot : Notify (S fuel) nf1 all
                 = Ok (set_state_word (pack ((e + 1) mod 2 ^ 32) 0 h) nf1, [])).
  { destruct all.
    - rewrite (Notify_all_empty nf1 e (0 + 1) h Hf1 eq_refl fuel (Hall eq_refl)).
      rewrite (Hall eq_refl). reflexivity.
    - rewrite (Notify_false_prepared nf1 e (0 + 1) h Hf1 eq_refl fuel) by lia.
      reflexivity. }
  set (nf2 := set_state_word _ nf1) in Hnot.
  assert (Hsl2 : waiters_ nf2 !! w = Some (Waiter.set_epoch (pack e 0 h) sl)).
  { cbn [nf2 nf1 waiters_ set_state_word]. now apply list_lookup_insert_eq. }
  destruct (after_resolution nf2 ((e + 1) mod 2 ^ 32) 0 h e fuel w _ Hf2 eq_refl Hsl2)
    as [Hcommit Hcancel]; [lia | | reflexivity |].
  { cbn [Waiter.epoch_ Waiter.set_epoch]. rewrite expected_epoch_pack by exact Hf.
    now rewrite Z.add_0_r, Z.mod_small by lia. }
  eexists _, _. split; [| split].
  - rewrite (run_step _ _ _ _ _ _ (exec_prepare (S fuel) _ _ _ Hprep)).
    rewrite (run_step (S fuel) nf1 nf2 (OpNotify all) _ [] Hnot).
    rewrite (run_last (S fuel) nf2 _ (OpCommitWait w) _ Hcommit). reflexivity.
  - rewrite (run_step _ _ _ _ _ _ (exec_prepare (S fuel) _ _ _ Hprep)).
    rewrite (run_step (S fuel) nf1 nf2 (OpNotify all) _ [] Hnot).
    rewrite (run_last (S fuel) nf2 _ (OpCancelWait w) _ (exec_cancel _ _ _ _ Hcancel)).
    reflexivity.
  - cbn [state_ set_waiters nf2 set_state_word].
    rewrite count_of_pack, stack_of_pack, epoch_of_pack by exact Hf2. easy.
Qed.

Lemma notified_before_commit_witness :
  exists nf1 nf2,
    run 1 (new_notifier 2) [OpPrepareWait 0; OpNotify true; OpCommitWait 0]
    = Ok (nf1, [EvUnblocked 0%nat]) /\
    run 1 (new_notifier 2) [OpPrepareWait 0; OpNotify true; OpCancelWait 0] = Ok (nf2, []) /\
    state_ nf1 = state_ nf2 /\
    count_of (state_ nf1) = 0 /\
    stack_of (state_ nf1) = stack_of (state_ (new_notifier 2)) /\
    epoch_of (state_ nf1) = (epoch_of (state_ (new_notifier 2)) + 1) mod 2 ^ 32.
Proof.
  apply (notified_before_commit 0 (new_notifier 2) 0 true).
  - closed_word.
  - reflexivity.
  - cbn. lia.
  - reflexivity.
Defined.

(** X10: resolving a waiter twice is harmless.  On a notifier where
    nobody else is prepared, after PrepareWait(w) and CancelWait(w) a
    further CommitWait(w) returns without parking and a further
    CancelWait(w) returns too, and neither changes the state word again:
    the first CancelWait took the only step. *)
Theorem cancel_then_wait_again (fuel : nat) (nf : Notifier) (w : nat) :
  word64 (state_ nf) -> count_of (state_ nf) = 0 ->
  (w < length (waiters_ nf))%nat ->
  exists nf1 nf2 nf3,
    run (S fuel) nf [OpPrepareWait w; OpCancelWait w] = Ok (nf1, []) /\
    run (S fuel) nf [OpPrepareWait w; OpCancelWait w; OpCommitWait w]
    = Ok (nf2, [EvUnblocked w]) /\
    run (S fuel) nf [OpPrepareWait w; OpCancelWait w; OpCancelWait w] = Ok (nf3, []) /\
    state_ nf2 = state_ nf1 /\ nf3 = nf1 /\
    count_of (state_ nf1) = 0 /\
    stack_of (state_ nf1) = stack_of (state_ nf).
Proof.
  intros Hword Hc Hw.
  pose proof (fields_range _ Hword) as Hf. pose proof (unpack _ Hword) as Hst.
  set (e := epoch_of (state_ nf)) in *. set (h := stack_of (state_ nf)) in *.
  rewrite Hc in Hf, Hst.
  assert (Hr : 0 <= e < 2 ^ 32 /\ 0 <= 0 < 2 ^ 16 /\ 0 <= h < 2 ^ 16) by exact Hf.
  clearbody e h.
  assert (Hf1 : fields_ok e (0 + 1) h) by (unfold fields_ok; literals; lia).
  assert (Hf2 : fields_ok ((e + 1) mod 2 ^ 32) (0 + 1 - 1) h) by (unfold fields_ok; divmod).
  destruct (lookup_lt_is_Some_2 _ _ Hw) as [sl Hsl].
  assert (Hprep := PrepareWait_pack nf e 0 h Hf Hst w sl Hsl ltac:(literals; lia)).
  set (nf1 := mkNotifier _ _) in Hprep.
  assert (Hsl1 : waiters_ nf1 !! w = Some (Waiter.set_epoch (pack e 0 h) sl)).
  { cbn [nf1 waiters_]. now apply list_lookup_insert_eq. }
  assert (Hexp : expected_epoch (Waiter.epoch_ (Waiter.set_epoch (pack e 0 h) sl)) = e * 2 ^ 32).
  { cbn [Waiter.epoch_ Waiter.set_epoch]. rewrite expected_epoch_pack by exact Hf.
    now rewrite Z.add_0_r, Z.mod_small by lia. }
  assert (Hcan : CancelWait (S fuel) nf1 w
                 = Ok (set_state_word (pack ((e + 1) mod 2 ^ 32) (0 + 1 - 1) h) nf1)).
  { unfold CancelWait. rewrite (slot_lookup _ _ _ Hsl1), bind_Ok, Hexp.
    apply (CancelWait_loop_resolve nf1 e (0 + 1) h Hf1 eq_refl fuel). lia. }
  set (nf2 := set_state_word _ nf1) in Hcan.
  destruct (after_resolution nf2 ((e + 1) mod 2 ^ 32) (0 + 1 - 1) h e fuel w _
              Hf2 eq_refl Hsl1) as [Hcommit Hcancel]; [lia | exact Hexp | reflexivity |].
  eexists _, _, _. split; [| split; [| split]].
  - rewrite (run_step _ _ _ _ _ _ (exec_prepare (S fuel) _ _ _ Hprep)).
    rewrite (run_last (S fuel) nf1 _ (OpCancelWait w) _ (exec_cancel _ _ _ _ Hcan)).
    reflexivity.
  - rewrite (run_step _ _ _ _ _ _ (exec_prepare (S fuel) _ _ _ Hprep)).
    rewrite (run_step _ _ _ _ _ _ (exec_cancel _ _ _ _ Hcan)).
    rewrite (run_last (S fuel) nf2 _ (OpCommitWait w) _ Hcommit). reflexivity.
  - rewrite (run_step _ _ _ _ _ _ (exec_prepare (S fuel) _ _ _ Hprep)).
    rewrite (run_step _ _ _ _ _ _ (exec_cancel _ _ _ _ Hcan)).
    rewrite (run_last (S fuel) nf2 _ (OpCancelWait w) _ (exec_cancel _ _ _ _ Hcancel)).
    reflexivity.
  - cbn [state_ set_waiters nf2 set_state_word].
    rewrite count_of_pack, stack_of_pack by exact Hf2. easy.
Qed.

Lemma cancel_then_wait_again_witness :
  exists nf1 nf2 nf3,
    run 1 (new_notifier 2) [OpPrepareWait 0; OpCancelWait 0] = Ok (nf1, []) /\
    run 1 (new_notifier 2) [OpPrepareWait 0; OpCancelWait 0; OpCommitWait 0]
    = Ok (nf2, [EvUnblocked 0%nat]) /\
    run 1 (new_notifier 2) [OpPrepareWait 0; OpCancelWait 0; OpCancelWait 0] = Ok (nf3, []) /\
    state_ nf2 = state_ nf1 /\ nf3 = nf1 /\
    count_of (state_ nf1) = 0 /\
    stack_of (state_ nf1) = stack_of (state_ (new_notifier 2)).
Proof.
  apply (cancel_then_wait_again 0 (new_notifier 2) 0).
  - closed_word.
  - reflexivity.
  - cbn. lia.
Defined.

(** ** Nobody waiting *)

Lemma idle_fields (nf : Notifier) :
  idle nf ->
  exists e, fields_ok e 0 kStackMask /\ state_ nf = pack e 0 kStackMask.
Proof.
  intros Hidle. destruct (idle_parked nf Hidle) as [(e & He & Hst) _ _ _].
  exists e. split; [| exact Hst]. unfold fields_ok. change kStackMask with 65535.
  literals. lia.
Qed.

Lemma Notify_on_idle (fuel : nat) (nf : Notifier) (all : bool) :
  idle nf -> Notify (S fuel) nf all = Ok (nf, []).
Proof.
  intros Hidle. destruct (idle_fields nf Hidle) as (e & Hf & Hst).
  now apply (Notify_idle nf e 0 kStackMask Hf Hst fuel all).
Qed.

Lemma run_Notify_idle (fuel : nat) (nf : Notifier) (m : nat) :
  idle nf -> run (S fuel) nf (replicate m (OpNotify false)) = Ok (nf, []).
Proof.
  intros Hidle. induction m as [| m IH]; [reflexivity |].
  cbn [replicate]. rewrite (run_step (S fuel) nf nf (OpNotify false) _ []).
  - now rewrite IH.
  - cbn [exec]. now apply Notify_on_idle.
Qed.

(** X11: with nobody prepared and nobody parked, Notify(true),
    Notify(false) and NotifyN(n) for every n return at once and change
    neither the state word (the epoch included) nor any slot. *)
Theorem Notify_nobody_waiting (fuel : nat) (nf : Notifier) (all : bool) (n : nat) :
  idle nf ->
  Notify (S fuel) nf all = Ok (nf, []) /\ NotifyN (S fuel) nf n = Ok (nf, []).
Proof.
  intros Hidle. split; [now apply Notify_on_idle |].
  unfold NotifyN. destruct (Nat.leb_spec (length (waiters_ nf)) n).
  - now apply Notify_on_idle.
  - rewrite NotifyN_loop_run. now apply run_Notify_idle.
Qed.

Lemma Notify_nobody_waiting_witness :
  Notify 1 (new_notifier 2) true = Ok (new_notifier 2, []) /\
  NotifyN 1 (new_notifier 2) 1 = Ok (new_notifier 2, []).
Proof.
  apply (Notify_nobody_waiting 0 (new_notifier 2) true 1).
  apply new_notifier_idle. lia.
Defined.

(** ** Sleeping again and again *)

(** Notify, with either flag, on a stack that holds one waiter. *)
Lemma notify_single (fuel : nat) (nf : Notifier) (w : nat) (all : bool) :
  parked nf [w] ->
  exists nf' sl,
    Notify (S fuel) nf all = Ok (nf', [EvSignaled w Waiter.kWaiting]) /\
    idle nf' /\ length (waiters_ nf') = length (waiters_ nf) /\
    waiters_ nf' !! w = Some sl /\ Waiter.state_ sl = Waiter.kSignaled.
Proof.
  intros Hp. destruct all.
  - destruct Hp as [(e & He & Hst) Hcap [(hd & Hhd & Hwait & Hnext) _] _].
    cbn [head head_field] in Hst, Hnext.
    assert (Hw : (w < length (waiters_ nf))%nat) by (eapply lookup_lt_Some, Hhd).
    assert (Hf : fields_ok e 0 (Z.of_nat w)) by (unfold fields_ok; literals; lia).
    assert (Hne : Z.of_nat w <> kStackMask) by (change kStackMask with 65535; lia).
    pose proof (Notify_all_single nf e 0 (Z.of_nat w) Hf Hst fuel hd Hne) as Hall.
    rewrite Nat2Z.id, Hwait in Hall.
    eexists _, _. split; [apply Hall; assumption |].
    cbn [waiters_]. split; [| split; [apply length_insert | split]].
    + apply parked_idle. split; cbn [waiters_ state_ head head_field chain].
      * exists ((e + 0) mod 2 ^ 32). split; [divmod | reflexivity].
      * now rewrite length_insert.
      * exact I.
      * constructor.
    + now apply list_lookup_insert_eq.
    + reflexivity.
  - destruct (notify_one fuel nf [] w Hp) as (nf' & sl & Hrun & Hp' & Hsl & Hsig & Hfr).
    exists nf', sl. split; [exact Hrun |]. split; [now apply parked_idle |].
    split; [| easy].
    destruct Hp as [(e & He & Hst) Hcap [(hd & Hhd & Hwait & Hnext) _] _].
    cbn [head head_field] in Hst, Hnext.
    assert (Hf : fields_ok e 0 (Z.of_nat w)).
    { pose proof (lookup_lt_Some _ _ _ Hhd). unfold fields_ok. literals. lia. }
    assert (Hne : Z.of_nat w <> kStackMask).
    { pose proof (lookup_lt_Some _ _ _ Hhd). change kStackMask with 65535. lia. }
    pose proof (Notify_pop nf e 0 (Z.of_nat w) Hf Hst fuel hd eq_refl Hne) as Hpop.
    rewrite Nat2Z.id, Hnext in Hpop. cbn [head_field] in Hpop.
    rewrite Hpop in Hrun; [| exact Hhd | change kStackMask with 65535; literals; lia].
    injection Hrun as <- _. cbn [waiters_]. apply length_insert.
Qed.

Lemma wake_cycle_once (fuel : nat) (nf : Notifier) (c : nat * bool) :
  idle nf -> (fst c < length (waiters_ nf))%nat ->
  exists nf',
    run (S fuel) nf (wake_cycle c) = Ok (nf', wake_events c) /\
    idle nf' /\ length (waiters_ nf') = length (waiters_ nf).
Proof.
  intros Hidle Hw. destruct c as [w all]. cbn [fst snd] in *.
  destruct (park_one fuel nf [] w (idle_parked nf Hidle)) as (nf1 & Hrun1 & Hp1 & Hlen1 & _);
    [apply not_elem_of_nil | exact Hw |].
  destruct (notify_single fuel nf1 w all Hp1) as (nf2 & sl & Hrun2 & Hidle2 & Hlen2 & Hsl & Hsig).
  exists nf2. split; [| split; [exact Hidle2 | congruence]].
  change (wake_cycle (w, all))
    with ([OpPrepareWait w; OpCommitWait w] ++ [OpNotify all; OpResume w]).
  rewrite run_app, Hrun1, bind_Ok. cbn beta iota.
  rewrite (run_step (S fuel) nf1 nf2 (OpNotify all) _ _ Hrun2).
  rewrite (run_last (S fuel) nf2 nf2 (OpResume w) [EvUnblocked w]).
  - reflexivity.
  - cbn [exec]. now apply (resume_signaled nf2 w sl).
Qed.

(** X12: slots are reusable.  Any sequence of full sleeps (PrepareWait,
    CommitWait, Notify with either flag, wake-up), on any valid slots and
    with slots repeated at will, runs through on a notifier that starts
    idle: every CommitWait parks, also on a slot left Signaled by an
    earlier sleep, every Notify signals exactly that waiter, every woken
    waiter leaves CommitWait, and at the end the notifier is idle again,
    so its destructor's assertion holds. *)
Theorem wake_cycles (fuel : nat) (cs : list (nat * bool)) :
  forall nf : Notifier,
    idle nf ->
    (forall c, c ∈ cs -> (fst c < length (waiters_ nf))%nat) ->
    exists nf',
      run (S fuel) nf (flat_map wake_cycle cs) = Ok (nf', flat_map wake_events cs) /\
      idle nf' /\ length (waiters_ nf') = length (waiters_ nf) /\
      Notifier_dtor nf' = Ok tt.
Proof.
  induction cs as [| c cs IH]; intros nf Hidle Hcs.
  - exists nf. split; [reflexivity |]. split; [exact Hidle |].
    split; [reflexivity | now apply idle_dtor].
  - destruct (wake_cycle_once fuel nf c Hidle) as (nf1 & Hrun1 & Hidle1 & Hlen1);
      [apply Hcs; left |].
    destruct (IH nf1 Hidle1) as (nf2 & Hrun2 & Hidle2 & Hlen2 & Hdtor).
    { intros c' Hc'. rewrite Hlen1. apply Hcs. now right. }
    exists nf2. split; [| split; [exact Hidle2 | split; [congruence | exact Hdtor]]].
    cbn [flat_map]. rewrite run_app, Hrun1, bind_Ok. cbn beta iota.
    now rewrite Hrun2.
Qed.

Lemma wake_cycles_witness :
  exists nf',
    run 1 (new_notifier 2) (flat_map wake_cycle [(0%nat, true); (0%nat, false); (1%nat, true)])
    = Ok (nf', flat_map wake_events [(0%nat, true); (0%nat, false); (1%nat, true)]) /\
    idle nf' /\ length (waiters_ nf') = length (waiters_ (new_notifier 2)) /\
    Notifier_dtor nf' = Ok tt.
Proof.
  apply (wake_cycles 0 [(0%nat, true); (0%nat, false); (1%nat, true)] (new_notifier 2)).
  - apply new_notifier_idle. lia.
  - intros c Hc. cbn [new_notifier waiters_ replicate length].
    repeat (apply elem_of_cons in Hc as [-> | Hc]; [cbn; lia |]).
    now apply elem_of_nil in Hc.
Defined.

(** ** NotifyN below the capacity *)

(** More single notifications than parked waiters: the surplus calls find
    nobody and do nothing. *)
Lemma notify_seq_any (fuel : nat) (n : nat) (nf : Notifier) (l : list nat) :
  parked nf l ->
  exists nf',
    run (S fuel) nf (replicate n (OpNotify false))
    = Ok (nf', ((fun w => EvSignaled w Waiter.kWaiting) <$> take n l)) /\
    parked nf' (drop n l) /\
    (forall w, w ∈ take n l ->
       exists sl, waiters_ nf' !! w = Some sl /\
                  Waiter.state_ sl = Waiter.kSignaled).
Proof.
  intros Hp. destruct (Nat.le_gt_cases n (length l)) as [Hle | Hgt].
  - destruct (notify_seq fuel n nf l Hp Hle) as (nf' & Hrun & Hp' & Hsig & _).
    exists nf'. auto.
  - destruct (notify_seq fuel (length l) nf l Hp (Nat.le_refl _))
      as (nf' & Hrun & Hp' & Hsig & _).
    rewrite firstn_all in Hrun, Hsig. rewrite drop_all in Hp'.
    exists nf'. rewrite take_ge, drop_ge by lia.
    split; [| split; [exact Hp' | exact Hsig]].
    replace n with (length l + (n - length l))%nat at 1 by lia.
    rewrite replicate_add, run_app, Hrun, bind_Ok. cbn beta iota.
    rewrite run_Notify_idle by now apply parked_idle.
    rewrite bind_Ok. now rewrite app_nil_r.
Qed.

(** X13: NotifyN(n) with n below the capacity, on waiters parked one
    after the other, signals the min(n, k) most recently parked ones,
    latest first and each once; they leave CommitWait, the others stay
    blocked, and when n covers all of them the notifier is idle again. *)
Theorem NotifyN_below_capacity (fuel : nat) (nf : Notifier) (ws : list nat) (n : nat) :
  idle nf -> NoDup ws ->
  (forall w, w ∈ ws -> (w < length (waiters_ nf))%nat) ->
  (n < length (waiters_ nf))%nat ->
  exists nf1 nf2,
    run (S fuel) nf (park_ops ws) = Ok (nf1, (EvParked <$> ws)) /\
    NotifyN (S fuel) nf1 n
    = Ok (nf2, ((fun w => EvSignaled w Waiter.kWaiting) <$> take n (reverse ws))) /\
    (forall w, w ∈ take n (reverse ws) ->
       CommitWait_resume nf2 w = Ok (nf2, [EvUnblocked w])) /\
    (forall w, w ∈ drop n (reverse ws) ->
       CommitWait_resume nf2 w = Ok (nf2, [EvParked w])) /\
    ((length ws <= n)%nat -> idle nf2).
Proof.
  intros Hidle Hnd Hws Hn.
  destruct (park_all fuel ws nf [] (idle_parked nf Hidle) Hnd) as (nf1 & Hrun & Hp & Hlen).
  { intros w Hw. split; [apply not_elem_of_nil | now apply Hws]. }
  rewrite app_nil_r in Hp.
  destruct (notify_seq_any fuel n nf1 (reverse ws) Hp) as (nf2 & Hrun2 & Hp2 & Hsig).
  exists nf1, nf2. split; [exact Hrun |]. split; [| split; [| split]].
  - unfold NotifyN. destruct (Nat.leb_spec (length (waiters_ nf1)) n); [lia |].
    now rewrite NotifyN_loop_run.
  - intros w Hw. destruct (Hsig w Hw) as (sl & Hsl & Hs).
    now apply (resume_signaled nf2 w sl).
  - intros w Hw. destruct Hp2 as [_ _ Hch _].
    destruct (chain_waiting _ _ w Hch Hw) as (sl & Hsl & Hs).
    now apply (resume_waiting nf2 w sl).
  - intros Hall. apply parked_idle.
    rewrite drop_ge in Hp2 by (rewrite length_reverse; lia). exact Hp2.
Qed.

Lemma NotifyN_below_capacity_witness :
  exists nf1 nf2,
    run 1 (new_notifier 4) (park_ops [0; 1; 2]%nat) = Ok (nf1, (EvParked <$> [0; 1; 2]%nat)) /\
    NotifyN 1 nf1 2
    = Ok (nf2, ((fun w => EvSignaled w Waiter.kWaiting) <$> take 2 (reverse [0; 1; 2]%nat))) /\
    (forall w, w ∈ take 2 (reverse [0; 1; 2]%nat) ->
       CommitWait_resume nf2 w = Ok (nf2, [EvUnblocked w])) /\
    (forall w, w ∈ drop 2 (reverse [0; 1; 2]%nat) ->
       CommitWait_resume nf2 w = Ok (nf2, [EvParked w])) /\
    ((length [0; 1; 2]%nat <= 2)%nat -> idle nf2).
Proof.
  apply (NotifyN_below_capacity 0 (new_notifier 4) [0; 1; 2]%nat 2).
  - apply new_notifier_idle. lia.
  - nodup_nat.
  - below_length.
  - cbn. lia.
Defined.

(** ** The invariant of the data model is kept *)

Lemma links_ok_insert (nf nf' : Notifier) (i : nat) (x : Waiter.t) :
  waiters_ nf' = <[i := x]> (waiters_ nf) ->
  (forall j, Waiter.next_ x = Some j -> (j < length (waiters_ nf))%nat) ->
  links_ok nf -> links_ok nf'.
Proof.
  intros Hws Hx Hl k j sl Hk Hn. rewrite Hws in Hk |- *. rewrite length_insert.
  apply list_lookup_insert_Some in Hk as [(-> & <- & _) | (Hne & Hk)].
  - now apply Hx.
  - now apply (Hl k j sl).
Qed.

Lemma links_ok_same (nf nf' : Notifier) :
  waiters_ nf' = waiters_ nf -> links_ok nf -> links_ok nf'.
Proof. intros Hws Hl k j sl Hk Hn. rewrite Hws in Hk |- *. now apply (Hl k j sl). Qed.

Lemma links_ok_next (nf nf' : Notifier) :
  length (waiters_ nf') = length (waiters_ nf) ->
  (forall i, Waiter.next_ <$> waiters_ nf' !! i = Waiter.next_ <$> waiters_ nf !! i) ->
  links_ok nf -> links_ok nf'.
Proof.
  intros Hlen Hnext Hl k j sl Hk Hn. rewrite Hlen.
  pose proof (Hnext k) as Hkk. rewrite Hk in Hkk. cbn in Hkk.
  destruct (waiters_ nf !! k) as [sl0 |] eqn:Hk0; [| discriminate Hkk].
  cbn in Hkk. injection Hkk as Hkk. apply (Hl k j sl0 Hk0). congruence.
Qed.

Lemma wf_pack (nf : Notifier) (e c h : Z) :
  fields_ok e c h -> state_ nf = pack e c h ->
  Z.of_nat (length (waiters_ nf)) < 65535 ->
  (h = kStackMask \/ h < Z.of_nat (length (waiters_ nf))) ->
  links_ok nf -> wf nf.
Proof.
  intros Hf Hst Hcap Hh Hl. unfold wf. rewrite Hst, stack_of_pack by exact Hf.
  split; [apply pack_word, Hf | auto].
Qed.

Lemma wf_fields (nf : Notifier) :
  wf nf ->
  exists e c h,
    fields_ok e c h /\ state_ nf = pack e c h /\
    Z.of_nat (length (waiters_ nf)) < 65535 /\
    (h = kStackMask \/ (Z.to_nat h < length (waiters_ nf))%nat) /\
    (h = kStackMask \/ h < Z.of_nat (length (waiters_ nf))) /\
    links_ok nf.
Proof.
  intros (Hword & Hcap & Hstack & Hlinks).
  exists (epoch_of (state_ nf)), (count_of (state_ nf)), (stack_of (state_ nf)).
  pose proof (fields_range _ Hword) as Hf.
  split; [exact Hf |]. split; [apply unpack, Hword |]. split; [exact Hcap |].
  split; [| split; [exact Hstack | exact Hlinks]].
  destruct Hstack as [Hs | Hs]; [now left | right].
  destruct Hf as (_ & _ & Hh). lia.
Qed.

Lemma expected_epoch_word (snap : Z) : word64 (expected_epoch snap).
Proof.
  unfold expected_epoch, add64, wrap64, word64. apply Z.mod_pos_bound. now vm_compute.
Qed.

Lemma diff_zero (x y : Z) :
  word64 x -> word64 y -> to_int64 (sub64 x y) = 0 -> y = x.
Proof.
  unfold word64, to_int64, sub64, wrap64. intros Hx Hy.
  destruct (Z.ltb_spec ((x - y) mod 2 ^ 64) (2 ^ 63)); intros Hz; divmod.
Qed.

Section Asserts.
Variable nf : Notifier.
Variables e c h : Z.
Hypothesis Hf : fields_ok e c h.
Hypothesis Hst : state_ nf = pack e c h.

Lemma CommitWait_loop_assert (fuel w : nat) :
  c = 0 -> CommitWait_loop (S fuel) nf w (e * 2 ^ 32) (state_ nf) = AssertFailed.
Proof using Hf Hst.
  intros Hc. cbn [CommitWait_loop].
  rewrite Hst, land_epoch_pack, land_waiter_pack by assumption.
  rewrite epoch_diff_same. cbn [Z.ltb Z.compare]. subst c. reflexivity.
Qed.

Lemma CancelWait_loop_assert (fuel : nat) :
  c = 0 -> CancelWait_loop (S fuel) nf (e * 2 ^ 32) (state_ nf) = AssertFailed.
Proof using Hf Hst.
  intros Hc. cbn [CancelWait_loop].
  rewrite Hst, land_epoch_pack, land_waiter_pack by assumption.
  rewrite epoch_diff_same. cbn [Z.ltb Z.compare]. subst c. reflexivity.
Qed.

End Asserts.

Lemma PrepareWait_wf (nf nf' : Notifier) (w : nat) :
  wf nf -> PrepareWait nf w = Ok nf' ->
  wf nf' /\ length (waiters_ nf') = length (waiters_ nf).
Proof.
  intros Hwf Hrun.
  destruct (wf_fields nf Hwf) as (e & c & h & Hf & Hst & Hcap & _ & Hh & Hl).
  unfold PrepareWait in Hrun. cbn [set_state_word waiters_ state_ set_waiters] in Hrun.
  unfold slot in Hrun. destruct (waiters_ nf !! w) as [sl |] eqn:Hw; [| discriminate Hrun].
  rewrite bind_Ok in Hrun. injection Hrun as <-.
  cbn [waiters_ state_ set_waiters set_state_word].
  split; [| apply length_insert].
  assert (Hr : 0 <= e < 2 ^ 32 /\ 0 <= c < 2 ^ 16 /\ 0 <= h < 2 ^ 16) by exact Hf.
  assert (Hnew : exists e' c', fields_ok e' c' h /\ add64 (state_ nf) kWaiterInc = pack e' c' h).
  { destruct (Z.eq_dec c 65535) as [-> | Hc].
    - exists ((e + 1) mod 2 ^ 32), 0. split; [unfold fields_ok; divmod |].
      rewrite Hst. unfold add64, wrap64, pack. change kWaiterInc with (2 ^ 16).
      clear Hst Hf. divmod.
    - exists e, (c + 1). split; [unfold fields_ok; literals; lia |].
      rewrite Hst. apply prepare_pack; [exact Hf | literals; lia]. }
  destruct Hnew as (e' & c' & Hf' & Hnew).
  apply (wf_pack _ e' c' h Hf'); cbn [waiters_ state_ set_waiters set_state_word].
  - exact Hnew.
  - now rewrite length_insert.
  - now rewrite length_insert.
  - eapply (links_ok_insert nf _ w (Waiter.set_epoch (state_ nf) sl));
      [reflexivity | | exact Hl].
    intros j Hj. cbn in Hj. now apply (Hl w j sl).
Qed.

Lemma park_wf (nf nf' : Notifier) (w : nat) (ev : list event) :
  wf nf -> park nf w = Ok (nf', ev) ->
  wf nf' /\ length (waiters_ nf') = length (waiters_ nf).
Proof.
  intros Hwf Hrun. unfold park, slot in Hrun.
  destruct (waiters_ nf !! w) as [sl |] eqn:Hw; [| discriminate Hrun].
  rewrite bind_Ok in Hrun.
  destruct (Waiter.signal_eqb (Waiter.state_ sl) Waiter.kSignaled).
  - injection Hrun as <- _. easy.
  - injection Hrun as <- _. cbn [waiters_ set_waiters].
    split; [| apply length_insert].
    destruct Hwf as (Hword & Hcap & Hstack & Hlinks).
    unfold wf. cbn [waiters_ state_ set_waiters]. rewrite length_insert.
    repeat split; try assumption; try apply Hword.
    eapply (links_ok_insert nf _ w (Waiter.set_state Waiter.kWaiting sl));
      [reflexivity | | exact Hlinks].
    intros j Hj. cbn in Hj. now apply (Hlinks w j sl).
Qed.

Lemma CommitWait_asserts (nf : Notifier) (e c h : Z) (fuel w : nat) (sl : Waiter.t) :
  fields_ok e c h -> state_ nf = pack e c h ->
  waiters_ nf !! w = Some sl ->
  expected_epoch (Waiter.epoch_ sl) = e * 2 ^ 32 -> c = 0 ->
  CommitWait (S fuel) nf w = AssertFailed.
Proof.
  intros Hf Hst Hw HE Hc. unfold CommitWait.
  rewrite (slot_lookup _ _ _ Hw), bind_Ok. cbv zeta.
  set (nf0 := set_waiters _ nf). rewrite HE.
  rewrite (CommitWait_loop_assert nf0 e c h Hf Hst fuel w Hc). reflexivity.
Qed.

Lemma CommitWait_wf (fuel : nat) (nf nf' : Notifier) (w : nat) (ev : list event) :
  wf nf -> CommitWait fuel nf w = Ok (nf', ev) ->
  wf nf' /\ length (waiters_ nf') = length (waiters_ nf).
Proof.
  intros Hwf Hrun.
  destruct (wf_fields nf Hwf) as (e & c & h & Hf & Hst & Hcap & Hvalid & Hh & Hl).
  assert (Hr : 0 <= e < 2 ^ 32 /\ 0 <= c < 2 ^ 16 /\ 0 <= h < 2 ^ 16) by exact Hf.
  destruct (waiters_ nf !! w) as [sl |] eqn:Hw.
  2:{ unfold CommitWait, slot in Hrun. rewrite Hw in Hrun. discriminate Hrun. }
  assert (Hwlt : (w < length (waiters_ nf))%nat) by (eapply lookup_lt_Some, Hw).
  set (E := expected_epoch (Waiter.epoch_ sl)) in *.
  destruct (Z.lt_trichotomy (to_int64 (sub64 (e * 2 ^ 32) E)) 0) as [Hlt | [Heq | Hgt]].
  - rewrite (CommitWait_spins nf e c h fuel w sl Hf Hst Hw Hlt) in Hrun. discriminate Hrun.
  - destruct fuel as [| fuel].
    { unfold CommitWait in Hrun. rewrite (slot_lookup _ _ _ Hw) in Hrun. discriminate Hrun. }
    assert (HE : E = e * 2 ^ 32).
    { apply diff_zero; [| apply expected_epoch_word | exact Heq].
      unfold word64. literals. lia. }
    destruct (Z.eq_dec c 0) as [Hc | Hc].
    + rewrite (CommitWait_asserts nf e c h fuel w sl Hf Hst Hw HE Hc) in Hrun.
      discriminate Hrun.
    + rewrite (CommitWait_parks nf e c h Hf Hst fuel w sl Hw) in Hrun;
        [| literals; lia | lia | exact Hvalid | exact HE].
      injection Hrun as <- _. cbn [waiters_]. split; [| apply length_insert].
      apply (wf_pack _ ((e + 1) mod 2 ^ 32) (c - 1) (Z.of_nat w)); cbn [waiters_ state_].
      * unfold fields_ok. divmod.
      * reflexivity.
      * now rewrite length_insert.
      * right. rewrite length_insert. lia.
      * eapply (links_ok_insert nf _ w); [reflexivity | | exact Hl].
        intros j Hj. cbn in Hj. unfold link_of in Hj.
        destruct (Z.eqb_spec h kStackMask); [discriminate Hj |].
        injection Hj as <-. destruct Hvalid; [contradiction | assumption].
  - destruct fuel as [| fuel].
    { unfold CommitWait in Hrun. rewrite (slot_lookup _ _ _ Hw) in Hrun. discriminate Hrun. }
    rewrite (CommitWait_returns nf e c h Hf Hst fuel w sl Hw Hgt) in Hrun.
    injection Hrun as <- _. cbn [waiters_ set_waiters]. split; [| apply length_insert].
    apply (wf_pack _ e c h Hf); cbn [waiters_ state_ set_waiters].
    + exact Hst.
    + now rewrite length_insert.
    + now rewrite length_insert.
    + eapply (links_ok_insert nf _ w); [reflexivity | | exact Hl].
      intros j Hj. cbn in Hj. now apply (Hl w j sl).
Qed.

Lemma CancelWait_wf (fuel : nat) (nf nf' : Notifier) (w : nat) :
  wf nf -> CancelWait fuel nf w = Ok nf' ->
  wf nf' /\ length (waiters_ nf') = length (waiters_ nf).
Proof.
  intros Hwf Hrun.
  destruct (wf_fields nf Hwf) as (e & c & h & Hf & Hst & Hcap & Hvalid & Hh & Hl).
  assert (Hr : 0 <= e < 2 ^ 32 /\ 0 <= c < 2 ^ 16 /\ 0 <= h < 2 ^ 16) by exact Hf.
  destruct (waiters_ nf !! w) as [sl |] eqn:Hw.
  2:{ unfold CancelWait, slot in Hrun. rewrite Hw in Hrun. discriminate Hrun. }
  set (E := expected_epoch (Waiter.epoch_ sl)) in *.
  destruct (Z.lt_trichotomy (to_int64 (sub64 (e * 2 ^ 32) E)) 0) as [Hlt | [Heq | Hgt]].
  - rewrite (CancelWait_spins nf e c h fuel w sl Hf Hst Hw Hlt) in Hrun. discriminate Hrun.
  - unfold CancelWait in Hrun. rewrite (slot_lookup _ _ _ Hw), bind_Ok in Hrun.
    destruct fuel as [| fuel]; [discriminate Hrun |].
    fold E in Hrun.
    assert (HE : E = e * 2 ^ 32).
    { apply diff_zero; [| apply expected_epoch_word | exact Heq].
      unfold word64. literals. lia. }
    rewrite HE in Hrun.
    destruct (Z.eq_dec c 0) as [Hc | Hc].
    + rewrite (CancelWait_loop_assert nf e c h Hf Hst fuel Hc) in Hrun. discriminate Hrun.
    + rewrite (CancelWait_loop_resolve nf e c h Hf Hst fuel) in Hrun by lia.
      injection Hrun as <-. cbn [waiters_ set_state_word]. split; [| reflexivity].
      apply (wf_pack _ ((e + 1) mod 2 ^ 32) (c - 1) h); cbn [waiters_ state_ set_state_word];
        try assumption; try reflexivity.
      unfold fields_ok. divmod.
  - unfold CancelWait in Hrun. rewrite (slot_lookup _ _ _ Hw), bind_Ok in Hrun.
    destruct fuel as [| fuel]; [discriminate Hrun |].
    fold E in Hrun.
    rewrite (CancelWait_loop_return nf e c h Hf Hst fuel E Hgt) in Hrun.
    injection Hrun as <-. easy.
Qed.

Lemma walk_body_keeps (w i : nat) (st st' : walk_state) :
  walk_body w i st = Ok st' ->
  length (mem st') = length (mem st) /\
  forall k, Waiter.next_ <$> mem st' !! k = Waiter.next_ <$> mem st !! k.
Proof.
  unfold walk_body, slot.
  destruct (mem st !! w); [| discriminate]. rewrite bind_Ok.
  destruct (mem st !! i) as [it |] eqn:Hi; [| discriminate]. rewrite bind_Ok.
  intros [= <-]. cbn [mem]. split; [apply length_insert |].
  intros k. destruct (decide (k = i)) as [-> | Hne].
  - rewrite list_lookup_insert_eq by (eapply lookup_lt_Some, Hi). now rewrite Hi.
  - now rewrite list_lookup_insert_ne by congruence.
Qed.

(** The signaling loop writes signal states only. *)
Lemma walk_keeps (fuel : nat) (w : nat) :
  forall st st' : walk_state,
    walk fuel w st = Ok st' ->
    length (mem st') = length (mem st) /\
    forall k, Waiter.next_ <$> mem st' !! k = Waiter.next_ <$> mem st !! k.
Proof.
  induction fuel as [| fuel IH]; intros [it slots evs] st' Hrun;
    destruct it as [i |]; cbn [walk iter] in Hrun;
    try discriminate Hrun; try (injection Hrun as <-; easy).
  destruct (walk_body w i (mkWalk (Some i) slots evs)) as [st1 | | | |] eqn:Hbody;
    try discriminate Hrun.
  rewrite bind_Ok in Hrun.
  destruct (walk_body_keeps _ _ _ _ Hbody) as [Hlen1 Hnext1].
  destruct (IH st1 st' Hrun) as [Hlen2 Hnext2].
  split; [congruence |]. intros k. now rewrite Hnext2, Hnext1.
Qed.

Lemma Notify_wf (fuel : nat) (nf nf' : Notifier) (all : bool) (ev : list event) :
  wf nf -> Notify fuel nf all = Ok (nf', ev) ->
  wf nf' /\ length (waiters_ nf') = length (waiters_ nf).
Proof.
  intros Hwf Hrun.
  destruct (wf_fields nf Hwf) as (e & c & h & Hf & Hst & Hcap & Hvalid & Hh & Hl).
  assert (Hr : 0 <= e < 2 ^ 32 /\ 0 <= c < 2 ^ 16 /\ 0 <= h < 2 ^ 16) by exact Hf.
  destruct fuel as [| fuel]; [discriminate Hrun |].
  destruct (Z.eq_dec h kStackMask) as [Hm | Hm].
  - (* nobody parked *)
    destruct (Z.eq_dec c 0) as [Hc | Hc].
    + rewrite (Notify_idle nf e c h Hf Hst fuel all Hc Hm) in Hrun.
      injection Hrun as <- _. easy.
    + assert (Hnew : exists e', 0 <= e' < 2 ^ 32 /\
                Notify (S fuel) nf all = Ok (set_state_word (pack e' (if all then 0 else c - 1) h) nf, [])).
      { destruct all.
        - exists ((e + c) mod 2 ^ 32). split; [divmod |].
          rewrite (Notify_all_empty nf e c h Hf Hst fuel Hm). now rewrite Hm.
        - exists ((e + 1) mod 2 ^ 32). split; [divmod |].
          apply (Notify_false_prepared nf e c h Hf Hst fuel). lia. }
      destruct Hnew as (e' & He' & Hnew). rewrite Hnew in Hrun.
      injection Hrun as <- _. cbn [waiters_ set_state_word]. split; [| reflexivity].
      apply (wf_pack _ e' (if all then 0 else c - 1) h);
        cbn [waiters_ state_ set_state_word]; try assumption; try reflexivity.
      unfold fields_ok. destruct all; literals; lia.
  - (* somebody parked *)
    destruct Hvalid as [| Hlt]; [contradiction |].
    destruct (lookup_lt_is_Some_2 _ _ Hlt) as [hd Hhd].
    destruct all.
    + unfold Notify in Hrun.
      rewrite (Notify_loop_all nf e c h Hf Hst fuel) in Hrun; [| tauto | now right].
      rewrite bind_Ok in Hrun. unfold link_of in Hrun.
      destruct (Z.eqb_spec h kStackMask) as [| _]; [contradiction |].
      destruct (walk (S fuel) (Z.to_nat h) (mkWalk (Some (Z.to_nat h)) (waiters_ nf) []))
        as [st | | | |] eqn:Hwalk; try discriminate Hrun.
      rewrite bind_Ok in Hrun. injection Hrun as <- _.
      destruct (walk_keeps _ _ _ _ Hwalk) as [Hlen Hnext]. cbn [mem] in Hlen, Hnext.
      cbn [waiters_ set_waiters set_state_word]. split; [| exact Hlen].
      apply (wf_pack _ ((e + c) mod 2 ^ 32) 0 (2 ^ 16 - 1));
        cbn [waiters_ state_ set_waiters set_state_word].
      * unfold fields_ok. divmod.
      * reflexivity.
      * now rewrite Hlen.
      * now left.
      * apply (links_ok_next nf); cbn [waiters_ set_waiters set_state_word]; assumption.
    + destruct (Z.eq_dec c 0) as [Hc | Hc].
      * assert (Hnext : 0 <= head_field (Waiter.next_ hd) < 2 ^ 16 /\
                        (head_field (Waiter.next_ hd) = kStackMask \/
                         head_field (Waiter.next_ hd) < Z.of_nat (length (waiters_ nf)))).
        { destruct (Waiter.next_ hd) as [j |] eqn:Hj; cbn [head_field].
          - pose proof (Hl _ _ _ Hhd Hj). literals. lia.
          - change kStackMask with 65535. literals. lia. }
        destruct Hnext as [Hnext Hnv].
        rewrite (Notify_pop nf e c h Hf Hst fuel hd Hc Hm Hhd Hnext) in Hrun.
        injection Hrun as <- _. cbn [waiters_]. split; [| apply length_insert].
        apply (wf_pack _ e 0 (head_field (Waiter.next_ hd))); cbn [waiters_ state_].
        -- unfold fields_ok. lia.
        -- reflexivity.
        -- now rewrite length_insert.
        -- now rewrite length_insert.
        -- eapply (links_ok_insert nf _ (Z.to_nat h)); [reflexivity | | exact Hl].
           intros j Hj. discriminate Hj.
      * rewrite (Notify_false_prepared nf e c h Hf Hst fuel) in Hrun by lia.
        injection Hrun as <- _. cbn [waiters_ set_state_word]. split; [| reflexivity].
        apply (wf_pack _ ((e + 1) mod 2 ^ 32) (c - 1) h);
          cbn [waiters_ state_ set_state_word]; try assumption; try reflexivity.
        unfold fields_ok. divmod.
Qed.

Lemma NotifyN_loop_wf (fuel : nat) (k : nat) :
  forall (nf nf' : Notifier) (ev : list event),
    wf nf -> NotifyN_loop fuel nf k = Ok (nf', ev) ->
    wf nf' /\ length (waiters_ nf') = length (waiters_ nf).
Proof.
  induction k as [| k IH]; intros nf nf' ev Hwf Hrun; cbn [NotifyN_loop] in Hrun.
  - injection Hrun as <- _. easy.
  - destruct (Notify fuel nf false) as [[nf1 ev1] | | | |] eqn:Hn; try discriminate Hrun.
    rewrite bind_Ok in Hrun. cbn beta iota in Hrun.
    destruct (NotifyN_loop fuel nf1 k) as [[nf2 ev2] | | | |] eqn:Hk; try discriminate Hrun.
    rewrite bind_Ok in Hrun. injection Hrun as <- _.
    destruct (Notify_wf _ _ _ _ _ Hwf Hn) as [Hwf1 Hlen1].
    destruct (IH _ _ _ Hwf1 Hk) as [Hwf2 Hlen2].
    split; [exact Hwf2 | congruence].
Qed.

Lemma exec_wf (fuel : nat) (nf nf' : Notifier) (o : op) (ev : list event) :
  wf nf -> exec fuel nf o = Ok (nf', ev) ->
  wf nf' /\ length (waiters_ nf') = length (waiters_ nf).
Proof.
  intros Hwf Hrun. destruct o as [w | w | w | w | all | n]; cbn [exec] in Hrun.
  - destruct (PrepareWait nf w) as [nf1 | | | |] eqn:Hp; try discriminate Hrun.
    rewrite bind_Ok in Hrun. injection Hrun as <- _. now apply (PrepareWait_wf nf nf1 w).
  - now apply (CommitWait_wf fuel nf nf' w ev).
  - destruct (CancelWait fuel nf w) as [nf1 | | | |] eqn:Hc; try discriminate Hrun.
    rewrite bind_Ok in Hrun. injection Hrun as <- _. now apply (CancelWait_wf fuel nf nf1 w).
  - now apply (park_wf nf nf' w ev).
  - now apply (Notify_wf fuel nf nf' all ev).
  - unfold NotifyN in Hrun. destruct (length (waiters_ nf) <=? n)%nat.
    + now apply (Notify_wf fuel nf nf' true ev).
    + now apply (NotifyN_loop_wf fuel n nf nf' ev).
Qed.

Lemma run_wf (fuel : nat) (ops : list op) :
  forall (nf nf' : Notifier) (ev : list event),
    wf nf -> run fuel nf ops = Ok (nf', ev) ->
    wf nf' /\ length (waiters_ nf') = length (waiters_ nf).
Proof.
  induction ops as [| o ops IH]; intros nf nf' ev Hwf Hrun; cbn [run] in Hrun.
  - injection Hrun as <- _. easy.
  - destruct (exec fuel nf o) as [[nf1 ev1] | | | |] eqn:Ho; try discriminate Hrun.
    rewrite bind_Ok in Hrun. cbn beta iota in Hrun.
    destruct (run fuel nf1 ops) as [[nf2 ev2] | | | |] eqn:Hr; try discriminate Hrun.
    rewrite bind_Ok in Hrun. injection Hrun as <- _.
    destruct (exec_wf _ _ _ _ _ Hwf Ho) as [Hwf1 Hlen1].
    destruct (IH _ _ _ Hwf1 Hr) as [Hwf2 Hlen2].
    split; [exact Hwf2 | congruence].
Qed.

(** X14: the invariants of the data model hold in every state a
    constructed notifier reaches.  After any sequence of PrepareWait,
    CommitWait, CancelWait, wake-up, Notify and NotifyN calls that all
    return or park, on any slots, the state word is a 64-bit word, its
    stack head is the empty sentinel or the index of a slot, every link
    points to a slot, and the capacity is the one given at construction:
    GetWaiter answers as it did on the new notifier. *)
Theorem reachable_invariant (can_hold : nat -> bool) (fuel : nat) (N : nat)
    (ops : list op) (nf0 nf : Notifier) (ev : list event) :
  Notifier_ctor can_hold N = Ok nf0 -> run fuel nf0 ops = Ok (nf, ev) ->
  wf nf /\ length (waiters_ nf) = N /\
  forall idx, GetWaiter nf idx = GetWaiter nf0 idx.
Proof.
  intros Hctor Hrun.
  destruct (Notifier_ctor_inv _ _ _ Hctor) as (_ & HN & ->). clear Hctor.
  change (mkNotifier _ _) with (new_notifier N) in *.
  assert (Hwf0 : wf (new_notifier N)).
  { apply idle_wf; [now apply new_notifier_idle | apply new_notifier_links]. }
  destruct (run_wf fuel ops _ _ _ Hwf0 Hrun) as [Hwf Hlen].
  assert (Hlen0 : length (waiters_ (new_notifier N)) = N) by apply length_replicate.
  split; [exact Hwf |]. split; [congruence |].
  intros idx. unfold GetWaiter. now rewrite Hlen.
Qed.

Lemma reachable_invariant_witness :
  wf demo_two_parked /\ length (waiters_ demo_two_parked) = 2%nat /\
  forall idx, GetWaiter demo_two_parked idx = GetWaiter (new_notifier 2) idx.
Proof.
  apply (reachable_invariant (holds_up_to (2 ^ 63 - 1)) 1 2 (park_ops [0; 1]%nat)
           (new_notifier 2) demo_two_parked
           [EvParked 0%nat; EvParked 1%nat]); reflexivity.
Defined.


(** ** PrepareWait undone by CancelWait *)

Lemma expects_frame (a a' : Notifier) (x : nat) (ep : Z) :
  Waiter.epoch_ <$> waiters_ a' !! x = Waiter.epoch_ <$> waiters_ a !! x ->
  expects a x ep -> expects a' x ep.
Proof.
  intros Heq (sl & Hsl & Hexp). rewrite Hsl in Heq. cbn in Heq.
  apply fmap_Some in Heq as (sl' & Hsl' & Hep).
  exists sl'. split; [exact Hsl' | congruence].
Qed.

(** Announced waiters are distinct: their expected epochs differ. *)
Lemma announced_NoDup (nf : Notifier) (xs : list nat) : announced nf xs -> NoDup xs.
Proof.
  intros ((Hword & _) & Hc & Hex). apply NoDup_alt. intros i j x Hi Hj.
  destruct (Hex i x Hi) as (sl & Hsl & He1).
  destruct (Hex j x Hj) as (sl' & Hsl' & He2).
  rewrite Hsl in Hsl'. injection Hsl' as <-. rewrite He1 in He2.
  pose proof (fields_range _ Hword) as (He & Hcr & _).
  apply lookup_lt_Some in Hi, Hj.
  set (e := epoch_of (state_ nf)) in *. set (c := count_of (state_ nf)) in *.
  clearbody e c. clear Hex He1 Hsl.
  assert (Z.of_nat i = Z.of_nat j); [divmod | lia].
Qed.

(** With one more slot free, the prepare-count has room for one more. *)
Lemma announced_room (nf : Notifier) (xs : list nat) (w : nat) :
  announced nf xs -> (w < length (waiters_ nf))%nat -> w ∉ xs ->
  Z.of_nat (length xs) + 1 < 2 ^ 16.
Proof.
  intros Han Hw Hnot. pose proof (announced_NoDup _ _ Han) as Hnd.
  destruct Han as ((_ & Hcap & _) & _ & Hex).
  assert (Hsub : (w :: xs) ⊆+ seq 0 (length (waiters_ nf))).
  { apply NoDup_submseteq; [apply NoDup_cons; split; assumption |].
    intros x Hx. apply elem_of_seq.
    apply elem_of_cons in Hx as [-> | Hx]; [lia |].
    apply list_elem_of_lookup in Hx as (j & Hj).
    destruct (Hex j x Hj) as (sl & Hsl & _). apply lookup_lt_Some in Hsl. lia. }
  apply submseteq_length in Hsub. rewrite length_seq in Hsub. cbn [length] in Hsub.
  literals. lia.
Qed.

(** With the prepare-count at zero nobody is announced. *)
Lemma announced_nil (nf : Notifier) :
  wf nf -> count_of (state_ nf) = 0 -> announced nf [].
Proof.
  intros Hwf Hc. split; [exact Hwf |]. split; [exact Hc |].
  intros j x Hj. discriminate Hj.
Qed.

(** PrepareWait announces its waiter behind those already announced:
    the states with announced waiters are the ones PrepareWait leads to. *)
Lemma PrepareWait_announces (nf : Notifier) (xs : list nat) (w : nat) :
  announced nf xs -> (w < length (waiters_ nf))%nat -> w ∉ xs ->
  exists nf', PrepareWait nf w = Ok nf' /\ announced nf' (xs ++ [w]).
Proof.
  intros Han Hw Hnot.
  pose proof (announced_room nf xs w Han Hw Hnot) as Hroom.
  destruct Han as (Hwf & Hc & Hex).
  destruct (wf_fields nf Hwf) as (e & c & h & Hf & Hst & _).
  rewrite Hst, count_of_pack in Hc by exact Hf.
  rewrite Hst, epoch_of_pack in Hex by exact Hf.
  destruct (lookup_lt_is_Some_2 _ _ Hw) as [sl Hsl].
  assert (Hfa : fields_ok e (c + 1) h) by (unfold fields_ok in *; lia).
  pose proof (PrepareWait_pack nf e c h Hf Hst w sl Hsl ltac:(lia)) as Hprep.
  eexists. split; [exact Hprep |].
  split; [apply (PrepareWait_wf nf _ w Hwf Hprep) |].
  cbn [state_ waiters_]. rewrite count_of_pack, epoch_of_pack by exact Hfa.
  split; [rewrite length_app, Nat2Z.inj_add; cbn [length]; lia |].
  intros j x Hj. unfold expects. cbn [waiters_].
  apply lookup_app_Some in Hj as [Hj | [Hge Hj]].
  - destruct (Hex j x Hj) as (sx & Hsx & Hexp). exists sx. split; [| exact Hexp].
    rewrite list_lookup_insert_ne; [exact Hsx |].
    intros ->. apply Hnot. eapply list_elem_of_lookup_2, Hj.
  - destruct (j - length xs)%nat as [| k] eqn:Hk; [| discriminate Hj].
    injection Hj as <-. eexists. split; [apply list_lookup_insert_eq, Hw |].
    cbn [Waiter.epoch_ Waiter.set_epoch].
    rewrite (expected_epoch_pack e c h Hf). do 2 f_equal. lia.
Qed.

Lemma announced_tail (nf nf' : Notifier) (e c h h' : Z) (x : nat) (xs : list nat) :
  announced nf (x :: xs) -> fields_ok e c h -> state_ nf = pack e c h ->
  wf nf' -> state_ nf' = pack ((e + 1) mod 2 ^ 32) (c - 1) h' -> 0 <= h' < 2 ^ 16 ->
  (forall j, Waiter.epoch_ <$> waiters_ nf' !! j = Waiter.epoch_ <$> waiters_ nf !! j) ->
  announced nf' xs.
Proof.
  intros (_ & Hc & Hex) Hf Hst Hwf' Hst' Hh' Hep.
  rewrite Hst, count_of_pack in Hc by exact Hf.
  rewrite Hst, epoch_of_pack in Hex by exact Hf.
  cbn [length] in Hc.
  assert (Hf' : fields_ok ((e + 1) mod 2 ^ 32) (c - 1) h').
  { unfold fields_ok in *. split; [apply Z.mod_pos_bound |]; lia. }
  split; [exact Hwf' |]. rewrite Hst', count_of_pack, epoch_of_pack by exact Hf'.
  split; [lia |].
  intros j y Hj. apply (expects_frame nf); [apply Hep |].
  pose proof (Hex (S j) y Hj) as Hy. rewrite Nat2Z.inj_succ in Hy.
  rewrite Zplus_mod_idemp_l.
  replace (e + 1 + Z.of_nat j) with (e + Z.succ (Z.of_nat j)) by lia. exact Hy.
Qed.

(** The oldest announced waiter leaves the list when it ends its wait by
    CommitWait or CancelWait, and when a Notify(false) takes it. *)
Lemma announced_advance (fuel : nat) (nf : Notifier) (x : nat) (xs : list nat) (o : op) :
  announced nf (x :: xs) ->
  o = OpCommitWait x \/ o = OpCancelWait x \/ o = OpNotify false ->
  exists nf' ev, exec (S fuel) nf o = Ok (nf', ev) /\ announced nf' xs.
Proof.
  intros Han Ho. pose proof Han as (Hwf & Hc & Hex).
  destruct (wf_fields nf Hwf) as (e & c & h & Hf & Hst & Hcap & Hh & _ & _).
  rewrite Hst, count_of_pack in Hc by exact Hf.
  rewrite Hst, epoch_of_pack in Hex by exact Hf.
  cbn [length] in Hc.
  destruct (Hex 0%nat x eq_refl) as (sl & Hsl & Hexp).
  change (Z.of_nat 0) with 0 in Hexp.
  rewrite Z.add_0_r, Z.mod_small in Hexp by apply Hf.
  assert (Hxlt : (x < length (waiters_ nf))%nat) by (eapply lookup_lt_Some, Hsl).
  assert (Hhr : 0 <= h < 2 ^ 16) by apply Hf.
  destruct Ho as [-> | [-> | ->]]; cbn [exec].
  - pose proof (CommitWait_parks nf e c h Hf Hst fuel x sl Hsl ltac:(literals; lia)
                  ltac:(lia) Hh Hexp) as Hrun.
    eexists _, _. split; [exact Hrun |].
    apply (announced_tail nf _ e c h (Z.of_nat x) x xs Han Hf Hst).
    + apply (CommitWait_wf _ _ _ _ _ Hwf Hrun).
    + reflexivity.
    + literals. lia.
    + intros j. cbn [waiters_]. destruct (decide (j = x)) as [-> | Hne].
      * rewrite list_lookup_insert_eq, Hsl by exact Hxlt. reflexivity.
      * rewrite list_lookup_insert_ne by congruence. reflexivity.
  - assert (Hrun : CancelWait (S fuel) nf x
                   = Ok (set_state_word (pack ((e + 1) mod 2 ^ 32) (c - 1) h) nf)).
    { unfold CancelWait. rewrite (slot_lookup _ _ _ Hsl), bind_Ok, Hexp.
      apply (CancelWait_loop_resolve nf e c h Hf Hst fuel). lia. }
    rewrite Hrun, bind_Ok. eexists _, _. split; [reflexivity |].
    apply (announced_tail nf _ e c h h x xs Han Hf Hst).
    + apply (CancelWait_wf _ _ _ _ Hwf Hrun).
    + reflexivity.
    + exact Hhr.
    + intros j. reflexivity.
  - pose proof (Notify_false_prepared nf e c h Hf Hst fuel ltac:(lia)) as Hrun.
    eexists _, _. split; [exact Hrun |].
    apply (announced_tail nf _ e c h h x xs Han Hf Hst).
    + apply (Notify_wf _ _ _ _ _ Hwf Hrun).
    + reflexivity.
    + exact Hhr.
    + intros j. reflexivity.
Qed.

(** One announced waiter resolves on two notifiers that differ by one
    announcement behind it: the same step on both. *)
Lemma resolve_step (fuel : nat) (a b : Notifier) (e ca cb h : Z) (x : nat) (k : bool) :
  fields_ok e ca h -> ca = cb + 1 -> 1 <= cb ->
  state_ a = pack e ca h -> state_ b = pack e cb h ->
  same_slots a b ->
  Z.of_nat (length (waiters_ b)) < 65535 ->
  (h = kStackMask \/ (Z.to_nat h < length (waiters_ b))%nat) ->
  expects a x e -> expects b x e ->
  exists a1 b1 ev h1,
    exec (S fuel) a (if k then OpCommitWait x else OpCancelWait x) = Ok (a1, ev) /\
    exec (S fuel) b (if k then OpCommitWait x else OpCancelWait x) = Ok (b1, ev) /\
    state_ a1 = pack ((e + 1) mod 2 ^ 32) (ca - 1) h1 /\
    state_ b1 = pack ((e + 1) mod 2 ^ 32) (cb - 1) h1 /\
    fields_ok ((e + 1) mod 2 ^ 32) (ca - 1) h1 /\
    (h1 = kStackMask \/ (Z.to_nat h1 < length (waiters_ b1))%nat) /\
    same_slots a1 b1 /\
    length (waiters_ b1) = length (waiters_ b) /\
    (forall j, Waiter.epoch_ <$> waiters_ a1 !! j = Waiter.epoch_ <$> waiters_ a !! j) /\
    (forall j, Waiter.epoch_ <$> waiters_ b1 !! j = Waiter.epoch_ <$> waiters_ b !! j).
Proof.
  intros Hfa Hca Hcb Hsa Hsb (Hlen & Hslots) Hcap Hh (sa & Hxa & Hea) (sb & Hxb & Heb).
  assert (Hfb : fields_ok e cb h) by (unfold fields_ok in *; lia).
  assert (Hxlt : (x < length (waiters_ b))%nat) by (eapply lookup_lt_Some, Hxb).
  assert (Hx16 : Z.of_nat x < 2 ^ 16) by (literals; lia).
  assert (Hmod : 0 <= (e + 1) mod 2 ^ 32 < 2 ^ 32) by (apply Z.mod_pos_bound; lia).
  destruct k.
  - exists (mkNotifier
              (<[x := Waiter.mk (link_of h) (Waiter.epoch_ sa) Waiter.kWaiting]> (waiters_ a))
              (pack ((e + 1) mod 2 ^ 32) (ca - 1) (Z.of_nat x))),
           (mkNotifier
              (<[x := Waiter.mk (link_of h) (Waiter.epoch_ sb) Waiter.kWaiting]> (waiters_ b))
              (pack ((e + 1) mod 2 ^ 32) (cb - 1) (Z.of_nat x))),
           [EvParked x], (Z.of_nat x).
    cbn [exec waiters_ state_].
    split; [apply (CommitWait_parks a e ca h Hfa Hsa fuel x sa Hxa Hx16);
            [lia | rewrite Hlen; exact Hh | exact Hea] |].
    split; [apply (CommitWait_parks b e cb h Hfb Hsb fuel x sb Hxb Hx16 Hcb Hh Heb) |].
    split; [reflexivity |]. split; [reflexivity |].
    split; [unfold fields_ok in *; lia |].
    split; [right; rewrite Nat2Z.id, length_insert; exact Hxlt |].
    split; [| split; [apply length_insert |]].
    + split; cbn [waiters_]; [rewrite !length_insert; exact Hlen |].
      intros j. destruct (decide (j = x)) as [-> | Hne].
      * rewrite !list_lookup_insert_eq by lia. split; reflexivity.
      * rewrite !list_lookup_insert_ne by congruence. apply Hslots.
    + split; intros j; (destruct (decide (j = x)) as [-> | Hne];
        [rewrite list_lookup_insert_eq by lia; first [rewrite Hxa | rewrite Hxb];
         reflexivity
        | rewrite list_lookup_insert_ne by congruence; reflexivity]).
  - exists (set_state_word (pack ((e + 1) mod 2 ^ 32) (ca - 1) h) a),
           (set_state_word (pack ((e + 1) mod 2 ^ 32) (cb - 1) h) b),
           [], h.
    cbn [exec waiters_ state_ set_state_word].
    split.
    { unfold CancelWait. rewrite (slot_lookup _ _ _ Hxa), bind_Ok, Hea.
      rewrite (CancelWait_loop_resolve a e ca h Hfa Hsa fuel) by lia. reflexivity. }
    split.
    { unfold CancelWait. rewrite (slot_lookup _ _ _ Hxb), bind_Ok, Heb.
      rewrite (CancelWait_loop_resolve b e cb h Hfb Hsb fuel) by lia. reflexivity. }
    split; [reflexivity |]. split; [reflexivity |].
    split; [unfold fields_ok in *; lia |].
    split; [exact Hh |]. split; [split; assumption |].
    split; [reflexivity |]. split; reflexivity.
Qed.

(** The announced waiters [xs] resolve on both notifiers alike. *)
Lemma resolve_sim (fuel : nat) (xs : list nat) :
  forall (commit : list bool) (a b : Notifier) (e ca cb h : Z),
    length commit = length xs ->
    fields_ok e ca h -> ca = cb + 1 -> Z.of_nat (length xs) <= cb ->
    state_ a = pack e ca h -> state_ b = pack e cb h ->
    same_slots a b ->
    Z.of_nat (length (waiters_ b)) < 65535 ->
    (h = kStackMask \/ (Z.to_nat h < length (waiters_ b))%nat) ->
    (forall (j x : nat), xs !! j = Some x ->
       expects a x ((e + Z.of_nat j) mod 2 ^ 32) /\
       expects b x ((e + Z.of_nat j) mod 2 ^ 32)) ->
    exists a1 b1 ev h1,
      run (S fuel) a (resolve xs commit) = Ok (a1, ev) /\
      run (S fuel) b (resolve xs commit) = Ok (b1, ev) /\
      state_ a1 = pack ((e + Z.of_nat (length xs)) mod 2 ^ 32)
                       (ca - Z.of_nat (length xs)) h1 /\
      state_ b1 = pack ((e + Z.of_nat (length xs)) mod 2 ^ 32)
                       (cb - Z.of_nat (length xs)) h1 /\
      fields_ok ((e + Z.of_nat (length xs)) mod 2 ^ 32)
                (ca - Z.of_nat (length xs)) h1 /\
      same_slots a1 b1 /\
      length (waiters_ b1) = length (waiters_ b) /\
      (forall j, Waiter.epoch_ <$> waiters_ a1 !! j = Waiter.epoch_ <$> waiters_ a !! j).
Proof.
  induction xs as [| x xs IH];
    intros commit a b e ca cb h Hlc Hfa Hca Hcb Hsa Hsb Hsame Hcap Hh Hex.
  - destruct commit; [| discriminate Hlc]. exists a, b, [], h.
    cbn [resolve zip_with run length]. change (Z.of_nat 0) with 0.
    rewrite Z.add_0_r, !Z.sub_0_r, Z.mod_small by apply Hfa.
    repeat (split; [first [reflexivity | assumption] |]). reflexivity.
  - destruct commit as [| k commit]; [discriminate Hlc |].
    injection Hlc as Hlc. cbn [length] in Hcb.
    destruct (Hex 0%nat x eq_refl) as [Hxa Hxb].
    change (Z.of_nat 0) with 0 in Hxa, Hxb.
    rewrite Z.add_0_r, Z.mod_small in Hxa, Hxb by apply Hfa.
    destruct (resolve_step fuel a b e ca cb h x k Hfa Hca ltac:(lia) Hsa Hsb
                Hsame Hcap Hh Hxa Hxb)
      as (a1 & b1 & ev1 & h1 & Hea & Heb & Hsa1 & Hsb1 & Hf1 & Hh1 & Hsame1 & Hlen1
          & Hepa & Hepb).
    destruct (IH commit a1 b1 ((e + 1) mod 2 ^ 32) (ca - 1) (cb - 1) h1 Hlc Hf1
                ltac:(lia) ltac:(lia) Hsa1 Hsb1 Hsame1 ltac:(lia) Hh1)
      as (a2 & b2 & ev2 & h2 & Hra & Hrb & Hsa2 & Hsb2 & Hf2 & Hsame2 & Hlen2 & Hepa2).
    { intros j y Hj. destruct (Hex (S j) y Hj) as [Hya Hyb].
      rewrite Nat2Z.inj_succ in Hya, Hyb.
      rewrite Zplus_mod_idemp_l.
      replace (e + 1 + Z.of_nat j) with (e + Z.succ (Z.of_nat j)) by lia.
      split; [exact (expects_frame _ _ _ _ (Hepa y) Hya)
             | exact (expects_frame _ _ _ _ (Hepb y) Hyb)]. }
    assert (Hep : ((e + 1) mod 2 ^ 32 + Z.of_nat (length xs)) mod 2 ^ 32
                  = (e + Z.of_nat (length (x :: xs))) mod 2 ^ 32).
    { cbn [length]. rewrite Nat2Z.inj_succ, Zplus_mod_idemp_l. f_equal. lia. }
    assert (Hcnt : forall c, c - 1 - Z.of_nat (length xs)
                             = c - Z.of_nat (length (x :: xs))).
    { intros c. cbn [length]. lia. }
    rewrite Hep, !Hcnt in *.
    exists a2, b2, (ev1 ++ ev2), h2.
    change (resolve (x :: xs) (k :: commit))
      with ((if k then OpCommitWait x else OpCancelWait x) :: resolve xs commit).
    rewrite (run_step _ _ _ _ _ _ Hea), Hra, bind_Ok.
    rewrite (run_step _ _ _ _ _ _ Heb), Hrb, bind_Ok.
    split; [reflexivity |]. split; [reflexivity |].
    split; [exact Hsa2 |]. split; [exact Hsb2 |]. split; [exact Hf2 |].
    split; [exact Hsame2 |]. split; [congruence |].
    intros j. now rewrite Hepa2, Hepa.
Qed.

(** C5: PrepareWait(w) followed by CancelWait(w), with no Notify in
    between, leaves the notifier as if PrepareWait(w) had never been
    called.  In any state of the data-model invariant, with any waiters
    [xs] announced before [w] and still unresolved (none when [xs] is
    empty): the program PrepareWait(w), the waits of [xs] ended in their
    order by CommitWait or CancelWait, CancelWait(w) returns, and so does
    the program without the two calls on [w]; both give the same events
    and end with the same capacity, the same stack head, the same link and
    signal state in every slot and the prepare-count back at zero.  The
    epoch field alone tells them apart: it is one higher. *)
Theorem PrepareWait_CancelWait_symmetry (fuel : nat) (nf : Notifier)
    (xs : list nat) (commit : list bool) (w : nat) :
  announced nf xs -> length commit = length xs ->
  (w < length (waiters_ nf))%nat -> w ∉ xs ->
  exists nf1 nf2 ev,
    run (S fuel) nf (OpPrepareWait w :: resolve xs commit ++ [OpCancelWait w])
    = Ok (nf1, ev) /\
    run (S fuel) nf (resolve xs commit) = Ok (nf2, ev) /\
    length (waiters_ nf1) = length (waiters_ nf) /\
    length (waiters_ nf2) = length (waiters_ nf) /\
    stack_of (state_ nf1) = stack_of (state_ nf2) /\
    count_of (state_ nf1) = 0 /\ count_of (state_ nf2) = 0 /\
    (forall j : nat,
       Waiter.next_ <$> waiters_ nf1 !! j = Waiter.next_ <$> waiters_ nf2 !! j /\
       Waiter.state_ <$> waiters_ nf1 !! j = Waiter.state_ <$> waiters_ nf2 !! j) /\
    epoch_of (state_ nf1) = (epoch_of (state_ nf2) + 1) mod 2 ^ 32.
Proof.
  intros Han Hlc Hw Hnot.
  pose proof (announced_room nf xs w Han Hw Hnot) as Hroom.
  destruct Han as (Hwf & Hc & Hex).
  destruct (wf_fields nf Hwf) as (e & c & h & Hf & Hst & Hcap & Hh & _ & _).
  rewrite Hst, count_of_pack in Hc by exact Hf.
  rewrite Hst, epoch_of_pack in Hex by exact Hf.
  destruct (lookup_lt_is_Some_2 _ _ Hw) as [sl Hsl].
  assert (Hfa : fields_ok e (c + 1) h) by (unfold fields_ok in *; lia).
  pose proof (PrepareWait_pack nf e c h Hf Hst w sl Hsl ltac:(lia)) as Hprep.
  set (a := mkNotifier _ _) in Hprep.
  assert (Hepa : forall x, x <> w ->
            Waiter.epoch_ <$> waiters_ a !! x = Waiter.epoch_ <$> waiters_ nf !! x).
  { intros x Hx. cbn [a waiters_]. now rewrite list_lookup_insert_ne by congruence. }
  destruct (resolve_sim fuel xs commit a nf e (c + 1) c h Hlc Hfa eq_refl
              ltac:(lia) eq_refl Hst)
    as (a1 & b1 & ev & h1 & Hra & Hrb & Hsa1 & Hsb1 & Hf1 & (Hlen1 & Hslots1)
        & Hlenb & Hep1); try assumption.
  { split; [cbn [a waiters_]; apply length_insert |].
    intros j. cbn [a waiters_]. destruct (decide (j = w)) as [-> | Hne].
    - rewrite list_lookup_insert_eq, Hsl by exact Hw. split; reflexivity.
    - rewrite list_lookup_insert_ne by congruence. split; reflexivity. }
  { intros j x Hj. split; [| exact (Hex j x Hj)].
    apply (expects_frame nf); [| exact (Hex j x Hj)].
    apply Hepa. intros ->. apply Hnot. eapply list_elem_of_lookup_2, Hj. }
  rewrite <- Hc in Hsa1, Hsb1, Hf1.
  replace (c + 1 - c) with 1 in Hsa1, Hf1 by lia. rewrite Z.sub_diag in Hsb1.
  set (e1 := (e + c) mod 2 ^ 32) in *.
  assert (Hf0 : fields_ok e1 0 h1) by (unfold fields_ok in *; lia).
  assert (Hf2 : fields_ok ((e1 + 1) mod 2 ^ 32) (1 - 1) h1).
  { unfold fields_ok in *. split; [apply Z.mod_pos_bound |]; lia. }
  assert (Hwa : exists sw, waiters_ a1 !! w = Some sw /\
                           Waiter.epoch_ sw = pack e c h).
  { pose proof (Hep1 w) as Hq. cbn [a waiters_] in Hq.
    rewrite list_lookup_insert_eq in Hq by exact Hw. cbn in Hq.
    apply fmap_Some in Hq as (sw & Hsw & Hq). now exists sw. }
  destruct Hwa as (sw & Hsw & Hsnap).
  assert (Hcancel : CancelWait (S fuel) a1 w
                    = Ok (set_state_word (pack ((e1 + 1) mod 2 ^ 32) (1 - 1) h1) a1)).
  { unfold CancelWait. rewrite (slot_lookup _ _ _ Hsw), bind_Ok, Hsnap.
    rewrite (expected_epoch_pack e c h Hf). fold e1.
    apply (CancelWait_loop_resolve a1 e1 1 h1 Hf1 Hsa1 fuel). lia. }
  eexists _, b1, ev.
  split.
  { rewrite (run_step _ _ _ _ _ _ (exec_prepare _ _ _ _ Hprep)), run_app, Hra, bind_Ok.
    rewrite (run_last _ _ _ _ _ (exec_cancel _ _ _ _ Hcancel)), bind_Ok.
    now rewrite app_nil_r. }
  split; [exact Hrb |]. cbn [waiters_ state_ set_state_word].
  rewrite Hsb1, !stack_of_pack, !count_of_pack, !epoch_of_pack by assumption.
  split; [rewrite Hlen1; exact Hlenb |]. split; [exact Hlenb |].
  split; [reflexivity |]. split; [lia |]. split; [reflexivity |].
  split; [exact Hslots1 | reflexivity].
Qed.

(** Capacity 2, slot 0 announced and unresolved; then PrepareWait(slot 1),
    CommitWait(slot 0), CancelWait(slot 1) against CommitWait(slot 0). *)
Lemma PrepareWait_CancelWait_symmetry_witness :
  exists nf1 nf2 ev,
    run 1 demo_prepared (OpPrepareWait 1 :: resolve [0%nat] [true] ++ [OpCancelWait 1])
    = Ok (nf1, ev) /\
    run 1 demo_prepared (resolve [0%nat] [true]) = Ok (nf2, ev) /\
    length (waiters_ nf1) = length (waiters_ demo_prepared) /\
    length (waiters_ nf2) = length (waiters_ demo_prepared) /\
    stack_of (state_ nf1) = stack_of (state_ nf2) /\
    count_of (state_ nf1) = 0 /\ count_of (state_ nf2) = 0 /\
    (forall j : nat,
       Waiter.next_ <$> waiters_ nf1 !! j = Waiter.next_ <$> waiters_ nf2 !! j /\
       Waiter.state_ <$> waiters_ nf1 !! j = Waiter.state_ <$> waiters_ nf2 !! j) /\
    epoch_of (state_ nf1) = (epoch_of (state_ nf2) + 1) mod 2 ^ 32.
Proof.
  apply (PrepareWait_CancelWait_symmetry 0 demo_prepared [0%nat] [true] 1).
  - split; [closed_wf |]. split; [reflexivity |].
    intros [| j] x Hj; [| discriminate Hj]. injection Hj as <-.
    eexists. split; reflexivity.
  - reflexivity.
  - cbn. lia.
  - rewrite elem_of_cons, elem_of_nil. lia.
Defined.


(** ** The example program *)

Lemma run_prepare_commit_inv (fuel : nat) (nf nf' : Notifier) (w : nat) (ev : list event) :
  run fuel nf [OpPrepareWait w; OpCommitWait w] = Ok (nf', ev) ->
  exists nf1, PrepareWait nf w = Ok nf1 /\ CommitWait fuel nf1 w = Ok (nf', ev).
Proof.
  intros Hrun. cbn [run exec] in Hrun.
  destruct (PrepareWait nf w) as [nf1 | | | |]; try discriminate Hrun.
  rewrite !bind_Ok in Hrun. cbn beta iota in Hrun.
  destruct (CommitWait fuel nf1 w) as [[nf2 ev2] | | | |] eqn:Hc; try discriminate Hrun.
  repeat first [rewrite bind_Ok in Hrun | progress cbn beta iota in Hrun].
  injection Hrun as <- <-. exists nf1. rewrite app_nil_r. split; [reflexivity | exact Hc].
Qed.

(** PrepareWait, CancelWait and then CommitWait on an idle notifier. *)
Lemma prepare_cancel_commit (fuel : nat) (nf : Notifier) (w : nat) :
  idle nf -> (w < length (waiters_ nf))%nat ->
  exists nf1 nf2 nf3,
    PrepareWait nf w = Ok nf1 /\ CancelWait (S fuel) nf1 w = Ok nf2 /\
    CommitWait (S fuel) nf2 w = Ok (nf3, [EvUnblocked w]) /\ idle nf3.
Proof.
  intros Hidle Hw. destruct (idle_fields nf Hidle) as (e & Hf & Hst).
  destruct Hidle as (_ & _ & _ & Hcap).
  assert (Hr : 0 <= e < 2 ^ 32) by apply Hf.
  set (h := kStackMask) in *.
  assert (Hf1 : fields_ok e (0 + 1) h) by (unfold fields_ok, h; change kStackMask with 65535; literals; lia).
  assert (Hf2 : fields_ok ((e + 1) mod 2 ^ 32) (0 + 1 - 1) h).
  { unfold fields_ok, h. change kStackMask with 65535. divmod. }
  destruct (lookup_lt_is_Some_2 _ _ Hw) as [sl Hsl].
  assert (Hprep := PrepareWait_pack nf e 0 h Hf Hst w sl Hsl ltac:(literals; lia)).
  set (nf1 := mkNotifier _ _) in Hprep.
  assert (Hsl1 : waiters_ nf1 !! w = Some (Waiter.set_epoch (pack e 0 h) sl)).
  { cbn [nf1 waiters_]. now apply list_lookup_insert_eq. }
  assert (Hexp : expected_epoch (Waiter.epoch_ (Waiter.set_epoch (pack e 0 h) sl)) = e * 2 ^ 32).
  { cbn [Waiter.epoch_ Waiter.set_epoch]. rewrite expected_epoch_pack by exact Hf.
    now rewrite Z.add_0_r, Z.mod_small by lia. }
  assert (Hcan : CancelWait (S fuel) nf1 w
                 = Ok (set_state_word (pack ((e + 1) mod 2 ^ 32) (0 + 1 - 1) h) nf1)).
  { unfold CancelWait. rewrite (slot_lookup _ _ _ Hsl1), bind_Ok, Hexp.
    apply (CancelWait_loop_resolve nf1 e (0 + 1) h Hf1 eq_refl fuel). lia. }
  set (nf2 := set_state_word _ nf1) in Hcan.
  destruct (after_resolution nf2 ((e + 1) mod 2 ^ 32) (0 + 1 - 1) h e fuel w _
              Hf2 eq_refl Hsl1) as [Hcommit _]; [lia | exact Hexp | reflexivity |].
  eexists _, _, _. split; [exact Hprep |]. split; [exact Hcan |]. split; [exact Hcommit |].
  unfold idle. cbn [state_ waiters_ set_waiters nf2 nf1 set_state_word].
  rewrite count_of_pack, stack_of_pack by exact Hf2. rewrite !length_insert.
  split; [apply pack_word, Hf2 | easy].
Qed.

(** X15: ThreadFunc1 started when the predicate is already set.  It
    announces itself, cancels, and then falls through into CommitWait all
    the same; that CommitWait finds the epoch one step ahead and returns
    without blocking.  The thread prints all nine lines, and the notifier
    is idle afterwards, so destroying it is safe. *)
Theorem ThreadFunc1_predicate_set (fuel : nat) (nf : Notifier) (out : list string) :
  idle nf -> (0 < length (waiters_ nf))%nat ->
  exists nf',
    ThreadFunc1 (S fuel) (mkWorld true nf out)
    = Ok (mkWorld true nf'
            (out ++ ["ThreadFunc1-1"; "ThreadFunc1-2"; "ThreadFunc1-3";
                     "ThreadFunc1-4"; "ThreadFunc1-5"; "ThreadFunc1-6";
                     "ThreadFunc1-7"; "ThreadFunc1-8"; "ThreadFunc1-9"]),
          false) /\
    idle nf' /\ Notifier_dtor nf' = Ok tt.
Proof.
  intros Hidle Hlen.
  destruct (prepare_cancel_commit fuel nf 0 Hidle Hlen)
    as (nf1 & nf2 & nf3 & Hprep & Hcan & Hcommit & Hidle3).
  exists nf3. split; [| split; [exact Hidle3 | now apply idle_dtor]].
  unfold ThreadFunc1. cbv zeta. world_simpl.
  unfold GetWaiter. destruct (Nat.ltb_spec 0 (length (waiters_ nf))); [| lia].
  rewrite bind_Ok, Hprep, bind_Ok. world_simpl.
  rewrite Hcan, !bind_Ok. world_simpl.
  rewrite Hcommit, bind_Ok. cbn [blocked]. world_simpl.
  now rewrite <- !app_assoc.
Qed.

Lemma ThreadFunc1_predicate_set_witness :
  exists nf',
    ThreadFunc1 1 (mkWorld true (new_notifier 2) [])
    = Ok (mkWorld true nf'
            ([] ++ ["ThreadFunc1-1"; "ThreadFunc1-2"; "ThreadFunc1-3";
                    "ThreadFunc1-4"; "ThreadFunc1-5"; "ThreadFunc1-6";
                    "ThreadFunc1-7"; "ThreadFunc1-8"; "ThreadFunc1-9"]),
          false) /\
    idle nf' /\ Notifier_dtor nf' = Ok tt.
Proof.
  apply (ThreadFunc1_predicate_set 0 (new_notifier 2) []).
  - apply new_notifier_idle. lia.
  - cbn. lia.
Defined.

(** X16: the example in the schedule of its sleeps.  Started with the
    predicate unset on an idle notifier, ThreadFunc1 prints four lines
    and blocks in CommitWait; ThreadFunc2 then sets the predicate and its
    Notify(true) signals slot 0; ThreadFunc1 wakes up, sees the predicate
    and prints its last two lines, and the notifier is idle again.  For
    [main], once the vector of its two slots is built, this is the output
    written in the source, and the destructor's assertion passes; when the
    vector cannot be built, [main] ends with the exception and prints
    nothing. *)
Theorem example_schedule (can_hold : nat -> bool) (fuel : nat) (nf : Notifier)
    (out : list string) :
  idle nf -> (0 < length (waiters_ nf))%nat ->
  (exists nf1 nf2,
     ThreadFunc1 (S fuel) (mkWorld false nf out)
     = Ok (mkWorld false nf1
             (out ++ ["ThreadFunc1-2"; "ThreadFunc1-3"; "ThreadFunc1-4"; "ThreadFunc1-7"]),
           true) /\
     (forall o, ThreadFunc2 (S fuel) (mkWorld false nf1 o)
                = Ok (mkWorld true nf2 (o ++ ["ThreadFunc2-1"]))) /\
     (forall o, ThreadFunc1_wake (mkWorld true nf2 o)
                = Ok (mkWorld true nf2 (o ++ ["ThreadFunc1-8"; "ThreadFunc1-9"]), false)) /\
     idle nf2) /\
  (can_hold 2%nat = true ->
   main_schedule can_hold (S fuel)
   = Ok ["ThreadFunc1-2"; "ThreadFunc1-3"; "ThreadFunc1-4"; "ThreadFunc1-7";
         "ThreadFunc2-1"; "ThreadFunc1-8"; "ThreadFunc1-9"; "ThreadFunc2-2"]) /\
  (can_hold 2%nat = false -> main_schedule can_hold (S fuel) = Thrown).
Proof.
  assert (Hgen : forall (nf : Notifier) (out : list string),
    idle nf -> (0 < length (waiters_ nf))%nat ->
    exists nf1 nf2,
      ThreadFunc1 (S fuel) (mkWorld false nf out)
      = Ok (mkWorld false nf1
              (out ++ ["ThreadFunc1-2"; "ThreadFunc1-3"; "ThreadFunc1-4"; "ThreadFunc1-7"]),
            true) /\
      (forall o, ThreadFunc2 (S fuel) (mkWorld false nf1 o)
                 = Ok (mkWorld true nf2 (o ++ ["ThreadFunc2-1"]))) /\
      (forall o, ThreadFunc1_wake (mkWorld true nf2 o)
                 = Ok (mkWorld true nf2 (o ++ ["ThreadFunc1-8"; "ThreadFunc1-9"]), false)) /\
      idle nf2).
  { clear nf out. intros nf out Hidle Hlen.
    destruct (park_one fuel nf [] 0 (idle_parked nf Hidle)) as (nf1 & Hrun1 & Hp1 & _);
      [apply not_elem_of_nil | exact Hlen |].
    destruct (run_prepare_commit_inv _ _ _ _ _ Hrun1) as (nf0 & Hprep & Hcommit).
    destruct (notify_single fuel nf1 0 true Hp1) as (nf2 & sl & Hnot & Hidle2 & _ & Hsl & Hsig).
    exists nf1, nf2. split; [| split; [| split; [| exact Hidle2]]].
    - unfold ThreadFunc1. cbv zeta. world_simpl.
      unfold GetWaiter. destruct (Nat.ltb_spec 0 (length (waiters_ nf))); [| lia].
      rewrite bind_Ok, Hprep, !bind_Ok. world_simpl.
      rewrite Hcommit, bind_Ok. cbn [blocked]. world_simpl.
      now rewrite <- !app_assoc.
    - intros o. unfold ThreadFunc2. cbv zeta. world_simpl.
      rewrite Hnot, bind_Ok. reflexivity.
    - intros o. unfold ThreadFunc1_wake. cbn [notifier].
      rewrite (resume_signaled nf2 0 sl Hsl Hsig), bind_Ok. cbn [blocked]. world_simpl.
      now rewrite <- !app_assoc. }
  split; [now apply Hgen |].
  split; [intros Hhold |
          intros Hhold; unfold main_schedule;
          now rewrite (Notifier_ctor_throws _ _ Hhold)].
  destruct (Hgen (new_notifier 2) []) as (nf1 & nf2 & Ht1 & Ht2 & Hwake & Hidle2).
  { apply new_notifier_idle. lia. }
  { cbn. lia. }
  unfold main_schedule. rewrite (Notifier_ctor_ok _ _ Hhold) by lia. rewrite bind_Ok.
  change (mkNotifier _ _) with (new_notifier 2).
  rewrite Ht1, bind_Ok. cbn beta iota.
  rewrite Ht2, bind_Ok, Hwake, bind_Ok. cbn beta iota. world_simpl.
  rewrite (idle_dtor nf2 Hidle2), bind_Ok. reflexivity.
Qed.

Lemma example_schedule_witness :
  (exists nf1 nf2,
     ThreadFunc1 1 (mkWorld false (new_notifier 2) [])
     = Ok (mkWorld false nf1
             ([] ++ ["ThreadFunc1-2"; "ThreadFunc1-3"; "ThreadFunc1-4"; "ThreadFunc1-7"]),
           true) /\
     (forall o, ThreadFunc2 1 (mkWorld false nf1 o)
                = Ok (mkWorld true nf2 (o ++ ["ThreadFunc2-1"]))) /\
     (forall o, ThreadFunc1_wake (mkWorld true nf2 o)
                = Ok (mkWorld true nf2 (o ++ ["ThreadFunc1-8"; "ThreadFunc1-9"]), false)) /\
     idle nf2) /\
  main_schedule (holds_up_to (2 ^ 63 - 1)) 1
  = Ok ["ThreadFunc1-2"; "ThreadFunc1-3"; "ThreadFunc1-4"; "ThreadFunc1-7";
        "ThreadFunc2-1"; "ThreadFunc1-8"; "ThreadFunc1-9"; "ThreadFunc2-2"].
Proof.
  destruct (example_schedule (holds_up_to (2 ^ 63 - 1)) 0 (new_notifier 2) [])
    as (Hthreads & Hmain & _).
  - apply new_notifier_idle. lia.
  - cbn. lia.
  - split; [exact Hthreads | apply Hmain; reflexivity].
Defined.
